(** * file-renamer-html: the sorter, the rename planner and the executor

    A shallow embedding of [js/sorter.js] (class [FileSorter]) and
    [js/renamer.js] (class [FileRenamer]), with the properties of the
    planning engine stated and proved over it.

    Conventions of the embedding.
    - A JavaScript string is a [string]; its characters are the code
      units below 256.
    - A JavaScript number that the program uses as a size, a timestamp or a
      sequence index is an integer of [Z]; a field that may be missing
      ([undefined]) is an [option].
    - A call that may throw returns an [Outcome]: the value returned, or
      the [message] of the [Error] thrown.
    - Arrays that the sorter receives and returns live in a [heap], so
      that "a new array" and "the input is not modified" can be stated.
    - The host (the File System Access API behind [FileSystemManager],
      the clock and the progress callback) is a record of functions over
      an abstract [World], threaded through the calls in the order in
      which the program makes them; every call to the file system or to
      the callback is appended to a trace, with the answer received.
    - [Array.prototype.sort] is a stable sort (ECMAScript 2019); it is
      embedded as an insertion sort, and [stable_sorted_unique] shows
      that no other stable sort could return anything else. *)

From Stdlib Require Import ZArith Lia Ascii DecimalString DecimalZ DecimalPos.
From stdpp Require Import gmap strings list sorting.

Local Open Scope Z_scope.

(** ** Values shared by the two classes *)

Inductive Outcome (A : Type) : Type :=
  | Returned (a : A)
  | Thrown (message : string).
Arguments Returned {A} a.
Arguments Thrown {A} message.

Definition Handle := nat.

(** The object built by [FileSystemManager.getFileMetadata]
    (sorter.js:456-464). [size], [lastModified] and [creationTime] are
    optional because the sorter and the planner test them with [||]. *)
Record FileRecord := mkFile {
  handle : Handle;
  name : string;
  size : option Z;
  lastModified : option Z;
  creationTime : option Z;
  extension : string;
  type : string
}.

(** [a || d] on numbers: [undefined] and [0] are falsy. *)
Definition num_or (a : option Z) (d : Z) : Z :=
  match a with
  | Some z => if Z.eqb z 0 then d else z
  | None => d
  end.

(** [a || b] where the result may stay [undefined]. *)
Definition opt_or (a b : option Z) : option Z :=
  match a with
  | Some z => if Z.eqb z 0 then b else Some z
  | None => b
  end.

(** ** FileSorter (js/sorter.js) *)

Module Sorter.

Inductive SortField := FieldSize | FieldCreationTime.
Inductive SortOrder := Asc | Desc.

Record SortOption := mkOption {
  field : SortField;
  order : SortOrder;
  label : string
}.

(** [this.sortOptions] (sorter.js:7-12). *)
Definition sortOptions : gmap string SortOption :=
  list_to_map
    [ ("size-asc", mkOption FieldSize Asc "Size (smallest to largest)");
      ("size-desc", mkOption FieldSize Desc "Size (largest to smallest)");
      ("date-asc", mkOption FieldCreationTime Asc "Creation Date (oldest first)");
      ("date-desc", mkOption FieldCreationTime Desc "Creation Date (newest first)") ].

(** [sortOptions] is an object literal, so [this.sortOptions[key]] also
    finds what every object inherits from [Object.prototype]. *)
Definition objectPrototypeMembers : list string :=
  [ "constructor"; "hasOwnProperty"; "isPrototypeOf"; "propertyIsEnumerable";
    "toLocaleString"; "toString"; "valueOf"; "__proto__";
    "__defineGetter__"; "__defineSetter__"; "__lookupGetter__";
    "__lookupSetter__" ].

(** The value of [this.sortOptions[sortOption]]: one of the four
    options, an inherited member (truthy, and without [field] or
    [order]), or [undefined]. *)
Inductive OptionValue :=
  | OwnOption (o : SortOption)
  | InheritedMember
  | Undefined.

Definition lookupOption (sortOption : string) : OptionValue :=
  match sortOptions !! sortOption with
  | Some o => OwnOption o
  | None =>
      if bool_decide (sortOption ∈ objectPrototypeMembers)
      then InheritedMember else Undefined
  end.

(** The value compared for a file (sorter.js:37-46). *)
Definition sortValue (f : SortField) (a : FileRecord) : Z :=
  match f with
  | FieldSize => num_or (size a) 0
  | FieldCreationTime => num_or (creationTime a) (num_or (lastModified a) 0)
  end.

(** The comparator passed to [sort] (sorter.js:34-57). For an inherited
    member [option.field] is [undefined] and the [switch] throws. *)
Definition compareFiles (option : OptionValue) (a b : FileRecord) : Outcome Z :=
  match option with
  | OwnOption o =>
      let valueA := sortValue (field o) a in
      let valueB := sortValue (field o) b in
      match order o with
      | Asc => Returned (valueA - valueB)
      | Desc => Returned (valueB - valueA)
      end
  | _ => Thrown "Unknown sort field: undefined"
  end.

(** [Array.prototype.sort]: a stable sort by a comparator that may
    throw. [x] is placed before the first element it compares as
    smaller than or equal to, so equal elements keep their order; an
    array of fewer than two elements is returned without a call to the
    comparator. *)
Section ArraySort.
Context {A : Type} (comparefn : A -> A -> Outcome Z).

Fixpoint sort_insert (x : A) (l : list A) : Outcome (list A) :=
  match l with
  | [] => Returned [x]
  | y :: l' =>
      match comparefn x y with
      | Thrown m => Thrown m
      | Returned c =>
          if Z.leb c 0 then Returned (x :: y :: l')
          else match sort_insert x l' with
               | Returned r => Returned (y :: r)
               | Thrown m => Thrown m
               end
      end
  end.

Fixpoint array_sort (l : list A) : Outcome (list A) :=
  match l with
  | [] => Returned []
  | x :: l' =>
      match array_sort l' with
      | Returned r => sort_insert x r
      | Thrown m => Thrown m
      end
  end.
End ArraySort.

(** Arrays of file records are heap objects. *)
Definition loc := nat.
Abbreviation heap := (gmap loc (list FileRecord)).

(** The argument [files]: a reference to an array, or anything else. *)
Inductive Value :=
  | VArray (a : loc)
  | VOther.

Definition alloc (elems : list FileRecord) (h : heap) : loc * heap :=
  let l := fresh (dom h) in (l, <[l := elems]> h).

(** [sortFiles(files, sortOption)] (sorter.js:21-58). The copy
    [[...files]] is allocated, sorted in place and returned. *)
Definition sortFiles (files : Value) (sortOption : string) (h : heap)
  : Outcome loc * heap :=
  match files with
  | VOther => let '(r, h') := alloc [] h in (Returned r, h')
  | VArray a =>
      let elems := default [] (h !! a) in
      if Nat.eqb (length elems) 0 then
        let '(r, h') := alloc [] h in (Returned r, h')
      else
        match lookupOption sortOption with
        | Undefined => (Thrown ("Invalid sort option: " +:+ sortOption), h)
        | option =>
            let '(sortedFiles, h1) := alloc elems h in
            match array_sort (compareFiles option) elems with
            | Returned sorted => (Returned sortedFiles, <[sortedFiles := sorted]> h1)
            | Thrown m => (Thrown m, h1)
            end
        end
  end.

End Sorter.

(** ** Strings: the built-ins that renamer.js calls *)

Module JsString.

Definition quote : string := String (Ascii.ascii_of_nat 34) EmptyString.

(** [s.startsWith(p)] *)
Fixpoint startsWith (s p : string) {struct p} : bool :=
  match p with
  | EmptyString => true
  | String c p' =>
      match s with
      | EmptyString => false
      | String d s' => if Ascii.eqb c d then startsWith s' p' else false
      end
  end.

(** [s.substring(n)] *)
Fixpoint substringFrom (n : nat) (s : string) : string :=
  match n with
  | O => s
  | S n' => match s with
            | EmptyString => EmptyString
            | String _ s' => substringFrom n' s'
            end
  end.

(** White space and line terminators among the code units below 256:
    TAB, LF, VT, FF, CR, SP and NBSP. *)
Definition isWhiteSpace (c : ascii) : bool :=
  let n := Ascii.nat_of_ascii c in
  (Nat.leb 9 n && Nat.leb n 13) || Nat.eqb n 32 || Nat.eqb n 160.

Fixpoint trimStart (s : string) : string :=
  match s with
  | EmptyString => EmptyString
  | String c s' => if isWhiteSpace c then trimStart s' else s
  end.

Fixpoint trimEnd (s : string) : string :=
  match s with
  | EmptyString => EmptyString
  | String c s' =>
      match trimEnd s' with
      | EmptyString => if isWhiteSpace c then EmptyString else String c EmptyString
      | t => String c t
      end
  end.

(** [s.trim()] *)
Definition trim (s : string) : string := trimEnd (trimStart s).

Definition isEmpty (s : string) : bool :=
  match s with EmptyString => true | _ => false end.

(** [s.endsWith(c)] for a single character. *)
Fixpoint endsWithChar (s : string) (c : ascii) : bool :=
  match s with
  | EmptyString => false
  | String d EmptyString => Ascii.eqb d c
  | String _ s' => endsWithChar s' c
  end.

(** [s.replace(needle, replacement)] for a non-empty string [needle]:
    the first occurrence only. (The replacements made by the program
    are digit strings or empty, so no [$] pattern is involved.) *)
Fixpoint replace (needle replacement s : string) : string :=
  if startsWith s needle then
    replacement +:+ substringFrom (String.length needle) s
  else
    match s with
    | EmptyString => EmptyString
    | String c s' => String c (replace needle replacement s')
    end.

(** [(s.match(/needle/g) || []).length] for a literal [needle]: the
    scan goes left to right and resumes after each match; [skip] counts
    the characters of the last match still to be passed. *)
Fixpoint countMatchesFrom (needle : string) (skip : nat) (s : string) : nat :=
  match s with
  | EmptyString => O
  | String _ s' =>
      match skip with
      | S k => countMatchesFrom needle k s'
      | O =>
          if startsWith s needle
          then S (countMatchesFrom needle (Nat.pred (String.length needle)) s')
          else countMatchesFrom needle O s'
      end
  end.

Definition countMatches (needle s : string) : nat := countMatchesFrom needle O s.

(** [regex.test(s)] for a character class: some character is in it. *)
Fixpoint anyChar (p : ascii -> bool) (s : string) : bool :=
  match s with
  | EmptyString => false
  | String c s' => p c || anyChar p s'
  end.

Definition toUpperAscii (c : ascii) : ascii :=
  let n := Ascii.nat_of_ascii c in
  if Nat.leb 97 n && Nat.leb n 122 then Ascii.ascii_of_nat (n - 32) else c.

Fixpoint toUpper (s : string) : string :=
  match s with
  | EmptyString => EmptyString
  | String c s' => String (toUpperAscii c) (toUpper s')
  end.

Fixpoint repeat (c : ascii) (n : nat) : string :=
  match n with
  | O => EmptyString
  | S n' => String c (repeat c n')
  end.

(** [s.padStart(targetLength, c)] for a one-character filler. *)
Definition padStart (s : string) (targetLength : nat) (c : ascii) : string :=
  repeat c (targetLength - String.length s) +:+ s.

(** [String(n)] for an integer: its decimal digits, with a minus sign
    when negative. *)
Definition ofNumber (n : Z) : string := NilZero.string_of_int (Z.to_int n).

(** [fileName.lastIndexOf('.')], [None] for -1. *)
Fixpoint lastIndexOfChar (c : ascii) (s : string) : option nat :=
  match s with
  | EmptyString => None
  | String d s' =>
      match lastIndexOfChar c s' with
      | Some n => Some (S n)
      | None => if Ascii.eqb d c then Some O else None
      end
  end.

End JsString.

(** ** FileRenamer (js/renamer.js) *)

Module Renamer.
Import JsString.

(** *** Pattern validation and name generation (pure) *)

Record ValidationResult := mkValidation {
  isValid : bool;
  validationErrors : list string
}.

Definition placeholder : string := "{number}".

(** The character class of [invalidChars] (renamer.js:36): the nine
    punctuation characters and the control characters 0 to 31. *)
Definition isInvalidChar (c : ascii) : bool :=
  Nat.leb (Ascii.nat_of_ascii c) 31
  || anyChar (Ascii.eqb c) ("<>:/\|?*" +:+ quote).

(** The alternatives of [/^(CON|PRN|AUX|NUL|COM[1-9]|LPT[1-9])$/i]. *)
Definition reservedNames : list string :=
  [ "CON"; "PRN"; "AUX"; "NUL";
    "COM1"; "COM2"; "COM3"; "COM4"; "COM5"; "COM6"; "COM7"; "COM8"; "COM9";
    "LPT1"; "LPT2"; "LPT3"; "LPT4"; "LPT5"; "LPT6"; "LPT7"; "LPT8"; "LPT9" ].

Definition isReservedName (s : string) : bool :=
  bool_decide (toUpper s ∈ reservedNames).

(** [validatePattern(pattern)] (renamer.js:17-62). *)
Definition validatePattern (pattern : string) : ValidationResult :=
  if isEmpty pattern || isEmpty (trim pattern) then
    mkValidation false ["Pattern cannot be empty"]
  else
    let trimmedPattern := trim pattern in
    let numberPlaceholders := countMatches placeholder trimmedPattern in
    let placeholderErrors :=
      if Nat.eqb numberPlaceholders 0 then
        ["Pattern must contain exactly one {number} placeholder"]
      else if Nat.ltb 1 numberPlaceholders then
        ["Pattern must contain exactly one {number} placeholder"]
      else [] in
    let charErrors :=
      if anyChar isInvalidChar trimmedPattern then
        ["Pattern contains invalid characters: < > : " +:+ quote
           +:+ " / \ | ? * or control characters"]
      else [] in
    let lengthErrors :=
      if Nat.ltb 200 (String.length trimmedPattern) then
        ["Pattern is too long (maximum 200 characters)"]
      else [] in
    let patternWithoutNumber := trim (replace placeholder "" trimmedPattern) in
    let reservedErrors :=
      if isReservedName patternWithoutNumber then
        ["Pattern cannot use reserved Windows names"]
      else [] in
    let dotErrors :=
      if startsWith trimmedPattern "." || endsWithChar trimmedPattern "."%char then
        ["Pattern cannot start or end with a dot"]
      else [] in
    let errors :=
      placeholderErrors ++ charErrors ++ lengthErrors ++ reservedErrors ++ dotErrors in
    mkValidation (Nat.eqb (length errors) 0) errors.

(** [generateNewName(pattern, index, padding, extension)]
    (renamer.js:72-85). *)
Definition generateNewName (pattern : string) (index : Z) (padding : nat)
    (extension : string) : string :=
  let paddedNumber := padStart (ofNumber index) padding "0"%char in
  let newName := replace placeholder paddedNumber pattern in
  if negb (isEmpty extension) && negb (isEmpty (trim extension))
  then newName +:+ extension
  else newName.

(** The extension computed at ingestion
    ([FileSystemManager.getFileMetadata], sorter.js:438-439). *)
Definition extensionOf (fileName : string) : string :=
  match lastIndexOfChar "."%char fileName with
  | Some (S n) => substringFrom (S n) fileName
  | _ => EmptyString
  end.

(** *** Records built by the planner and the executor *)

Inductive Collision :=
  | CollisionExisting (fileName : string) (existingFile : FileRecord)
  | CollisionDirectory (fileName : string)
  | CollisionUnknown (fileName : string) (error : string).

Record CollisionCheck := mkCheck {
  hasCollisions : bool;
  collisions : list Collision
}.

(** What [resolveCollision] returns. *)
Inductive Resolution :=
  | Resolved (newName : string) (newIndex : Z) (attempts : nat) (originalIndex : Z)
  | Unresolved (attempts : nat) (originalIndex : Z) (error : string).

(** An element of [collisionResolutions] (renamer.js:228-235). *)
Record CollisionResolution := mkResolution {
  cr_originalFile : FileRecord;
  cr_originalName : string;
  cr_originalIndex : Z;
  cr_resolvedName : string;
  cr_resolvedIndex : Z;
  cr_attempts : nat
}.

(** An element of [previewData] (renamer.js:258-268). *)
Record PreviewEntry := mkEntry {
  pe_originalName : string;
  pe_newName : string;
  pe_originalIndex : Z;
  pe_actualIndex : Z;
  pe_file : FileRecord;
  pe_collisionResolved : bool;
  pe_size : option Z;
  pe_creationTime : option Z;
  pe_extension : string
}.

(** What [generatePreview] returns; the last four fields are only
    present on success. *)
Record PreviewResult := mkPreview {
  success : bool;
  errors : list string;
  previewData : list PreviewEntry;
  pr_collisionResolutions : option (list CollisionResolution);
  pr_totalFiles : option nat;
  pr_pattern : option string;
  pr_padding : option nat
}.

Record Options := mkOptions {
  resolveCollisions : option bool;
  startIndex : option Z
}.

Record RenamedItem := mkRenamed {
  ok_originalName : string;
  ok_newName : string;
  ok_file : FileRecord
}.

Record FailedItem := mkFailed {
  ko_originalName : string;
  ko_newName : string;
  ko_file : FileRecord;
  ko_error : string
}.

Record OperationResult := mkResult {
  successful : list RenamedItem;
  failed : list FailedItem;
  totalFiles : nat;
  startTime : Z;
  endTime : option Z;
  duration : option Z
}.

Record LogEntry := mkLog {
  log_timestamp : Z;
  log_operation : string;
  log_originalName : string;
  log_newName : string;
  log_status : string;
  log_error : option string
}.

(** *** The host and the state of a [FileRenamer] *)

(** A call made to the host, with what it answered. *)
Inductive Event :=
  | EvFileExists (fileName : string) (answer : Outcome bool)
  | EvProgress (current total : Z) (originalName newName : string)
      (answer : Outcome unit)
  | EvRenameFile (fileHandle : Handle) (newName : string) (answer : Outcome bool).

Section WithWorld.
Context {World : Type}.

(** [fileSystemManager.fileExists], [fileSystemManager.renameFile] and
    [Date.now]. *)
Record Host := mkHost {
  fileExists : string -> World -> Outcome bool * World;
  renameFile : Handle -> string -> World -> Outcome bool * World;
  dateNow : World -> Z * World
}.

(** [progressCallback(current, total, originalName, newName)]. *)
Definition Callback : Type :=
  Z -> Z -> string -> string -> World -> Outcome unit * World.

(** The fields [operationLog] and [collisionResolutions] of the object,
    the world outside it, and the trace of the calls made so far. *)
Record State := mkState {
  world : World;
  trace : list Event;
  operationLog : list LogEntry;
  collisionResolutions : list CollisionResolution
}.

Definition M (A : Type) : Type := State -> A * State.

Definition ret {A} (a : A) : M A := fun st => (a, st).

Definition bind {A B} (m : M A) (k : A -> M B) : M B :=
  fun st => let '(a, st') := m st in k a st'.

End WithWorld.

Arguments Host : clear implicits.
Arguments Callback : clear implicits.
Arguments State : clear implicits.
Arguments M : clear implicits.

Declare Scope renamer_scope.
Delimit Scope renamer_scope with renamer.
Notation "'do' x <- m ; k" := (bind m (fun x => k))
  (at level 10, x name, m at level 100, k at level 200) : renamer_scope.
Local Open Scope renamer_scope.

Section WithHost.
Context {World : Type} (host : Host World).

(** *** Calls to the host, each recorded in the trace *)

Definition call_fileExists (fileName : string) : M World (Outcome bool) :=
  fun st =>
    let '(answer, w) := fileExists host fileName (world st) in
    (answer, mkState w (trace st ++ [EvFileExists fileName answer])
               (operationLog st) (collisionResolutions st)).

Definition call_renameFile (fileHandle : Handle) (newName : string)
  : M World (Outcome bool) :=
  fun st =>
    let '(answer, w) := renameFile host fileHandle newName (world st) in
    (answer, mkState w (trace st ++ [EvRenameFile fileHandle newName answer])
               (operationLog st) (collisionResolutions st)).

Definition call_progress (progressCallback : Callback World)
    (current total : Z) (originalName newName : string)
  : M World (Outcome unit) :=
  fun st =>
    let '(answer, w) :=
      progressCallback current total originalName newName (world st) in
    (answer, mkState w
               (trace st ++ [EvProgress current total originalName newName answer])
               (operationLog st) (collisionResolutions st)).

Definition call_dateNow : M World Z :=
  fun st =>
    let '(now, w) := dateNow host (world st) in
    (now, mkState w (trace st) (operationLog st) (collisionResolutions st)).

Definition set_operationLog (log : list LogEntry) : M World unit :=
  fun st => (tt, mkState (world st) (trace st) log (collisionResolutions st)).

Definition push_operationLog (entry : LogEntry) : M World unit :=
  fun st => (tt, mkState (world st) (trace st) (operationLog st ++ [entry])
                   (collisionResolutions st)).

Definition set_collisionResolutions (l : list CollisionResolution) : M World unit :=
  fun st => (tt, mkState (world st) (trace st) (operationLog st) l).

(** *** Collision detection (renamer.js:94-173) *)

(** [checkForCollisions(newName, existingFiles)]. *)
Definition checkForCollisions (newName : string) (existingFiles : list FileRecord)
  : M World CollisionCheck :=
  let existing :=
    map (CollisionExisting newName)
        (filter (fun file => name file = newName) existingFiles) in
  do answer <- call_fileExists newName;
  let collisions :=
    match answer with
    | Returned true => existing ++ [CollisionDirectory newName]
    | Returned false => existing
    | Thrown message => existing ++ [CollisionUnknown newName message]
    end in
  ret (mkCheck (Nat.ltb 0 (length collisions)) collisions).

(** The [while] loop of [resolveCollision]; [remaining] is
    [maxAttempts - attempts], so the loop exits when it is 0. *)
Fixpoint resolveLoop (pattern : string) (currentIndex : Z) (padding : nat)
    (extension : string) (existingFiles : list FileRecord)
    (maxAttempts remaining attempts : nat) : M World Resolution :=
  match remaining with
  | O =>
      ret (Unresolved maxAttempts currentIndex
             ("Could not resolve collision after "
                +:+ ofNumber (Z.of_nat maxAttempts) +:+ " attempts"))
  | S remaining' =>
      let newIndex := currentIndex + Z.of_nat attempts + 1 in
      let newName := generateNewName pattern newIndex padding extension in
      do collisionCheck <- checkForCollisions newName existingFiles;
      if negb (hasCollisions collisionCheck) then
        ret (Resolved newName newIndex (attempts + 1) currentIndex)
      else
        resolveLoop pattern currentIndex padding extension existingFiles
          maxAttempts remaining' (attempts + 1)
  end.

Definition resolveCollision (pattern : string) (currentIndex : Z) (padding : nat)
    (extension : string) (existingFiles : list FileRecord) (maxAttempts : nat)
  : M World Resolution :=
  resolveLoop pattern currentIndex padding extension existingFiles
    maxAttempts maxAttempts 0.

(** *** Planning (renamer.js:183-284) *)

(** The variables of the [for] loop of [generatePreview]. *)
Record Loop := mkLoop {
  l_previewData : list PreviewEntry;
  l_usedNames : gset string;
  l_collisionResolutions : list CollisionResolution;
  l_currentIndex : Z
}.

Definition failure (message : string) (previewData : list PreviewEntry)
  : PreviewResult :=
  mkPreview false [message] previewData None None None None.

Definition unresolvedMessage (fileName error : string) : string :=
  "Could not resolve naming collision for " +:+ quote +:+ fileName +:+ quote
    +:+ ": " +:+ error.

Definition duplicateMessage (newName fileName : string) : string :=
  "Duplicate name generated: " +:+ quote +:+ newName +:+ quote
    +:+ " for files " +:+ quote +:+ fileName +:+ quote.

(** One iteration of the loop, for [files[i]]: the early [return] of a
    failed plan on the left, the updated variables on the right. *)
Definition planFile (files : list FileRecord) (pattern : string) (padding : nat)
    (resolve : bool) (i : nat) (file : FileRecord) (l : Loop)
  : M World (PreviewResult + Loop) :=
  let currentIndex := l_currentIndex l in
  let newName := generateNewName pattern currentIndex padding (extension file) in
  let actualIndex := currentIndex in
  let collisionResolved := false in
  do checked <-
    (if resolve then
       do collisionCheck <- checkForCollisions newName files;
       if hasCollisions collisionCheck then
         do resolution <-
           resolveCollision pattern currentIndex padding (extension file) files 1000;
         match resolution with
         | Resolved resolvedName resolvedIndex attempts _ =>
             ret (inr (resolvedName, resolvedIndex, true,
                       l_collisionResolutions l ++
                         [mkResolution file (name file) currentIndex
                            resolvedName resolvedIndex attempts]))
         | Unresolved _ _ error =>
             ret (inl (failure (unresolvedMessage (name file) error)
                         (l_previewData l)))
         end
       else ret (inr (newName, actualIndex, collisionResolved,
                      l_collisionResolutions l))
     else ret (inr (newName, actualIndex, collisionResolved,
                    l_collisionResolutions l)));
  match checked with
  | inl failed => ret (inl failed)
  | inr (newName, actualIndex, collisionResolved, resolutions) =>
      if bool_decide (newName ∈ l_usedNames l) then
        ret (inl (failure (duplicateMessage newName (name file)) (l_previewData l)))
      else
        ret (inr (mkLoop
                    (l_previewData l ++
                       [mkEntry (name file) newName (Z.of_nat i + 1) actualIndex
                          file collisionResolved (size file)
                          (opt_or (creationTime file) (lastModified file))
                          (extension file)])
                    ({[newName]} ∪ l_usedNames l)
                    resolutions
                    (actualIndex + 1)))
  end.

(** The loop from index [i] on, over the files not yet visited. *)
Fixpoint planLoop (files : list FileRecord) (pattern : string) (padding : nat)
    (resolve : bool) (i : nat) (rest : list FileRecord) (l : Loop)
  : M World (PreviewResult + Loop) :=
  match rest with
  | [] => ret (inr l)
  | file :: rest' =>
      do step <- planFile files pattern padding resolve i file l;
      match step with
      | inl failed => ret (inl failed)
      | inr l' => planLoop files pattern padding resolve (S i) rest' l'
      end
  end.

(** [generatePreview(files, pattern, padding, options)]. *)
Definition generatePreview (files : list FileRecord) (pattern : string)
    (padding : nat) (options : Options) : M World PreviewResult :=
  let resolve := default true (resolveCollisions options) in
  let start := default 1 (startIndex options) in
  let patternValidation := validatePattern pattern in
  if negb (isValid patternValidation) then
    ret (mkPreview false (validationErrors patternValidation) [] None None None None)
  else
    do looped <- planLoop files pattern padding resolve 0 files (mkLoop [] ∅ [] start);
    match looped with
    | inl failed => ret failed
    | inr l =>
        do _ <- set_collisionResolutions (l_collisionResolutions l);
        ret (mkPreview true [] (l_previewData l) (Some (l_collisionResolutions l))
               (Some (length files)) (Some pattern) (Some padding))
    end.

(** *** Execution (renamer.js:292-386) *)

(** The body of the [try] for [previewData[i]]: the results after the
    pushes of the success branch, or the message of what was thrown. *)
Definition tryRename (progressCallback : option (Callback World)) (total i : nat)
    (item : PreviewEntry) (results : OperationResult)
  : M World (Outcome OperationResult) :=
  do notified <-
    match progressCallback with
    | Some callback =>
        call_progress callback (Z.of_nat i + 1) (Z.of_nat total)
          (pe_originalName item) (pe_newName item)
    | None => ret (Returned tt)
    end;
  match notified with
  | Thrown message => ret (Thrown message)
  | Returned _ =>
      do renamed <- call_renameFile (handle (pe_file item)) (pe_newName item);
      match renamed with
      | Returned true =>
          let results' :=
            mkResult
              (successful results ++
                 [mkRenamed (pe_originalName item) (pe_newName item) (pe_file item)])
              (failed results) (totalFiles results) (startTime results)
              (endTime results) (duration results) in
          do now <- call_dateNow;
          do _ <- push_operationLog
                    (mkLog now "rename" (pe_originalName item) (pe_newName item)
                       "success" None);
          ret (Returned results')
      | Returned false => ret (Thrown "Rename operation returned false")
      | Thrown message => ret (Thrown message)
      end
  end.

(** One iteration of the loop of [executeRenaming]: the [try] and its
    [catch]. *)
Definition renameItem (progressCallback : option (Callback World)) (total i : nat)
    (item : PreviewEntry) (results : OperationResult) : M World OperationResult :=
  do tried <- tryRename progressCallback total i item results;
  match tried with
  | Returned results' => ret results'
  | Thrown message =>
      let results' :=
        mkResult (successful results)
          (failed results ++
             [mkFailed (pe_originalName item) (pe_newName item) (pe_file item)
                message])
          (totalFiles results) (startTime results)
          (endTime results) (duration results) in
      do now <- call_dateNow;
      do _ <- push_operationLog
                (mkLog now "rename" (pe_originalName item) (pe_newName item)
                   "failed" (Some message));
      ret results'
  end.

Fixpoint renameLoop (progressCallback : option (Callback World)) (total i : nat)
    (rest : list PreviewEntry) (results : OperationResult) : M World OperationResult :=
  match rest with
  | [] => ret results
  | item :: rest' =>
      do results' <- renameItem progressCallback total i item results;
      renameLoop progressCallback total (S i) rest' results'
  end.

(** [executeRenaming(previewData, progressCallback)]. *)
Definition executeRenaming (previewData : list PreviewEntry)
    (progressCallback : option (Callback World)) : M World OperationResult :=
  do startTime <- call_dateNow;
  let results := mkResult [] [] (length previewData) startTime None None in
  do _ <- set_operationLog [];
  do results' <-
    renameLoop progressCallback (length previewData) 0 previewData results;
  do endTime <- call_dateNow;
  ret (mkResult (successful results') (failed results') (totalFiles results')
         (startTime) (Some endTime) (Some (endTime - startTime))).

(** [getOperationLog()], [getCollisionResolutions()], [clearLogs()]. *)
Definition getOperationLog : M World (list LogEntry) :=
  fun st => (operationLog st, st).

Definition getCollisionResolutions : M World (list CollisionResolution) :=
  fun st => (collisionResolutions st, st).

Definition clearLogs : M World unit :=
  fun st => (tt, mkState (world st) (trace st) [] []).

End WithHost.

End Renamer.

(** ** Concrete folders, hosts and plans used to exercise the model *)

Module Examples.

Definition a_jpg : FileRecord :=
  mkFile 1%nat "a.jpg" (Some 10) (Some 1000) (Some 1000) ".jpg" "image/jpeg".

Definition b_png : FileRecord :=
  mkFile 2%nat "b.png" (Some 5) (Some 2000) (Some 2000) ".png" "image/png".

(** The array [[a.jpg, b.png]] at location 0. *)
Definition twoFiles : Sorter.heap := {[ 0%nat := [a_jpg; b_png] ]}.

(** An empty array at location 0. *)
Definition noFiles : Sorter.heap := {[ 0%nat := [] ]}.

(** A host over a folder listed as pairs of a handle and a name, with a
    clock that advances by one at each reading. A name exists when some
    file of the folder has it; renaming a locked file throws, renaming
    any other file of the folder changes its name. *)
Record Folder := mkFolder {
  listing : list (Handle * string);
  clock : Z
}.

Definition folderHost (locked : list Handle) : Renamer.Host Folder :=
  Renamer.mkHost
    (fun fileName w =>
       (Returned (bool_decide (fileName ∈ (listing w).*2)), w))
    (fun fileHandle newName w =>
       if bool_decide (fileHandle ∈ locked) then
         (Thrown "File is locked or cannot be modified", w)
       else if bool_decide (fileHandle ∈ (listing w).*1) then
         (Returned true,
          mkFolder
            (map (fun entry => if Nat.eqb entry.1 fileHandle
                               then (fileHandle, newName) else entry)
                 (listing w))
            (clock w))
       else (Thrown "File not found or was deleted during operation", w))
    (fun w => (clock w, mkFolder (listing w) (clock w + 1))).

Definition startIn (files : list (Handle * string)) : Renamer.State Folder :=
  Renamer.mkState (mkFolder files 0) [] [] [].

Definition defaults : Renamer.Options := Renamer.mkOptions None None.

Definition file_001_jpg : FileRecord :=
  mkFile 3%nat "file_001.jpg" (Some 20) (Some 3000) (Some 3000) ".jpg" "image/jpeg".

(** A folder that already holds [file_001.jpg] to [file_1001.jpg]
    besides [a.jpg]. *)
Definition crowdedFolder : list (Handle * string) :=
  (1%nat, "a.jpg")
  :: map (fun k => ((100 + k)%nat,
                    Renamer.generateNewName "file_{number}" (Z.of_nat k) 3 ".jpg"))
       (seq 1 1001).

(** A folder whose second file already has the first name of the
    pattern [file_{number}]. *)
Definition takenFolder : list (Handle * string) :=
  [(1%nat, "a.jpg"); (3%nat, "file_001.jpg")].

Definition threeFolder : list (Handle * string) :=
  [(1%nat, "a.jpg"); (2%nat, "b.png"); (3%nat, "file_001.jpg")].

(** A plan of three entries over [threeFolder]; the file of the second
    entry, [a.jpg], has handle 1. *)
Definition entry1 : Renamer.PreviewEntry :=
  Renamer.mkEntry "b.png" "img_1.png" 1 1 b_png false (Some 5) (Some 2000) ".png".

Definition entry2 : Renamer.PreviewEntry :=
  Renamer.mkEntry "a.jpg" "img_2.jpg" 2 2 a_jpg false (Some 10) (Some 1000) ".jpg".

Definition entry3 : Renamer.PreviewEntry :=
  Renamer.mkEntry "file_001.jpg" "img_3.jpg" 3 3 file_001_jpg false (Some 20)
    (Some 3000) ".jpg".

Definition threeEntries : list Renamer.PreviewEntry := [entry1; entry2; entry3].


(** A renamer whose log still holds the entry of an earlier run. *)
Definition afterEarlierRun : Renamer.State Folder :=
  Renamer.mkState (mkFolder threeFolder 7) []
    [Renamer.mkLog 5 "rename" "old.txt" "doc_1.txt" "success" None] [].

End Examples.

(** What a sort with a comparator that always throws comes to: the
    comparator is called as soon as there are two elements. *)
Definition array_sort_outcome_of_length {A : Type} (message : string) (l : list A)
  : Outcome (list A) :=
  match l with
  | [] | [_] => Returned l
  | _ => Thrown message
  end.

(** ** Notions used to state the properties of the planner *)

(** Whether a candidate name collides, given the answer of the folder:
    an input file has that name, or the folder says that it exists, or
    the check itself threw. *)
Definition colliding (files : list FileRecord) (newName : string)
    (answer : Outcome bool) : bool :=
  bool_decide (newName ∈ map name files)
  || match answer with
     | Returned false => false
     | _ => true
     end.

(** The calls to [fileExists] that [resolveCollision] makes after
    [offset] attempts, one for each answer received: the candidates at
    [currentIndex + offset + 1], [currentIndex + offset + 2], ... *)
Fixpoint probes (pattern : string) (currentIndex : Z) (padding : nat)
    (extension : string) (offset : nat) (answers : list (Outcome bool))
  : list Renamer.Event :=
  match answers with
  | [] => []
  | answer :: rest =>
      Renamer.EvFileExists
        (Renamer.generateNewName pattern (currentIndex + Z.of_nat offset + 1)
           padding extension) answer
      :: probes pattern currentIndex padding extension (S offset) rest
  end.

(** The probe recorded by an event found a collision. *)
Definition probeCollides (files : list FileRecord) (ev : Renamer.Event) : bool :=
  match ev with
  | Renamer.EvFileExists fileName answer => colliding files fileName answer
  | _ => false
  end.

(** What one iteration of the planning loop may come to, for [file] at
    position [i] with the loop variables [l]: a failed plan whose message
    names the file (no name was free within 1000 probes, or the name
    found is already used in this plan), or the loop variables after one
    more entry. *)
Definition planFileOutcome (pattern : string) (padding : nat) (resolve : bool)
    (i : nat) (file : FileRecord) (l : Renamer.Loop)
    (r : Renamer.PreviewResult + Renamer.Loop) : Prop :=
  match r with
  | inl failed =>
      (resolve = true
       /\ failed = Renamer.failure
                     (Renamer.unresolvedMessage (name file)
                        "Could not resolve collision after 1000 attempts")
                     (Renamer.l_previewData l))
      \/ (exists newName : string,
            newName ∈ Renamer.l_usedNames l
            /\ failed = Renamer.failure
                          (Renamer.duplicateMessage newName (name file))
                          (Renamer.l_previewData l))
  | inr l' =>
      exists (actualIndex : Z) (resolved : bool),
        let newName :=
          Renamer.generateNewName pattern actualIndex padding (extension file) in
        (if resolved then Renamer.l_currentIndex l < actualIndex
         else actualIndex = Renamer.l_currentIndex l)
        /\ (newName ∉ Renamer.l_usedNames l)
        /\ Renamer.l_previewData l'
           = (Renamer.l_previewData l ++
                [Renamer.mkEntry (name file) newName (Z.of_nat i + 1) actualIndex
                   file resolved (size file)
                   (opt_or (creationTime file) (lastModified file))
                   (extension file)])
        /\ Renamer.l_usedNames l' = ({[newName]} ∪ Renamer.l_usedNames l)
        /\ Renamer.l_currentIndex l' = actualIndex + 1
        /\ (if resolved then
              exists attempts : nat,
                Renamer.l_collisionResolutions l'
                = (Renamer.l_collisionResolutions l ++
                     [Renamer.mkResolution file (name file)
                        (Renamer.l_currentIndex l) newName actualIndex attempts])
            else Renamer.l_collisionResolutions l'
                 = Renamer.l_collisionResolutions l)
  end.

(** The value of the running [currentIndex] when the file at position
    [k] is reached, read off the entries planned before it: [startIndex]
    for the first file (renamer.js:202), and afterwards the index used
    for the previous file plus one (renamer.js:270). The first candidate
    name of the file at position [k] is computed at this index. *)
Definition firstCandidateIndex (start : Z) (entries : list Renamer.PreviewEntry)
    (k : nat) : Z :=
  match last (take k entries) with
  | Some previous => Renamer.pe_actualIndex previous + 1
  | None => start
  end.

(** The invariant of the planning loop once the files [planned] have
    been visited. *)
Record PlanInvariant (pattern : string) (padding : nat) (start : Z)
    (planned : list FileRecord) (l : Renamer.Loop) : Prop := mkInvariant {
  inv_files : map Renamer.pe_file (Renamer.l_previewData l) = planned;
  inv_entries :
    forall (k : nat) (e : Renamer.PreviewEntry),
      Renamer.l_previewData l !! k = Some e ->
      Renamer.pe_originalIndex e = Z.of_nat k + 1
      /\ Renamer.pe_originalName e = name (Renamer.pe_file e)
      /\ Renamer.pe_newName e
         = Renamer.generateNewName pattern (Renamer.pe_actualIndex e) padding
             (extension (Renamer.pe_file e))
      /\ (if Renamer.pe_collisionResolved e
          then firstCandidateIndex start (Renamer.l_previewData l) k
               < Renamer.pe_actualIndex e
          else Renamer.pe_actualIndex e
               = firstCandidateIndex start (Renamer.l_previewData l) k);
  inv_used :
    forall n : string,
      n ∈ Renamer.l_usedNames l
      <-> n ∈ map Renamer.pe_newName (Renamer.l_previewData l);
  inv_nodup : NoDup (map Renamer.pe_newName (Renamer.l_previewData l));
  inv_current :
    Renamer.l_currentIndex l
    = firstCandidateIndex start (Renamer.l_previewData l)
        (length (Renamer.l_previewData l));
  inv_increasing :
    StronglySorted Z.lt (map Renamer.pe_actualIndex (Renamer.l_previewData l));
  inv_below :
    Forall (fun e => start <= Renamer.pe_actualIndex e < Renamer.l_currentIndex l)
      (Renamer.l_previewData l)
}.

(** ** Notions used to state the properties of the executor *)

(** What happened when an entry was attempted: the progress callback
    threw, or the rename primitive was called and answered. *)
Inductive Attempt :=
  | NotifyThrew (message : string)
  | RenameAnswered (answer : Outcome bool).

(** The calls made to the host for the entry at position [i]. *)
Definition attemptEvents (withCallback : bool) (total i : nat)
    (item : Renamer.PreviewEntry) (a : Attempt) : list Renamer.Event :=
  match a with
  | NotifyThrew message =>
      [Renamer.EvProgress (Z.of_nat i + 1) (Z.of_nat total)
         (Renamer.pe_originalName item) (Renamer.pe_newName item) (Thrown message)]
  | RenameAnswered answer =>
      (if withCallback then
         [Renamer.EvProgress (Z.of_nat i + 1) (Z.of_nat total)
            (Renamer.pe_originalName item) (Renamer.pe_newName item) (Returned tt)]
       else [])
      ++ [Renamer.EvRenameFile (handle (Renamer.pe_file item))
            (Renamer.pe_newName item) answer]
  end.

Fixpoint attemptsEvents (withCallback : bool) (total i : nat)
    (items : list Renamer.PreviewEntry) (attempts : list Attempt)
  : list Renamer.Event :=
  match items, attempts with
  | item :: items', a :: attempts' =>
      attemptEvents withCallback total i item a
      ++ attemptsEvents withCallback total (S i) items' attempts'
  | _, _ => []
  end.

(** The message caught for an attempt, [None] when the rename succeeded. *)
Definition attemptError (a : Attempt) : option string :=
  match a with
  | NotifyThrew message => Some message
  | RenameAnswered (Returned true) => None
  | RenameAnswered (Returned false) => Some "Rename operation returned false"
  | RenameAnswered (Thrown message) => Some message
  end.

Definition renamedOf (item : Renamer.PreviewEntry) : Renamer.RenamedItem :=
  Renamer.mkRenamed (Renamer.pe_originalName item) (Renamer.pe_newName item)
    (Renamer.pe_file item).

Definition failedOf (item : Renamer.PreviewEntry) (message : string)
  : Renamer.FailedItem :=
  Renamer.mkFailed (Renamer.pe_originalName item) (Renamer.pe_newName item)
    (Renamer.pe_file item) message.

(** The entries whose attempt succeeded, and those whose attempt failed
    with the message caught, both in the order of the plan. *)
Fixpoint successes (items : list Renamer.PreviewEntry) (attempts : list Attempt)
  : list Renamer.RenamedItem :=
  match items, attempts with
  | item :: items', a :: attempts' =>
      match attemptError a with
      | None => renamedOf item :: successes items' attempts'
      | Some _ => successes items' attempts'
      end
  | _, _ => []
  end.

Fixpoint failures (items : list Renamer.PreviewEntry) (attempts : list Attempt)
  : list Renamer.FailedItem :=
  match items, attempts with
  | item :: items', a :: attempts' =>
      match attemptError a with
      | None => failures items' attempts'
      | Some message => failedOf item message :: failures items' attempts'
      end
  | _, _ => []
  end.

(** A log entry without its timestamp. *)
Definition logged (e : Renamer.LogEntry)
  : string * string * string * string * option string :=
  (Renamer.log_operation e, Renamer.log_originalName e, Renamer.log_newName e,
   Renamer.log_status e, Renamer.log_error e).

Definition expectedLog (item : Renamer.PreviewEntry) (a : Attempt)
  : string * string * string * string * option string :=
  ("rename", Renamer.pe_originalName item, Renamer.pe_newName item,
   match attemptError a with None => "success" | Some _ => "failed" end,
   attemptError a).

(** ** Further notions for the planner *)

(** The event records a call to [fileExists]. *)
Definition isExistenceProbe (ev : Renamer.Event) : bool :=
  match ev with
  | Renamer.EvFileExists _ _ => true
  | _ => false
  end.

(** The records that [generatePreview] pushes to [collisionResolutions]
    for the given entries when the loop reaches the first of them with
    the running index [current] (renamer.js:228-235, 270): one record for
    each entry whose collision was resolved, none for the others. *)
Fixpoint expectedResolutions (current : Z) (entries : list Renamer.PreviewEntry)
  : list Renamer.CollisionResolution :=
  match entries with
  | [] => []
  | e :: rest =>
      (if Renamer.pe_collisionResolved e then
         [Renamer.mkResolution (Renamer.pe_file e) (Renamer.pe_originalName e)
            current (Renamer.pe_newName e) (Renamer.pe_actualIndex e)
            (Z.to_nat (Renamer.pe_actualIndex e - current))]
       else [])
      ++ expectedResolutions (Renamer.pe_actualIndex e + 1) rest
  end.


(** A collision resolution that probing can produce: the resolved index
    is the original one plus the number of attempts, and the attempts
    are between 1 and 1000. *)
Definition withinProbeBound (c : Renamer.CollisionResolution) : Prop :=
  Renamer.cr_resolvedIndex c
  = Renamer.cr_originalIndex c + Z.of_nat (Renamer.cr_attempts c)
  /\ (1 <= Renamer.cr_attempts c <= 1000)%nat.


(** ** Further notions for the executor *)

(** The progress notifications recorded in a trace, in order. *)
Definition notifications (tr : list Renamer.Event)
  : list (Z * Z * string * string) :=
  omap (fun ev => match ev with
                  | Renamer.EvProgress current total originalName newName _ =>
                      Some (current, total, originalName, newName)
                  | _ => None
                  end) tr.

(** The calls to [renameFile] recorded in a trace, in order. *)
Definition renameCalls (tr : list Renamer.Event) : list (Handle * string) :=
  omap (fun ev => match ev with
                  | Renamer.EvRenameFile fileHandle newName _ =>
                      Some (fileHandle, newName)
                  | _ => None
                  end) tr.


(** ** FileSystemManager (js/sorter.js, second class) *)

Module FileSystemManager.
Import JsString.

(** What a rejected promise of the File System Access API carries:
    [error.name] and [error.message]. *)
Record DomError := mkError {
  errorName : string;
  errorMessage : string
}.

(** What the [File] of [getFile()] offers for the creation time: no
    [getFileCreationTime] method, a method that returns a time, or a
    method that throws. *)
Inductive Creation :=
  | CreationAbsent
  | CreationReturns (t : Z)
  | CreationThrows.

Record FileInfo := mkInfo {
  info_size : Z;
  info_lastModified : Z;
  info_type : string;
  info_creation : Creation
}.

Inductive Kind := KindFile | KindDirectory.

(** A pair [[name, handle]] of [dirHandle.entries()]. *)
Record Entry := mkDirEntry {
  entry_name : string;
  entry_kind : Kind;
  entry_handle : Handle
}.

Section WithWorld.
Context {World : Type}.

(** The browser: the iteration of a directory (the entries it yields,
    and the error that ends it if any), [fileHandle.getFile()],
    [directoryHandle.getFileHandle(name)] and [fileHandle.move(name)].
    [None] stands for a promise that resolves. *)
Record Browser := mkBrowser {
  entries : Handle -> World -> (list Entry * option DomError) * World;
  getFile : Handle -> World -> (DomError + FileInfo) * World;
  getFileHandle : Handle -> string -> World -> option DomError * World;
  move : Handle -> string -> World -> option DomError * World
}.

(** The fields [directoryHandle] and [files] of the manager. *)
Record Manager := mkManager {
  directoryHandle : option Handle;
  files : list FileRecord
}.

Context (browser : Browser).

(** [getFileMetadata(fileHandle, fileName)] (sorter.js:433-468). *)
Definition getFileMetadata (fileHandle : Handle) (fileName : string) (w : World)
  : Outcome FileRecord * World :=
  match getFile browser fileHandle w with
  | (inl error, w') =>
      (Thrown ("Failed to get metadata for " +:+ fileName +:+ ": "
                 +:+ errorMessage error), w')
  | (inr file, w') =>
      let extension := Renamer.extensionOf fileName in
      let size := info_size file in
      let lastModified := info_lastModified file in
      let creationTime :=
        match info_creation file with
        | CreationReturns t => t
        | CreationAbsent | CreationThrows => lastModified
        end in
      (Returned (mkFile fileHandle fileName (Some size) (Some lastModified)
                   (Some creationTime) extension (info_type file)), w')
  end.

(** The body of the [for await] loop of [getFilesFromDirectory], over
    the entries yielded: the files pushed so far, and the message of the
    error thrown if any. *)
Fixpoint readEntries (yielded : list Entry) (pushed : list FileRecord) (w : World)
  : option string * list FileRecord * World :=
  match yielded with
  | [] => (None, pushed, w)
  | entry :: yielded' =>
      match entry_kind entry with
      | KindDirectory => readEntries yielded' pushed w
      | KindFile =>
          match getFileMetadata (entry_handle entry) (entry_name entry) w with
          | (Returned fileData, w') =>
              readEntries yielded' (pushed ++ [fileData]) w'
          | (Thrown message, w') => (Some message, pushed, w')
          end
      end
  end.

(** [getFilesFromDirectory(directoryHandle)] (sorter.js:404-425). *)
Definition getFilesFromDirectory (argument : option Handle) (m : Manager) (w : World)
  : Outcome (list FileRecord) * Manager * World :=
  let dirHandle :=
    match argument with
    | Some d => Some d
    | None => directoryHandle m
    end in
  match dirHandle with
  | None => (Thrown "No directory selected", m, w)
  | Some d =>
      let '(yielded, ended, w0) := entries browser d w in
      let '(thrown, pushed, w1) := readEntries yielded [] w0 in
      let m' := mkManager (directoryHandle m) pushed in
      match thrown, ended with
      | Some message, _ => (Thrown ("Failed to read directory: " +:+ message), m', w1)
      | None, Some error =>
          (Thrown ("Failed to read directory: " +:+ errorMessage error), m', w1)
      | None, None => (Returned pushed, m', w1)
      end
  end.

(** The character class of [invalidChars] in [renameFile]
    (sorter.js:484): the nine punctuation characters, and no control
    character. *)
Definition isForbiddenChar (c : ascii) : bool :=
  anyChar (Ascii.eqb c) ("<>:/\|?*" +:+ quote).

(** The checks of [renameFile] before the call to [move]: the message of
    the [Error] thrown, if any. *)
Definition checkNewName (newName : string) : option string :=
  if isEmpty newName || isEmpty (trim newName) then
    Some "File name cannot be empty"
  else if anyChar isForbiddenChar newName then
    Some "File name contains invalid characters"
  else if Nat.ltb 255 (String.length newName) then
    Some "File name is too long (max 255 characters)"
  else None.

(** The [catch] of [renameFile]: the message of the [Error] thrown
    again. *)
Definition renameError (error : DomError) : string :=
  if String.eqb (errorName error) "NotAllowedError" then
    "Permission denied to rename file: " +:+ errorMessage error
  else if String.eqb (errorName error) "NotFoundError" then
    "File not found or was deleted during operation"
  else if String.eqb (errorName error) "NoModificationAllowedError" then
    "File is locked or cannot be modified"
  else "Failed to rename file: " +:+ errorMessage error.

(** [renameFile(fileHandle, newName)] (sorter.js:476-509). An [Error]
    thrown by the checks has the name [Error]. *)
Definition renameFile (fileHandle : Handle) (newName : string) (w : World)
  : Outcome bool * World :=
  let '(thrown, w') :=
    match checkNewName newName with
    | Some message => (Some (mkError "Error" message), w)
    | None => move browser fileHandle newName w
    end in
  match thrown with
  | None => (Returned true, w')
  | Some error => (Thrown (renameError error), w')
  end.

(** [fileExists(fileName)] (sorter.js:540-555). *)
Definition fileExists (fileName : string) (m : Manager) (w : World)
  : Outcome bool * World :=
  match directoryHandle m with
  | None => (Returned false, w)
  | Some d =>
      match getFileHandle browser d fileName w with
      | (None, w') => (Returned true, w')
      | (Some error, w') =>
          if String.eqb (errorName error) "NotFoundError"
          then (Returned false, w')
          else (Returned true, w')
      end
  end.

(** [clear()] (sorter.js:530-533). *)
Definition clear (m : Manager) : Manager := mkManager None [].

(** The manager as the collaborator of a [FileRenamer]: the world of
    the renamer is the manager together with the world of the browser.
    [now] is [Date.now]. *)
Definition asHost (now : World -> Z * World) : Renamer.Host (Manager * World) :=
  Renamer.mkHost
    (fun fileName mw =>
       let '(answer, w') := fileExists fileName mw.1 mw.2 in (answer, (mw.1, w')))
    (fun fileHandle newName mw =>
       let '(answer, w') := renameFile fileHandle newName mw.2 in (answer, (mw.1, w')))
    (fun mw => let '(t, w') := now mw.2 in (t, (mw.1, w'))).

End WithWorld.

Arguments Browser : clear implicits.

End FileSystemManager.


(** ** The trace and the host *)

(** An event of the trace is justified when its answer is one that the
    host, or the progress callback, gives to that call in some world
    that satisfies [Inv]. *)
Definition justified {World : Type} (host : Renamer.Host World)
    (progressCallback : option (Renamer.Callback World))
    (Inv : World -> Prop) (ev : Renamer.Event) : Prop :=
  match ev with
  | Renamer.EvFileExists fileName answer =>
      exists w, Inv w /\ (Renamer.fileExists host fileName w).1 = answer
  | Renamer.EvRenameFile fileHandle newName answer =>
      exists w, Inv w /\ (Renamer.renameFile host fileHandle newName w).1 = answer
  | Renamer.EvProgress current total originalName newName answer =>
      exists callback w,
        progressCallback = Some callback
        /\ Inv w
        /\ (callback current total originalName newName w).1 = answer
  end.

(** [st'] is [st] with more justified events in its trace, and its
    world satisfies [Inv] if that of [st] does. *)
Definition extends {World : Type} (host : Renamer.Host World)
    (progressCallback : option (Renamer.Callback World))
    (Inv : World -> Prop) (st st' : Renamer.State World) : Prop :=
  Inv (Renamer.world st) ->
  Inv (Renamer.world st')
  /\ exists tr : list Renamer.Event,
       Renamer.trace st' = Renamer.trace st ++ tr
       /\ Forall (justified host progressCallback Inv) tr.

(** The host and the callback keep [Inv]. *)
Record Keeps {World : Type} (host : Renamer.Host World)
    (progressCallback : option (Renamer.Callback World))
    (Inv : World -> Prop) : Prop := mkKeeps {
  keeps_fileExists :
    forall fileName w, Inv w -> Inv (Renamer.fileExists host fileName w).2;
  keeps_renameFile :
    forall fileHandle newName w,
      Inv w -> Inv (Renamer.renameFile host fileHandle newName w).2;
  keeps_dateNow : forall w, Inv w -> Inv (Renamer.dateNow host w).2;
  keeps_callback :
    forall callback, progressCallback = Some callback ->
    forall current total originalName newName w,
      Inv w -> Inv (callback current total originalName newName w).2
}.


(** ** Notions and examples for the file system manager *)

(** The entry is a file, not a directory ([handle.kind === 'file']). *)
Definition isFileEntry (entry : FileSystemManager.Entry) : bool :=
  match FileSystemManager.entry_kind entry with
  | FileSystemManager.KindFile => true
  | FileSystemManager.KindDirectory => false
  end.

(** The messages of the errors that [renameFile] throws
    (sorter.js:498-507). *)
Definition isRenameMessage (message : string) : Prop :=
  (exists detail, message = "Permission denied to rename file: " +:+ detail)
  \/ message = "File not found or was deleted during operation"
  \/ message = "File is locked or cannot be modified"
  \/ (exists detail, message = "Failed to rename file: " +:+ detail).

Module ManagerExamples.
Import FileSystemManager.

(** A browser over a disk with one directory, whose handle is 0: the
    entries of the directory, and whether the disk refuses changes. The
    file of handle [h] has size [100 * h] and the time [1000 + h]; no
    creation time is offered. *)
Record Disk := mkDisk {
  contents : list Entry;
  readOnly : bool
}.

Definition diskBrowser : Browser Disk :=
  mkBrowser
    (fun _ w => (contents w, None, w))
    (fun fileHandle w =>
       if bool_decide (fileHandle ∈ map entry_handle (filter isFileEntry (contents w)))
       then (inr (mkInfo (100 * Z.of_nat fileHandle) (1000 + Z.of_nat fileHandle)
                    "" CreationAbsent), w)
       else (inl (mkError "NotFoundError" "no such file"), w))
    (fun _ fileName w =>
       if bool_decide (fileName ∈ map entry_name (filter isFileEntry (contents w)))
       then (None, w)
       else (Some (mkError "NotFoundError" "no such file"), w))
    (fun fileHandle newName w =>
       if readOnly w then
         (Some (mkError "NoModificationAllowedError" "read-only disk"), w)
       else
         (None,
          mkDisk (map (fun entry =>
                         if Nat.eqb (entry_handle entry) fileHandle
                         then mkDirEntry newName (entry_kind entry) fileHandle
                         else entry) (contents w))
            (readOnly w))).

Definition photos : Disk :=
  mkDisk [ mkDirEntry "b.png" KindFile 2%nat;
           mkDirEntry "raw" KindDirectory 7%nat;
           mkDirEntry "a.jpg" KindFile 1%nat;
           mkDirEntry ".hidden" KindFile 4%nat ] false.

Definition lockedPhotos : Disk := mkDisk (contents photos) true.

Definition unselected : Manager := mkManager None [].

End ManagerExamples.




Module PlanExamples.
Import ManagerExamples.

(** [Date.now] on a disk: the clock is not part of the model of the
    disk, so every reading is 0. *)
Definition noClock : Disk -> Z * Disk := fun w => (0, w).


Definition onPhotos (m : FileSystemManager.Manager)
  : Renamer.State (FileSystemManager.Manager * Disk) :=
  Renamer.mkState (m, photos) [] [] [].

End PlanExamples.

(** ** Notions used to state the properties of names *)

(** The character is not white space. *)
Definition isVisible (c : ascii) : bool := negb (JsString.isWhiteSpace c).

(** A decimal digit or the minus sign: the characters of [String(n)]
    for an integer [n]. *)
Definition isDigitOrMinus (c : ascii) : bool :=
  JsString.anyChar (Ascii.eqb c) "0123456789-".

(** ** UIManager: the validation of the pattern field (js/ui.js) *)

Module UIManager.
Import JsString.

(** [validatePatternSilentObject(pattern)] (ui.js:310-331). The
    placeholders are counted and the characters are tested on the
    pattern as typed, not on its trimmed form. *)
Definition validatePatternSilentObject (pattern : string)
  : Renamer.ValidationResult :=
  if isEmpty pattern || isEmpty (trim pattern) then
    Renamer.mkValidation false ["Pattern cannot be empty"]
  else
    let numberPlaceholders := countMatches Renamer.placeholder pattern in
    let placeholderErrors :=
      if negb (Nat.eqb numberPlaceholders 1) then
        ["Pattern must contain exactly one {number} placeholder"]
      else [] in
    let charErrors :=
      if anyChar Renamer.isInvalidChar pattern then
        ["Pattern contains invalid characters"]
      else [] in
    let errors := placeholderErrors ++ charErrors in
    Renamer.mkValidation (Nat.eqb (length errors) 0) errors.

End UIManager.

(** ** FileSorter: statistics (js/sorter.js) *)

Module FileStatistics.

(** [getSizeCategory(bytes)] (sorter.js:252-258). *)
Definition getSizeCategory (bytes : Z) : string :=
  if bytes <? 1024 then "Bytes"
  else if bytes <? 1024 * 1024 then "KB"
  else if bytes <? 1024 * 1024 * 1024 then "MB"
  else if bytes <? 1024 * 1024 * 1024 * 1024 then "GB"
  else "TB".

(** The object that [getFileStats] returns, without [averageSize] and
    the two formatted sizes, which are floating point numbers and their
    renderings. [sizeBreakdown] is an object used as a map from the
    category to a count. *)
Record Stats := mkStats {
  totalFiles : nat;
  totalSize : Z;
  largestFile : option FileRecord;
  smallestFile : option FileRecord;
  oldestFile : option FileRecord;
  newestFile : option FileRecord;
  sizeBreakdown : gmap string nat
}.

(** The variables that the [forEach] of [getFileStats] updates. *)
Record Running := mkRunning {
  r_totalSize : Z;
  r_largestFile : FileRecord;
  r_smallestFile : FileRecord;
  r_oldestFile : FileRecord;
  r_newestFile : FileRecord;
  r_sizeBreakdown : gmap string nat
}.

(** [file.size || 0] and [file.creationTime || file.lastModified || 0]. *)
Definition sizeOf (file : FileRecord) : Z := num_or (size file) 0.

Definition timeOf (file : FileRecord) : Z :=
  num_or (creationTime file) (num_or (lastModified file) 0).

(** The body of the [forEach] (sorter.js:203-229). *)
Definition visit (acc : Running) (file : FileRecord) : Running :=
  let size := sizeOf file in
  let totalSize := r_totalSize acc + size in
  let largestFile :=
    if sizeOf (r_largestFile acc) <? size then file else r_largestFile acc in
  let smallestFile :=
    if size <? sizeOf (r_smallestFile acc) then file else r_smallestFile acc in
  let fileTime := timeOf file in
  let oldestTime := timeOf (r_oldestFile acc) in
  let newestTime := timeOf (r_newestFile acc) in
  let oldestFile :=
    if (fileTime <? oldestTime) || (oldestTime =? 0) then file
    else r_oldestFile acc in
  let newestFile :=
    if newestTime <? fileTime then file else r_newestFile acc in
  let sizeCategory := getSizeCategory size in
  mkRunning totalSize largestFile smallestFile oldestFile newestFile
    (alter S sizeCategory (r_sizeBreakdown acc)).

(** [getFileStats(files)] for an array (sorter.js:174-245). *)
Definition getFileStats (files : list FileRecord) : Stats :=
  match files with
  | [] => mkStats 0 0 None None None None ∅
  | first :: _ =>
      let sizeBreakdown : gmap string nat :=
        <["Bytes" := 0%nat]> (<["KB" := 0%nat]> (<["MB" := 0%nat]>
          (<["GB" := 0%nat]> (<["TB" := 0%nat]> ∅)))) in
      let acc :=
        fold_left visit files (mkRunning 0 first first first first sizeBreakdown) in
      mkStats (length files) (r_totalSize acc) (Some (r_largestFile acc))
        (Some (r_smallestFile acc)) (Some (r_oldestFile acc))
        (Some (r_newestFile acc)) (r_sizeBreakdown acc)
  end.

End FileStatistics.

(** ** Notions used to state the properties of the statistics *)

(** [best] is the first file of [files] with the greatest [key]. *)
Definition FirstGreatest (key : FileRecord -> Z) (files : list FileRecord)
    (best : FileRecord) : Prop :=
  exists k : nat,
    files !! k = Some best
    /\ (forall j g, (j < k)%nat -> files !! j = Some g -> key g < key best)
    /\ (forall g, g ∈ files -> key g <= key best).

(** The number of files in a size category. *)
Definition inCategory (category : string) (files : list FileRecord) : nat :=
  length (List.filter
            (fun f => String.eqb
                        (FileStatistics.getSizeCategory (FileStatistics.sizeOf f))
                        category) files).

Definition sizeCategories : list string := ["Bytes"; "KB"; "MB"; "GB"; "TB"].

(** ** FileSystemManager: the choice of the folder (js/sorter.js) *)

Module FolderPicker.
Import FileSystemManager.

Section WithWorld.
Context {World : Type}.

(** [new FileSystemManager()] (sorter.js:360-364). *)
Definition constructor : Manager := mkManager None [].

(** [selectFolder()] (sorter.js:377-397). [isSupported] is the field
    set by the constructor, and [showDirectoryPicker] the dialog of the
    browser: the handle chosen, or the error of its rejection. *)
Definition selectFolder (isSupported : bool)
    (showDirectoryPicker : World -> (DomError + Handle) * World)
    (m : Manager) (w : World) : Outcome (option Handle) * Manager * World :=
  if negb isSupported then
    (Thrown "File System Access API is not supported in this browser", m, w)
  else
    match showDirectoryPicker w with
    | (inr chosen, w') =>
        (Returned (Some chosen), mkManager (Some chosen) (files m), w')
    | (inl error, w') =>
        if String.eqb (errorName error) "AbortError" then (Returned None, m, w')
        else if String.eqb (errorName error) "NotAllowedError" then
          (Thrown "Permission denied. Please allow access to the folder.", m, w')
        else if String.eqb (errorName error) "NotFoundError" then
          (Thrown "Folder not found or was deleted.", m, w')
        else
          (Thrown ("Failed to select folder: " +:+ errorMessage error), m, w')
    end.

End WithWorld.
End FolderPicker.

(** ** FileSorter: groups and filters (js/sorter.js) *)

Module FileQueries.
Import JsString.

(** [file.extension || '(no extension)']. *)
Definition groupKey (file : FileRecord) : string :=
  if isEmpty (extension file) then "(no extension)" else extension file.

(** The [forEach] of [groupByExtension] (sorter.js:321-327). [groups]
    holds the own properties of the object; a key that the object
    inherits from [Object.prototype] reads as a value that is truthy and
    has no [push], so that the call throws a [TypeError] (the message is
    that of V8). *)
Fixpoint groupLoop (files : list FileRecord) (groups : gmap string (list FileRecord))
  : Outcome (gmap string (list FileRecord)) :=
  match files with
  | [] => Returned groups
  | file :: rest =>
      let ext := groupKey file in
      match groups !! ext with
      | Some members => groupLoop rest (<[ext := members ++ [file]]> groups)
      | None =>
          if bool_decide (ext ∈ Sorter.objectPrototypeMembers) then
            Thrown "groups[ext].push is not a function"
          else groupLoop rest (<[ext := [file]]> groups)
      end
  end.

(** [groupByExtension(files)] (sorter.js:318-330). *)
Definition groupByExtension (files : list FileRecord)
  : Outcome (gmap string (list FileRecord)) :=
  groupLoop files ∅.

(** [c.toLowerCase()] for a code unit below 256: the letters A to Z
    and the letters from 192 to 222 other than the multiplication sign
    215. *)
Definition toLowerAscii (c : ascii) : ascii :=
  let n := Ascii.nat_of_ascii c in
  if (Nat.leb 65 n && Nat.leb n 90)
     || (Nat.leb 192 n && Nat.leb n 222 && negb (Nat.eqb n 215))
  then Ascii.ascii_of_nat (n + 32) else c.

Fixpoint toLowerCase (s : string) : string :=
  match s with
  | EmptyString => EmptyString
  | String c s' => String (toLowerAscii c) (toLowerCase s')
  end.

(** The argument [extensions] of [filterByExtension]: a value that is
    not given or is null, a string, or an array of strings. *)
Inductive Extensions :=
  | NoExtensions
  | OneExtension (ext : string)
  | ManyExtensions (exts : list string).

(** The function mapped over the list (sorter.js:303-305). *)
Definition normalizeExtension (ext : string) : string :=
  if startsWith ext "." then toLowerCase ext else "." +:+ toLowerCase ext.

Definition hasExtensionIn (normalizedExtensions : list string) (file : FileRecord)
  : bool :=
  bool_decide (toLowerCase (extension file) ∈ normalizedExtensions).

(** [filterByExtension(files, extensions)] (sorter.js:299-311). The
    empty string is falsy, as a missing argument is. *)
Definition filterByExtension (files : list FileRecord) (extensions : Extensions)
  : list FileRecord :=
  match extensions with
  | NoExtensions | OneExtension EmptyString => files
  | OneExtension ext =>
      List.filter (hasExtensionIn (map normalizeExtension [ext])) files
  | ManyExtensions exts =>
      List.filter (hasExtensionIn (map normalizeExtension exts)) files
  end.

(** [s.includes(t)]. *)
Fixpoint includes (s t : string) : bool :=
  startsWith s t
  || match s with
     | EmptyString => false
     | String _ s' => includes s' t
     end.

(** [searchByName(files, searchTerm)] (sorter.js:338-348); [None] is a
    term that is not given. *)
Definition searchByName (files : list FileRecord) (searchTerm : option string)
  : list FileRecord :=
  match searchTerm with
  | None => files
  | Some given =>
      if isEmpty given || isEmpty (trim given) then files
      else
        let term := trim (toLowerCase given) in
        List.filter (fun file => includes (toLowerCase (name file)) term) files
  end.

(** [filterBySize(files, minSize, maxSize)] (sorter.js:267-272);
    [None] is a bound that is not given: 0 for the least size, and
    [Infinity] for the greatest. *)
Definition filterBySize (files : list FileRecord) (minSize maxSize : option Z)
  : list FileRecord :=
  List.filter
    (fun file =>
       let size := num_or (size file) 0 in
       (default 0 minSize <=? size)
       && match maxSize with
          | Some greatest => size <=? greatest
          | None => true
          end) files.

End FileQueries.

(** ** Notions used to state the properties of the groups *)

(** The files of a group, in the order of the array, and the value of
    the property of that name: [None] when no file has the key. *)
Definition membersOf (key : string) (files : list FileRecord) : list FileRecord :=
  List.filter (fun f => String.eqb (FileQueries.groupKey f) key) files.

Definition groupOf (key : string) (files : list FileRecord)
  : option (list FileRecord) :=
  match membersOf key files with
  | [] => None
  | members => Some members
  end.

(** The key of the file is not the name of a member of
    [Object.prototype]. *)
Definition plainKey (file : FileRecord) : Prop :=
  FileQueries.groupKey file ∉ Sorter.objectPrototypeMembers.

Module PickerExamples.
Import FileSystemManager ManagerExamples.

(** A dialog that the user cancels. *)
Definition cancelled : Disk -> (DomError + Handle) * Disk :=
  fun w => (inl (mkError "AbortError" "The user aborted a request."), w).

(** A manager that has read the photos of directory 0. *)
Definition loaded : Manager := mkManager (Some 0%nat) [Examples.a_jpg; Examples.b_png].

End PickerExamples.

(** * Properties *)

(** ** The sorter *)

Lemma StronglySorted_weaken {A : Type} (R R' : A -> A -> Prop) (l : list A) :
  (forall x y, R x y -> R' x y) -> StronglySorted R l -> StronglySorted R' l.
Proof.
  intros HR Hs. induction Hs as [|x l _ IH Hall]; constructor; auto.
  eapply Forall_impl; [exact Hall|]. auto.
Qed.

Section SortFacts.
Import Sorter.
Context {A : Type} (comparefn : A -> A -> Outcome Z) (w : A -> Z).
Hypothesis comparefn_by_value :
  forall x y, comparefn x y = Returned (w x - w y).

Lemma sort_insert_returns x l :
  exists r, sort_insert comparefn x l = Returned r
    /\ r ≡ₚ x :: l
    /\ (forall k, filter (fun y => w y = k) r = filter (fun y => w y = k) (x :: l))
    /\ (StronglySorted (fun a b => w a <= w b) l ->
        StronglySorted (fun a b => w a <= w b) r).
Proof.
  induction l as [|y l IH]; simpl.
  - exists [x]. repeat split; auto.
    intros _. repeat constructor.
  - rewrite comparefn_by_value.
    destruct (Z.leb_spec (w x - w y) 0) as [Hle|Hgt].
    + exists (x :: y :: l). repeat split; auto.
      intros Hs. constructor; [exact Hs|].
      constructor; [lia|].
      apply StronglySorted_inv in Hs as [_ Hall].
      eapply Forall_impl; [exact Hall|]. simpl. intros; lia.
    + destruct IH as (r & -> & Hperm & Hstable & Hsorted).
      exists (y :: r). split; [reflexivity|]. split; [|split].
      * rewrite Hperm. apply Permutation_swap.
      * intros k. rewrite (filter_cons _ y r), Hstable.
        rewrite !filter_cons.
        destruct (decide (w y = k)), (decide (w x = k)); try reflexivity; lia.
      * intros Hs. apply StronglySorted_inv in Hs as [Hs Hall].
        constructor; [auto|].
        rewrite Hperm. constructor; [lia|exact Hall].
Qed.

Lemma array_sort_returns l :
  exists r, array_sort comparefn l = Returned r
    /\ r ≡ₚ l
    /\ (forall k, filter (fun y => w y = k) r = filter (fun y => w y = k) l)
    /\ StronglySorted (fun a b => w a <= w b) r.
Proof.
  induction l as [|x l IH]; simpl.
  - exists []. repeat split; auto. constructor.
  - destruct IH as (r & -> & Hperm & Hstable & Hsorted).
    destruct (sort_insert_returns x r) as (r' & Hr' & Hperm' & Hstable' & Hsorted').
    exists r'. split; [exact Hr'|]. split; [|split].
    + rewrite Hperm'. by constructor.
    + intros k. rewrite Hstable', !filter_cons, Hstable. reflexivity.
    + auto.
Qed.
End SortFacts.

(** A sorted list in which the elements of each value keep a given
    order is unique: whatever stable algorithm the engine runs, the
    result of sorting with a comparator by value is the one of
    [array_sort]. *)
Lemma stable_sorted_unique {A : Type} (w : A -> Z) (l1 l2 : list A) :
  StronglySorted (fun a b => w a <= w b) l1 ->
  StronglySorted (fun a b => w a <= w b) l2 ->
  (forall k, filter (fun y => w y = k) l1 = filter (fun y => w y = k) l2) ->
  l1 = l2.
Proof.
  revert l2. induction l1 as [|x l1 IH]; intros [|y l2] Hs1 Hs2 Hf.
  - reflexivity.
  - specialize (Hf (w y)). rewrite filter_cons_True in Hf by reflexivity.
    discriminate.
  - specialize (Hf (w x)). rewrite filter_cons_True in Hf by reflexivity.
    discriminate.
  - apply StronglySorted_inv in Hs1 as [Hs1 Hall1].
    apply StronglySorted_inv in Hs2 as [Hs2 Hall2].
    rewrite Forall_forall in Hall1, Hall2.
    assert (w y <= w x) as Hyx.
    { assert (x ∈ filter (fun z => w z = w x) (y :: l2)) as Hin
        by (rewrite <- Hf, filter_cons_True by reflexivity; constructor).
      apply list_elem_of_filter in Hin as [_ Hin].
      apply elem_of_cons in Hin as [->|Hin]; [lia|exact (Hall2 _ Hin)]. }
    assert (w x <= w y) as Hxy.
    { assert (y ∈ filter (fun z => w z = w y) (x :: l1)) as Hin
        by (rewrite Hf, filter_cons_True by reflexivity; constructor).
      apply list_elem_of_filter in Hin as [_ Hin].
      apply elem_of_cons in Hin as [->|Hin]; [lia|exact (Hall1 _ Hin)]. }
    pose proof (Hf (w x)) as Hhead.
    rewrite !filter_cons_True in Hhead by lia.
    injection Hhead as <- Htail. f_equal.
    apply IH; [exact Hs1|exact Hs2|].
    intros k. destruct (decide (w x = k)) as [<-|Hk]; [exact Htail|].
    specialize (Hf k). rewrite !filter_cons_False in Hf by exact Hk. exact Hf.
Qed.

Lemma alloc_fresh (elems : list FileRecord) (h : Sorter.heap) :
  h !! (Sorter.alloc elems h).1 = None.
Proof.
  unfold Sorter.alloc. simpl.
  apply (not_elem_of_dom (D := gset nat)), is_fresh.
Qed.

Lemma compareFiles_by_value (o : Sorter.SortOption) :
  let w := fun x => match Sorter.order o with
                    | Sorter.Asc => Sorter.sortValue (Sorter.field o) x
                    | Sorter.Desc => - Sorter.sortValue (Sorter.field o) x
                    end in
  forall x y, Sorter.compareFiles (Sorter.OwnOption o) x y = Returned (w x - w y).
Proof.
  intros w x y. unfold w, Sorter.compareFiles.
  destruct (Sorter.order o); f_equal; lia.
Qed.

(** What [sortFiles] does on a non-empty array with one of the options
    of the table. *)
Lemma sortFiles_own_option (h : Sorter.heap) (a : Sorter.loc)
    (elems : list FileRecord) (sortOption : string) (o : Sorter.SortOption) :
  h !! a = Some elems -> elems <> [] ->
  Sorter.lookupOption sortOption = Sorter.OwnOption o ->
  exists (sortedFiles : Sorter.loc) (sorted : list FileRecord) (h' : Sorter.heap),
    Sorter.sortFiles (Sorter.VArray a) sortOption h = (Returned sortedFiles, h')
    /\ h !! sortedFiles = None
    /\ h' !! sortedFiles = Some sorted
    /\ (forall l, l <> sortedFiles -> h' !! l = h !! l)
    /\ sorted ≡ₚ elems
    /\ StronglySorted
         (fun x y => match Sorter.order o with
                     | Sorter.Asc =>
                         Sorter.sortValue (Sorter.field o) x
                           <= Sorter.sortValue (Sorter.field o) y
                     | Sorter.Desc =>
                         Sorter.sortValue (Sorter.field o) y
                           <= Sorter.sortValue (Sorter.field o) x
                     end) sorted
    /\ (forall k,
          filter (fun x => Sorter.sortValue (Sorter.field o) x = k) sorted
          = filter (fun x => Sorter.sortValue (Sorter.field o) x = k) elems).
Proof.
  intros Ha Hne Ho. unfold Sorter.sortFiles. rewrite Ha, Ho. simpl.
  destruct elems as [|e elems']; [congruence|]. simpl Nat.eqb. cbv iota.
  set (elems := e :: elems') in *.
  destruct (array_sort_returns _ _ (compareFiles_by_value o) elems)
    as (sorted & Hsort & Hperm & Hstable & Hsorted).
  pose proof (alloc_fresh elems h) as Hfresh. simpl in Hfresh.
  rewrite Hsort. set (c := fresh (dom h)) in *.
  exists c, sorted, (<[c := sorted]> (<[c := elems]> h)).
  split; [reflexivity|]. split; [exact Hfresh|]. split; [apply lookup_insert_eq|].
  split; [|split; [exact Hperm|split]].
  - intros l Hl. rewrite !lookup_insert_ne by congruence. reflexivity.
  - destruct (Sorter.order o).
    + exact Hsorted.
    + eapply StronglySorted_weaken; [|exact Hsorted].
      simpl. intros; lia.
  - intros k. destruct (Sorter.order o).
    + apply Hstable.
    + specialize (Hstable (- k)).
      erewrite (list_filter_iff _ (fun y => - Sorter.sortValue (Sorter.field o) y = - k)),
        (list_filter_iff _ (fun y => - Sorter.sortValue (Sorter.field o) y = - k) elems);
        [exact Hstable | |]; intros; simpl; lia.
Qed.

(** C3. For a non-empty array and each of the four keys, [sortFiles]
    returns a newly allocated array holding a stable sorted permutation
    of the input: same records and same length, ordered by the compared
    value (the size, 0 when missing; [creationTime], else [lastModified],
    else 0), ascending or descending, with records of equal value in
    their input order. The input array and every other array of the heap
    are left as they were. *)
Theorem sortFiles_stable_permutation (h : Sorter.heap) (a : Sorter.loc)
    (elems : list FileRecord) (sortOption : string) :
  h !! a = Some elems -> elems <> [] ->
  sortOption ∈ ["size-asc"; "size-desc"; "date-asc"; "date-desc"] ->
  exists (o : Sorter.SortOption) (sortedFiles : Sorter.loc)
         (sorted : list FileRecord) (h' : Sorter.heap),
    Sorter.sortFiles (Sorter.VArray a) sortOption h = (Returned sortedFiles, h')
    /\ ((sortOption = "size-asc"
          /\ Sorter.field o = Sorter.FieldSize /\ Sorter.order o = Sorter.Asc)
        \/ (sortOption = "size-desc"
            /\ Sorter.field o = Sorter.FieldSize /\ Sorter.order o = Sorter.Desc)
        \/ (sortOption = "date-asc"
            /\ Sorter.field o = Sorter.FieldCreationTime
            /\ Sorter.order o = Sorter.Asc)
        \/ (sortOption = "date-desc"
            /\ Sorter.field o = Sorter.FieldCreationTime
            /\ Sorter.order o = Sorter.Desc))
    /\ sortedFiles <> a
    /\ h !! sortedFiles = None
    /\ h' !! sortedFiles = Some sorted
    /\ h' !! a = Some elems
    /\ (forall l, l <> sortedFiles -> h' !! l = h !! l)
    /\ sorted ≡ₚ elems
    /\ length sorted = length elems
    /\ StronglySorted
         (fun x y => match Sorter.order o with
                     | Sorter.Asc =>
                         Sorter.sortValue (Sorter.field o) x
                           <= Sorter.sortValue (Sorter.field o) y
                     | Sorter.Desc =>
                         Sorter.sortValue (Sorter.field o) y
                           <= Sorter.sortValue (Sorter.field o) x
                     end) sorted
    /\ (forall k,
          filter (fun x => Sorter.sortValue (Sorter.field o) x = k) sorted
          = filter (fun x => Sorter.sortValue (Sorter.field o) x = k) elems)
    /\ (forall x, Sorter.sortValue Sorter.FieldSize x = default 0 (size x))
    /\ (forall x, Sorter.sortValue Sorter.FieldCreationTime x
                  = match creationTime x with
                    | Some t => if Z.eqb t 0 then default 0 (lastModified x) else t
                    | None => default 0 (lastModified x)
                    end).
Proof.
  intros Ha Hne Hkey.
  assert (exists o, Sorter.lookupOption sortOption = Sorter.OwnOption o
            /\ ((sortOption = "size-asc"
                  /\ Sorter.field o = Sorter.FieldSize /\ Sorter.order o = Sorter.Asc)
                \/ (sortOption = "size-desc"
                    /\ Sorter.field o = Sorter.FieldSize
                    /\ Sorter.order o = Sorter.Desc)
                \/ (sortOption = "date-asc"
                    /\ Sorter.field o = Sorter.FieldCreationTime
                    /\ Sorter.order o = Sorter.Asc)
                \/ (sortOption = "date-desc"
                    /\ Sorter.field o = Sorter.FieldCreationTime
                    /\ Sorter.order o = Sorter.Desc))) as (o & Ho & Hcase).
  { repeat (apply elem_of_cons in Hkey as [->|Hkey]);
      [ | | | | by apply elem_of_nil in Hkey ];
      eexists; (split; [vm_compute; reflexivity|]); simpl; tauto. }
  destruct (sortFiles_own_option h a elems sortOption o Ha Hne Ho)
    as (c & sorted & h' & Hrun & Hfresh & Hc & Hframe & Hperm & Hsorted & Hstable).
  exists o, c, sorted, h'.
  assert (c <> a) as Hca by (intros ->; congruence).
  repeat split; auto.
  - rewrite Hframe by congruence. exact Ha.
  - by rewrite Hperm.
  - intros x. unfold Sorter.sortValue, num_or.
    destruct (size x) as [z|]; simpl; [|reflexivity].
    destruct (Z.eqb_spec z 0); congruence.
  - intros x. unfold Sorter.sortValue, num_or.
    destruct (creationTime x) as [t|], (lastModified x) as [m|]; simpl;
      repeat match goal with |- context [Z.eqb ?u 0] =>
               destruct (Z.eqb_spec u 0) end; congruence.
Qed.

Lemma sortFiles_stable_permutation_witness :
  exists (o : Sorter.SortOption) (sortedFiles : Sorter.loc)
         (sorted : list FileRecord) (h' : Sorter.heap),
    Sorter.sortFiles (Sorter.VArray 0%nat) "size-asc" Examples.twoFiles
      = (Returned sortedFiles, h')
    /\ h' !! sortedFiles = Some sorted
    /\ sorted ≡ₚ [Examples.a_jpg; Examples.b_png].
Proof.
  destruct (sortFiles_stable_permutation Examples.twoFiles 0%nat
              [Examples.a_jpg; Examples.b_png] "size-asc")
    as (o & c & sorted & h' & Hrun & _ & _ & _ & Hc & _ & _ & Hperm & _).
  - reflexivity.
  - discriminate.
  - constructor.
  - exists o, c, sorted, h'. auto.
Defined.

Lemma sortFiles_empty_array (a : Sorter.loc) (sortOption : string) (h : Sorter.heap) :
  default [] (h !! a) = [] ->
  Sorter.sortFiles (Sorter.VArray a) sortOption h
  = (Returned (fresh (dom h)), <[fresh (dom h) := []]> h).
Proof. intros He. unfold Sorter.sortFiles. rewrite He. reflexivity. Qed.

Lemma lookupOption_undefined (sortOption : string) :
  sortOption ∉ ["size-asc"; "size-desc"; "date-asc"; "date-desc"] ->
  sortOption ∉ Sorter.objectPrototypeMembers ->
  Sorter.lookupOption sortOption = Sorter.Undefined.
Proof.
  intros Hown Hinherited. unfold Sorter.lookupOption.
  destruct (Sorter.sortOptions !! sortOption) as [o|] eqn:Hl.
  - exfalso. apply Hown. unfold Sorter.sortOptions in Hl.
    apply elem_of_list_to_map_2, (list_elem_of_fmap_2 fst) in Hl. exact Hl.
  - rewrite bool_decide_eq_false_2 by exact Hinherited. reflexivity.
Qed.

(** The empty array at location 0 sorted with a key that is not in the
    table: an empty array is returned and nothing is thrown, so the rule
    for unknown keys does not apply to an empty input. *)
Lemma sortFiles_empty_unknown_key_returns :
  Sorter.sortFiles (Sorter.VArray 0%nat) "name-asc" Examples.noFiles
    = (Returned 1%nat, <[1%nat := []]> Examples.noFiles)
  /\ ~ (forall (files : Sorter.Value) (sortOption : string) (h : Sorter.heap),
          sortOption ∉ ["size-asc"; "size-desc"; "date-asc"; "date-desc"] ->
          exists message h',
            Sorter.sortFiles files sortOption h = (Thrown message, h')).
Proof.
  assert (Sorter.sortFiles (Sorter.VArray 0%nat) "name-asc" Examples.noFiles
          = (Returned 1%nat, <[1%nat := []]> Examples.noFiles)) as Hrun.
  { rewrite sortFiles_empty_array by reflexivity. reflexivity. }
  split; [exact Hrun|].
  intros Hclaim.
  destruct (Hclaim (Sorter.VArray 0%nat) "name-asc" Examples.noFiles)
    as (message & h' & Hthrown).
  - intros Hin. repeat (apply elem_of_cons in Hin as [Heq|Hin]; [discriminate|]).
    by apply elem_of_nil in Hin.
  - rewrite Hrun in Hthrown. discriminate.
Qed.

(** C8, as the code has it. A value that is not an array, or an array
    that is empty, gives a newly allocated empty array and no error,
    whatever the key. A non-empty array with a key that names no member
    of the option table (none of the four keys and nothing inherited
    from [Object.prototype]) makes [sortFiles] throw
    [Invalid sort option: <key>], and the heap is left as it was. *)
Theorem sortFiles_empty_or_unknown_key :
  (forall (sortOption : string) (h : Sorter.heap),
     exists r h', Sorter.sortFiles Sorter.VOther sortOption h = (Returned r, h')
       /\ h !! r = None /\ h' !! r = Some [])
  /\ (forall (a : Sorter.loc) (sortOption : string) (h : Sorter.heap),
        h !! a = Some [] ->
        exists r h',
          Sorter.sortFiles (Sorter.VArray a) sortOption h = (Returned r, h')
          /\ r <> a /\ h' !! r = Some [] /\ h' !! a = Some [])
  /\ (forall (a : Sorter.loc) (sortOption : string) (h : Sorter.heap)
             (elems : list FileRecord),
        h !! a = Some elems -> elems <> [] ->
        sortOption ∉ ["size-asc"; "size-desc"; "date-asc"; "date-desc"] ->
        sortOption ∉ Sorter.objectPrototypeMembers ->
        Sorter.sortFiles (Sorter.VArray a) sortOption h
        = (Thrown ("Invalid sort option: " +:+ sortOption), h)).
Proof.
  split; [|split].
  - intros sortOption h. simpl.
    exists (fresh (dom h)), (<[fresh (dom h) := []]> h).
    split; [reflexivity|]. split; [apply (alloc_fresh [] h)|apply lookup_insert_eq].
  - intros a sortOption h Ha.
    rewrite sortFiles_empty_array by (rewrite Ha; reflexivity).
    pose proof (alloc_fresh [] h) as Hfresh. simpl in Hfresh.
    assert (fresh (dom h) <> a) as Hne by (intros Heq; rewrite Heq in Hfresh; congruence).
    eexists _, _. split; [reflexivity|]. split; [exact Hne|].
    split; [apply lookup_insert_eq|].
    rewrite lookup_insert_ne by exact Hne. exact Ha.
  - intros a sortOption h elems Ha Hne Hown Hinherited.
    unfold Sorter.sortFiles. rewrite Ha. simpl.
    destruct elems as [|e elems]; [congruence|]. simpl.
    rewrite lookupOption_undefined by assumption. reflexivity.
Qed.

Lemma sortFiles_empty_or_unknown_key_witness :
  Examples.noFiles !! 0%nat = Some []
  /\ Sorter.sortFiles (Sorter.VArray 0%nat) "name-asc" Examples.twoFiles
     = (Thrown "Invalid sort option: name-asc", Examples.twoFiles).
Proof.
  split; [reflexivity|].
  destruct sortFiles_empty_or_unknown_key as (_ & _ & Hunknown).
  apply (Hunknown 0%nat "name-asc" Examples.twoFiles
           [Examples.a_jpg; Examples.b_png]).
  - reflexivity.
  - discriminate.
  - vm_compute. intros Hin.
    repeat (apply elem_of_cons in Hin as [Heq|Hin]; [discriminate|]).
    by apply elem_of_nil in Hin.
  - vm_compute. intros Hin.
    repeat (apply elem_of_cons in Hin as [Heq|Hin]; [discriminate|]).
    by apply elem_of_nil in Hin.
Defined.

(** With a key that [Object.prototype] supplies, the lookup is truthy and
    the comparator throws at its first call: two files or more give the
    error of the comparator, a single file is returned as it is. *)
Lemma array_sort_throwing {A : Type} (message : string) (l : list A) :
  array_sort_outcome_of_length message l
  = Sorter.array_sort (fun _ _ => Thrown message) l.
Proof.
  unfold array_sort_outcome_of_length.
  induction l as [|x [|y l] IH]; try reflexivity.
  change (Sorter.array_sort (fun _ _ : A => Thrown message) (x :: y :: l))
    with (match Sorter.array_sort (fun _ _ : A => Thrown message) (y :: l) with
          | Returned r => Sorter.sort_insert (fun _ _ => Thrown message) x r
          | Thrown m => Thrown m
          end).
  rewrite <- IH. destruct l; reflexivity.
Qed.

Lemma sortFiles_inherited_key (a : Sorter.loc) (h : Sorter.heap)
    (elems : list FileRecord) :
  h !! a = Some elems -> elems <> [] ->
  Sorter.sortFiles (Sorter.VArray a) "toString" h
  = match elems with
    | [x] => (Returned (fresh (dom h)),
              <[fresh (dom h) := [x]]> (<[fresh (dom h) := [x]]> h))
    | _ => (Thrown "Unknown sort field: undefined", <[fresh (dom h) := elems]> h)
    end.
Proof.
  intros Ha Hne. unfold Sorter.sortFiles. rewrite Ha. simpl.
  destruct elems as [|x elems]; [congruence|]. simpl Nat.eqb. cbv iota.
  change (Sorter.lookupOption "toString") with Sorter.InheritedMember.
  cbv iota. unfold Sorter.alloc.
  change (Sorter.compareFiles Sorter.InheritedMember)
    with (fun _ _ : FileRecord => @Thrown Z "Unknown sort field: undefined").
  rewrite <- array_sort_throwing.
  destruct elems as [|y elems]; reflexivity.
Qed.

(** ** Strings *)

Section StringFacts.
Import JsString.



Lemma substringFrom_append (p t : string) :
  substringFrom (String.length p) (p +:+ t) = t.
Proof. induction p as [|c p IH]; simpl; [reflexivity|exact IH]. Qed.

Lemma append_assoc (a b c : string) : (a +:+ b) +:+ c = a +:+ b +:+ c.
Proof.
  induction a as [|x a IH]; [reflexivity|].
  change (String x ((a +:+ b) +:+ c) = String x (a +:+ b +:+ c)).
  f_equal. exact IH.
Qed.

Lemma append_nil_r (a : string) : a +:+ EmptyString = a.
Proof.
  induction a as [|x a IH]; [reflexivity|].
  change (String x (a +:+ EmptyString) = String x a). f_equal. exact IH.
Qed.








End StringFacts.


(** ** Name generation *)


(** An extension made of white space only is not appended: the test of
    [generateNewName] is on the trimmed extension. No extension computed
    by [extensionOf] is of this kind. *)
Lemma generateNewName_blank_extension :
  Renamer.generateNewName "file_{number}" 1 3 " " = "file_001".
Proof. reflexivity. Qed.



(** ** The planner *)

Section PlannerFacts.
Import Renamer.
Context {World : Type} (host : Host World).

Lemma checkForCollisions_spec (newName : string) (files : list FileRecord)
    (st st' : State World) (check : CollisionCheck) :
  checkForCollisions host newName files st = (check, st') ->
  exists answer w,
    fileExists host newName (world st) = (answer, w)
    /\ hasCollisions check = colliding files newName answer
    /\ st' = mkState w (trace st ++ [EvFileExists newName answer])
               (operationLog st) (collisionResolutions st).
Proof.
  unfold checkForCollisions, bind, call_fileExists, ret.
  destruct (fileExists host newName (world st)) as [answer w].
  intros [= <- <-]. exists answer, w. split; [reflexivity|]. split; [|reflexivity].
  unfold colliding, hasCollisions.
  destruct (filter (fun file => name file = newName) files) as [|g l] eqn:Hfilter.
  - rewrite bool_decide_eq_false_2.
    + destruct answer as [[|]|]; reflexivity.
    + intros Hin. apply list_elem_of_fmap in Hin as (f & Hf & Hin).
      assert (f ∈ filter (fun file => name file = newName) files) as Hmem
        by (apply list_elem_of_filter; auto).
      rewrite Hfilter in Hmem. by apply elem_of_nil in Hmem.
  - rewrite bool_decide_eq_true_2.
    + destruct answer as [[|]|]; reflexivity.
    + assert (g ∈ filter (fun file => name file = newName) files) as Hmem
        by (rewrite Hfilter; constructor).
      apply list_elem_of_filter in Hmem as [Hname Hg].
      apply list_elem_of_fmap. exists g. auto.
Qed.

Lemma resolveLoop_spec (pattern : string) (currentIndex : Z) (padding : nat)
    (ext : string) (files : list FileRecord) (maxAttempts : nat) :
  forall (remaining attempts : nat) (st st' : State World) (r : Resolution),
    resolveLoop host pattern currentIndex padding ext files maxAttempts
      remaining attempts st = (r, st') ->
    exists answers : list (Outcome bool),
      trace st' = trace st ++ probes pattern currentIndex padding ext attempts answers
      /\ operationLog st' = operationLog st
      /\ collisionResolutions st' = collisionResolutions st
      /\ match r with
         | Resolved newName newIndex used originalIndex =>
             (exists before last,
                answers = before ++ [last]
                /\ forallb (probeCollides files)
                     (probes pattern currentIndex padding ext attempts before) = true
                /\ colliding files newName last = false)
             /\ used = (attempts + length answers)%nat
             /\ (length answers <= remaining)%nat
             /\ newIndex = currentIndex + Z.of_nat used
             /\ newName = generateNewName pattern newIndex padding ext
             /\ originalIndex = currentIndex
         | Unresolved used originalIndex error =>
             length answers = remaining
             /\ forallb (probeCollides files)
                  (probes pattern currentIndex padding ext attempts answers) = true
             /\ used = maxAttempts
             /\ originalIndex = currentIndex
             /\ error = "Could not resolve collision after "
                          +:+ JsString.ofNumber (Z.of_nat maxAttempts)
                          +:+ " attempts"
         end.
Proof.
  induction remaining as [|remaining IH]; intros attempts st st' r Hrun.
  - injection Hrun as <- <-. exists []. simpl. rewrite app_nil_r. auto 10.
  - simpl in Hrun. unfold bind in Hrun.
    destruct (checkForCollisions host _ files st) as [check st1] eqn:Hcheck.
    apply checkForCollisions_spec in Hcheck as (answer & w & _ & Hcollides & ->).
    destruct (hasCollisions check) eqn:Hhas; simpl in Hrun.
    + apply IH in Hrun as (answers & Htrace & Hlog & Hres & Hr).
      simpl in Htrace, Hlog, Hres. rewrite Nat.add_1_r in *.
      exists (answer :: answers). simpl.
      rewrite Htrace, <- app_assoc. split; [reflexivity|].
      split; [exact Hlog|]. split; [exact Hres|].
      destruct r as [newName newIndex used originalIndex|used originalIndex error].
      * destruct Hr as ((before & last & -> & Hbefore & Hlast) & -> & Hle & Hrest).
        split; [|split; [lia|split; [lia|exact Hrest]]].
        exists (answer :: before), last. split; [reflexivity|].
        split; [|exact Hlast]. simpl. rewrite <- Hcollides, Hbefore. reflexivity.
      * destruct Hr as (Hlen & Hall & Hrest).
        split; [lia|]. split; [|exact Hrest].
        rewrite <- Hcollides, Hall. reflexivity.
    + injection Hrun as <- <-. exists [answer]. simpl.
      split; [reflexivity|]. split; [reflexivity|]. split; [reflexivity|].
      split; [|split; [lia|split; [lia|split; [lia|split; [f_equal; lia|reflexivity]]]]].
      exists [], answer. simpl. split; [reflexivity|]. split; [reflexivity|].
      symmetry. exact Hcollides.
Qed.

Lemma checkForCollisions_fields (newName : string) (files : list FileRecord)
    (st : State World) :
  operationLog (checkForCollisions host newName files st).2 = operationLog st
  /\ collisionResolutions (checkForCollisions host newName files st).2
     = collisionResolutions st.
Proof.
  destruct (checkForCollisions host newName files st) as [check st'] eqn:Hcheck.
  apply checkForCollisions_spec in Hcheck as (answer & w & _ & _ & ->). auto.
Qed.

(** One iteration of the planning loop: either the plan fails with a
    message that names the file, or one entry is added. *)
Lemma planFile_spec (files : list FileRecord) (pattern : string) (padding : nat)
    (resolve : bool) (i : nat) (file : FileRecord) (l : Loop)
    (st st' : State World) (r : PreviewResult + Loop) :
  planFile host files pattern padding resolve i file l st = (r, st') ->
  operationLog st' = operationLog st
  /\ collisionResolutions st' = collisionResolutions st
  /\ planFileOutcome pattern padding resolve i file l r.
Proof.
  unfold planFile, bind, ret. intros Hrun.
  assert (forall (st1 : State World) (newName : string) (actualIndex : Z)
                 (resolved : bool) (resolutions : list CollisionResolution),
            newName = generateNewName pattern actualIndex padding (extension file) ->
            (if resolved then l_currentIndex l < actualIndex
             else actualIndex = l_currentIndex l) ->
            (if resolved then
               exists attempts : nat,
                 resolutions
                 = (l_collisionResolutions l ++
                      [mkResolution file (name file) (l_currentIndex l)
                         newName actualIndex attempts])
             else resolutions = l_collisionResolutions l) ->
            (if bool_decide (newName ∈ l_usedNames l)
             then fun st : State World =>
                    (inl (failure (duplicateMessage newName (name file))
                            (l_previewData l)), st)
             else fun st : State World =>
                    (inr (mkLoop
                            (l_previewData l ++
                               [mkEntry (name file) newName (Z.of_nat i + 1)
                                  actualIndex file resolved (size file)
                                  (opt_or (creationTime file) (lastModified file))
                                  (extension file)])
                            ({[newName]} ∪ l_usedNames l) resolutions
                            (actualIndex + 1)), st)) st1 = (r, st') ->
            st' = st1 /\ planFileOutcome pattern padding resolve i file l r)
    as Hfinish.
  { intros st1 newName actualIndex resolved resolutions -> Hindex Hres Hend.
    case_bool_decide as Hused; injection Hend as <- <-; (split; [reflexivity|]).
    - right. eauto.
    - exists actualIndex, resolved. simpl. auto 10. }
  destruct resolve.
  - destruct (checkForCollisions host _ files st) as [check st0] eqn:Hcheck.
    pose proof (checkForCollisions_fields
                  (generateNewName pattern (l_currentIndex l) padding
                     (extension file)) files st) as [Hlog0 Hres0].
    rewrite Hcheck in Hlog0, Hres0. simpl in Hlog0, Hres0.
    destruct (hasCollisions check).
    + destruct (resolveCollision host pattern (l_currentIndex l) padding
                  (extension file) files 1000 st0) as [resolution st1] eqn:Hresolve.
      apply resolveLoop_spec in Hresolve as (answers & _ & Hlog1 & Hres1 & Hr).
      destruct resolution as [newName newIndex used originalIndex
                             |used originalIndex error].
      * destruct Hr as ((before & last & -> & _) & -> & _ & -> & -> & _).
        rewrite length_app in *. simpl in *.
        eapply (Hfinish _ _ _ true) in Hrun as [-> Hr];
          [| reflexivity | simpl; lia | simpl; eauto].
        split; [congruence|]. split; [congruence|exact Hr].
      * destruct Hr as (_ & _ & _ & _ & ->).
        injection Hrun as <- <-.
        split; [congruence|]. split; [congruence|]. left. auto.
    + eapply (Hfinish _ _ _ false) in Hrun as [-> Hr];
        [| reflexivity | reflexivity | reflexivity].
      split; [congruence|]. split; [congruence|exact Hr].
  - eapply (Hfinish _ _ _ false) in Hrun as [-> Hr];
      [| reflexivity | reflexivity | reflexivity].
    auto.
Qed.

Lemma firstCandidateIndex_app (start : Z) (entries more : list PreviewEntry)
    (k : nat) :
  (k <= length entries)%nat ->
  firstCandidateIndex start (entries ++ more) k
  = firstCandidateIndex start entries k.
Proof.
  intros Hk. unfold firstCandidateIndex. rewrite take_app_le by exact Hk.
  reflexivity.
Qed.

Lemma firstCandidateIndex_snoc (start : Z) (entries : list PreviewEntry)
    (e : PreviewEntry) :
  firstCandidateIndex start (entries ++ [e]) (length (entries ++ [e]))
  = pe_actualIndex e + 1.
Proof.
  unfold firstCandidateIndex. rewrite firstn_all, last_snoc. reflexivity.
Qed.

Lemma PlanInvariant_init (pattern : string) (padding : nat) (start : Z) :
  PlanInvariant pattern padding start [] (mkLoop [] ∅ [] start).
Proof.
  constructor; simpl; try reflexivity.
  - intros k e Hk. rewrite lookup_nil in Hk. discriminate.
  - intros n. rewrite elem_of_nil. set_solver.
  - constructor.
  - constructor.
  - constructor.
Qed.

Lemma PlanInvariant_step (pattern : string) (padding : nat) (start : Z)
    (resolve : bool) (planned : list FileRecord) (file : FileRecord)
    (l l' : Loop) :
  PlanInvariant pattern padding start planned l ->
  planFileOutcome pattern padding resolve (length planned) file l (inr l') ->
  PlanInvariant pattern padding start (planned ++ [file]) l'.
Proof.
  intros [Hfiles Hentries Hused Hnodup Hcurrent Hincr Hbelow]
         (actualIndex & resolved & Hindex & Hfree & Hdata & Hnames & Hnext & _).
  assert (length (l_previewData l) = length planned) as Hlen
    by (rewrite <- Hfiles, length_map; reflexivity).
  assert (l_currentIndex l <= actualIndex) as Hle
    by (destruct resolved; lia).
  assert (start <= l_currentIndex l) as Hstart.
  { rewrite Hcurrent. unfold firstCandidateIndex. rewrite firstn_all.
    destruct (last (l_previewData l)) as [e|] eqn:Hlast; [|lia].
    apply last_Some_elem_of in Hlast.
    rewrite Forall_forall in Hbelow. apply Hbelow in Hlast. lia. }
  constructor; rewrite ?Hdata, ?Hnames, ?Hnext.
  - rewrite map_app, Hfiles. reflexivity.
  - intros k e Hk. apply lookup_app_Some in Hk as [Hk|[Hge Hk]].
    + rewrite firstCandidateIndex_app
        by (apply lookup_lt_Some in Hk; lia).
      apply Hentries. exact Hk.
    + destruct (k - length (l_previewData l))%nat as [|m] eqn:Hm;
        [|rewrite lookup_cons, lookup_nil in Hk; discriminate].
      injection Hk as <-. simpl.
      assert (k = length (l_previewData l)) as -> by lia.
      rewrite firstCandidateIndex_app by lia. rewrite <- Hcurrent, Hlen.
      repeat split; auto.
  - intros n. rewrite elem_of_union, elem_of_singleton, map_app, elem_of_app.
    rewrite Hused. simpl. rewrite list_elem_of_singleton. tauto.
  - rewrite map_app. apply NoDup_app. split; [exact Hnodup|]. split.
    + intros n Hn Hnew. simpl in Hnew. apply list_elem_of_singleton in Hnew.
      subst n. apply Hfree, Hused, Hn.
    + simpl. apply NoDup_singleton.
  - rewrite firstCandidateIndex_snoc. reflexivity.
  - rewrite map_app. simpl.
    clear -Hincr Hbelow Hle. induction (l_previewData l) as [|e es IH]; simpl.
    + repeat constructor.
    + apply StronglySorted_inv in Hincr as [Hincr Hall].
      apply Forall_cons in Hbelow as [He Hbelow].
      constructor; [apply IH; assumption|].
      apply Forall_app. split; [exact Hall|]. constructor; [lia|constructor].
  - apply Forall_app. split.
    + eapply Forall_impl; [exact Hbelow|]. simpl. intros; lia.
    + constructor; [simpl; lia|constructor].
Qed.


Lemma planLoop_spec (files : list FileRecord) (pattern : string) (padding : nat)
    (start : Z) (resolve : bool) (rest : list FileRecord) :
  forall (planned : list FileRecord) (l : Loop) (st st' : State World)
         (r : PreviewResult + Loop),
    PlanInvariant pattern padding start planned l ->
    planLoop host files pattern padding resolve (length planned) rest l st
      = (r, st') ->
    operationLog st' = operationLog st
    /\ collisionResolutions st' = collisionResolutions st
    /\ match r with
       | inr l' => PlanInvariant pattern padding start (planned ++ rest) l'
       | inl failed =>
           exists (before : list FileRecord) (file : FileRecord)
                  (later : list FileRecord) (l1 : Loop),
             rest = before ++ file :: later
             /\ PlanInvariant pattern padding start (planned ++ before) l1
             /\ planFileOutcome pattern padding resolve
                  (length (planned ++ before)) file l1 (inl failed)
       end.
Proof.
  induction rest as [|file rest IH]; intros planned l st st' r Hinv Hrun.
  - injection Hrun as <- <-. rewrite app_nil_r. auto.
  - simpl in Hrun. unfold bind in Hrun.
    destruct (planFile host files pattern padding resolve (length planned) file l st)
      as [[failed|l1] st1] eqn:Hfile;
      apply planFile_spec in Hfile as (Hlog & Hres & Hout).
    + injection Hrun as <- <-. split; [exact Hlog|]. split; [exact Hres|].
      exists [], file, rest, l. rewrite app_nil_r. auto.
    + pose proof (PlanInvariant_step _ _ _ _ _ _ _ _ Hinv Hout) as Hinv1.
      replace (S (length planned)) with (length (planned ++ [file])) in Hrun
        by (rewrite length_app; simpl; lia).
      apply (IH _ _ _ _ _ Hinv1) in Hrun as (Hlog' & Hres' & Hr).
      split; [congruence|]. split; [congruence|].
      destruct r as [failed|l'].
      * destruct Hr as (before & file' & later & l2 & -> & Hinv2 & Hout2).
        exists (file :: before), file', later, l2.
        rewrite <- app_assoc in Hinv2, Hout2. auto.
      * rewrite <- app_assoc in Hr. exact Hr.
Qed.

(** What [generatePreview] returns: the errors of the validator, or a
    failed plan stopped at one file, or a plan that satisfies the
    invariant for all the files. *)
Lemma generatePreview_spec (files : list FileRecord) (pattern : string)
    (padding : nat) (options : Options) (st st' : State World)
    (result : PreviewResult) :
  generatePreview host files pattern padding options st = (result, st') ->
  let start := default 1 (startIndex options) in
  let resolve := default true (resolveCollisions options) in
  operationLog st' = operationLog st
  /\ ((isValid (validatePattern pattern) = false
       /\ result = mkPreview false (validationErrors (validatePattern pattern))
                     [] None None None None
       /\ st' = st)
      \/ (isValid (validatePattern pattern) = true
          /\ success result = false
          /\ collisionResolutions st' = collisionResolutions st
          /\ exists (before : list FileRecord) (file : FileRecord)
                    (later : list FileRecord) (l1 : Loop),
               files = before ++ file :: later
               /\ PlanInvariant pattern padding start before l1
               /\ planFileOutcome pattern padding resolve (length before) file l1
                    (inl result))
      \/ (isValid (validatePattern pattern) = true
          /\ exists l : Loop,
               PlanInvariant pattern padding start files l
               /\ result = mkPreview true [] (l_previewData l)
                             (Some (l_collisionResolutions l))
                             (Some (length files)) (Some pattern) (Some padding)
               /\ collisionResolutions st' = l_collisionResolutions l)).
Proof.
  intros Hrun start resolve. unfold generatePreview in Hrun.
  fold start resolve in Hrun.
  destruct (isValid (validatePattern pattern)) eqn:Hvalid; simpl in Hrun.
  - unfold bind in Hrun.
    destruct (planLoop host files pattern padding _ 0 files _ st)
      as [r st1] eqn:Hloop.
    apply (planLoop_spec files pattern padding start _ files [] _ _ _ _
             (PlanInvariant_init pattern padding start)) in Hloop
      as (Hlog & Hres & Hr).
    destruct r as [failed|l].
    + injection Hrun as <- <-. split; [exact Hlog|]. right. left.
      split; [reflexivity|].
      destruct Hr as (before & file & later & l1 & Hfiles & Hinv & Hout).
      simpl in Hinv, Hout. split.
      * destruct Hout as [[_ ->]|(n & _ & ->)]; reflexivity.
      * split; [exact Hres|]. exists before, file, later, l1. auto.
    + injection Hrun as <- <-. simpl. split; [exact Hlog|]. right. right.
      split; [reflexivity|]. exists l. simpl in Hr. auto.
  - injection Hrun as <- <-. split; [reflexivity|]. left. auto.
Qed.
End PlannerFacts.



(** C1. Whenever [generatePreview] returns [success = true], there is
    one entry for each input file, in the order of the input, and the
    new names of the entries are pairwise distinct. *)
Theorem generatePreview_length_and_distinct_names {World : Type}
    (host : Renamer.Host World) (files : list FileRecord) (pattern : string)
    (padding : nat) (options : Renamer.Options) (st : Renamer.State World) :
  let result := (Renamer.generatePreview host files pattern padding options st).1 in
  Renamer.success result = true ->
  length (Renamer.previewData result) = length files
  /\ map Renamer.pe_file (Renamer.previewData result) = files
  /\ NoDup (map Renamer.pe_newName (Renamer.previewData result))
  /\ (forall (i j : nat) (e1 e2 : Renamer.PreviewEntry),
        i <> j ->
        Renamer.previewData result !! i = Some e1 ->
        Renamer.previewData result !! j = Some e2 ->
        Renamer.pe_newName e1 <> Renamer.pe_newName e2).
Proof.
  intros result Hsuccess. subst result.
  destruct (Renamer.generatePreview host files pattern padding options st)
    as [result st'] eqn:Hrun.
  apply generatePreview_spec in Hrun as (_ & Hcases). simpl in *.
  destruct Hcases as [(_ & -> & _)|[(_ & Hfail & _)|(_ & l & Hinv & -> & _)]];
    [discriminate|congruence|]. simpl.
  destruct Hinv as [Hfiles _ _ Hnodup _ _ _].
  split; [rewrite <- Hfiles, length_map; reflexivity|].
  split; [exact Hfiles|]. split; [exact Hnodup|].
  intros i j e1 e2 Hij Hi Hj Heq. apply Hij.
  apply (NoDup_lookup _ i j (Renamer.pe_newName e1) Hnodup).
  - change (map Renamer.pe_newName) with (fmap (M := list) Renamer.pe_newName).
    rewrite list_lookup_fmap, Hi. reflexivity.
  - change (map Renamer.pe_newName) with (fmap (M := list) Renamer.pe_newName).
    rewrite list_lookup_fmap, Hj, Heq. reflexivity.
Qed.

Lemma generatePreview_length_and_distinct_names_witness :
  let result :=
    (Renamer.generatePreview (Examples.folderHost [])
       [Examples.b_png; Examples.a_jpg] "file_{number}" 3 Examples.defaults
       (Examples.startIn [(1%nat, "a.jpg"); (2%nat, "b.png")])).1 in
  Renamer.success result = true
  /\ length (Renamer.previewData result) = 2%nat
  /\ NoDup (map Renamer.pe_newName (Renamer.previewData result)).
Proof.
  intros result.
  assert (Renamer.success result = true) as Hsuccess by (vm_compute; reflexivity).
  split; [exact Hsuccess|].
  destruct (generatePreview_length_and_distinct_names (Examples.folderHost [])
              [Examples.b_png; Examples.a_jpg] "file_{number}" 3 Examples.defaults
              (Examples.startIn [(1%nat, "a.jpg"); (2%nat, "b.png")]) Hsuccess)
    as (Hlength & _ & Hnodup & _).
  split; [exact Hlength|exact Hnodup].
Defined.






(** ** Collisions *)

Section CollisionFacts.
Import Renamer.
Context {World : Type} (host : Host World).



End CollisionFacts.



(** ** The executor *)

Section ExecutorFacts.
Import Renamer.
Context {World : Type} (host : Host World).

(** One iteration of the loop of [executeRenaming]. *)
Lemma renameItem_spec (progressCallback : option (Callback World))
    (total i : nat) (item : PreviewEntry) (results results' : OperationResult)
    (st st' : State World) :
  renameItem host progressCallback total i item results st = (results', st') ->
  exists (a : Attempt) (now : Z),
    trace st'
    = trace st ++ attemptEvents (bool_decide (is_Some progressCallback))
                    total i item a
    /\ (progressCallback = None -> exists answer, a = RenameAnswered answer)
    /\ successful results'
       = successful results
         ++ match attemptError a with None => [renamedOf item] | Some _ => [] end
    /\ failed results'
       = failed results
         ++ match attemptError a with
            | None => []
            | Some message => [failedOf item message]
            end
    /\ totalFiles results' = totalFiles results
    /\ startTime results' = startTime results
    /\ operationLog st'
       = operationLog st
         ++ [mkLog now "rename" (pe_originalName item) (pe_newName item)
               match attemptError a with None => "success" | Some _ => "failed" end
               (attemptError a)]
    /\ collisionResolutions st' = collisionResolutions st.
Proof.
  unfold renameItem, tryRename, bind, ret, call_progress, call_renameFile,
    call_dateNow, push_operationLog.
  intros Hrun.
  destruct progressCallback as [callback|]; simpl in Hrun.
  - destruct (callback _ _ _ _ (world st)) as [[[]|message] w]; simpl in Hrun.
    + destruct (renameFile host _ _ w) as [[[|]|message] w1]; simpl in Hrun;
        destruct (dateNow host w1) as [now w2]; simpl in Hrun;
        injection Hrun as <- <-;
        [ exists (RenameAnswered (Returned true)), now
        | exists (RenameAnswered (Returned false)), now
        | exists (RenameAnswered (Thrown message)), now ];
        simpl; rewrite <- ?app_assoc, ?app_nil_r;
        repeat split; try reflexivity; discriminate.
    + destruct (dateNow host w) as [now w1]. injection Hrun as <- <-.
      exists (NotifyThrew message), now. simpl. rewrite ?app_nil_r.
      repeat split; try reflexivity; discriminate.
  - destruct (renameFile host _ _ (world st)) as [[[|]|message] w1]; simpl in Hrun;
      destruct (dateNow host w1) as [now w2]; simpl in Hrun;
      injection Hrun as <- <-;
      [ exists (RenameAnswered (Returned true)), now
      | exists (RenameAnswered (Returned false)), now
      | exists (RenameAnswered (Thrown message)), now ];
      simpl; rewrite ?app_nil_r;
      repeat split; try reflexivity; eauto.
Qed.

Lemma renameLoop_spec (progressCallback : option (Callback World)) (total : nat)
    (rest : list PreviewEntry) :
  forall (i : nat) (results results' : OperationResult) (st st' : State World),
    renameLoop host progressCallback total i rest results st = (results', st') ->
    exists (attempts : list Attempt) (added : list LogEntry),
      length attempts = length rest
      /\ trace st'
         = trace st ++ attemptsEvents (bool_decide (is_Some progressCallback))
                         total i rest attempts
      /\ (progressCallback = None ->
          Forall (fun a => exists answer, a = RenameAnswered answer) attempts)
      /\ successful results' = successful results ++ successes rest attempts
      /\ failed results' = failed results ++ failures rest attempts
      /\ totalFiles results' = totalFiles results
      /\ startTime results' = startTime results
      /\ operationLog st' = operationLog st ++ added
      /\ map logged added = zip_with expectedLog rest attempts
      /\ collisionResolutions st' = collisionResolutions st.
Proof.
  induction rest as [|item rest IH]; intros i results results' st st' Hrun.
  - injection Hrun as <- <-. exists [], []. simpl. rewrite !app_nil_r.
    repeat split; auto.
  - simpl in Hrun. unfold bind in Hrun.
    destruct (renameItem host progressCallback total i item results st)
      as [results1 st1] eqn:Hitem.
    apply renameItem_spec in Hitem
      as (a & now & Htrace & Hnone & Hok & Hko & Htotal & Hstart & Hlog & Hres).
    apply IH in Hrun
      as (attempts & added & Hlen & Htrace' & Hnone' & Hok' & Hko' & Htotal'
          & Hstart' & Hlog' & Hadded & Hres').
    exists (a :: attempts),
      (mkLog now "rename" (pe_originalName item) (pe_newName item)
         match attemptError a with None => "success" | Some _ => "failed" end
         (attemptError a) :: added).
    simpl.
    rewrite Htrace', Htrace, Hok', Hok, Hko', Hko, Hlog', Hlog, <- !app_assoc.
    split; [lia|]. split; [reflexivity|]. split; [|split; [|split]].
    + intros Hcb. constructor; auto.
    + destruct (attemptError a); reflexivity.
    + destruct (attemptError a); reflexivity.
    + split; [congruence|]. split; [congruence|]. split; [reflexivity|].
      split; [|congruence]. rewrite Hadded. reflexivity.
Qed.

(** A whole run of [executeRenaming]. *)
Lemma executeRenaming_spec (previewData : list PreviewEntry)
    (progressCallback : option (Callback World)) (result : OperationResult)
    (st st' : State World) :
  executeRenaming host previewData progressCallback st = (result, st') ->
  exists attempts : list Attempt,
    length attempts = length previewData
    /\ trace st'
       = trace st ++ attemptsEvents (bool_decide (is_Some progressCallback))
                       (length previewData) 0 previewData attempts
    /\ (progressCallback = None ->
        Forall (fun a => exists answer, a = RenameAnswered answer) attempts)
    /\ successful result = successes previewData attempts
    /\ failed result = failures previewData attempts
    /\ totalFiles result = length previewData
    /\ map logged (operationLog st') = zip_with expectedLog previewData attempts
    /\ collisionResolutions st' = collisionResolutions st
    /\ exists finished : Z,
         endTime result = Some finished
         /\ duration result = Some (finished - startTime result).
Proof.
  unfold executeRenaming, bind, ret, call_dateNow, set_operationLog.
  intros Hrun.
  destruct (dateNow host (world st)) as [started w0]. simpl in Hrun.
  destruct (renameLoop host progressCallback (length previewData) 0 previewData _ _)
    as [results1 st1] eqn:Hloop.
  apply renameLoop_spec in Hloop
    as (attempts & added & Hlen & Htrace & Hnone & Hok & Hko & Htotal & Hstart
        & Hlog & Hadded & Hres).
  simpl in *.
  destruct (dateNow host (world st1)) as [finished w1]. injection Hrun as <- <-.
  exists attempts. simpl. rewrite Hlog. simpl.
  repeat split; auto. eauto.
Qed.
End ExecutorFacts.

Lemma successes_failures_length (items : list Renamer.PreviewEntry)
    (attempts : list Attempt) :
  length attempts = length items ->
  (length (successes items attempts) + length (failures items attempts))%nat
  = length items.
Proof.
  revert attempts. induction items as [|item items IH]; intros [|a attempts] Hlen;
    simpl in *; try lia.
  specialize (IH attempts ltac:(lia)).
  destruct (attemptError a); simpl; lia.
Qed.

Lemma failures_lookup (items : list Renamer.PreviewEntry) (attempts : list Attempt)
    (k : nat) (item : Renamer.PreviewEntry) (a : Attempt) (message : string) :
  items !! k = Some item -> attempts !! k = Some a ->
  attemptError a = Some message ->
  failedOf item message ∈ failures items attempts.
Proof.
  revert attempts k. induction items as [|item' items IH];
    intros [|a' attempts] [|k] Hitem Ha Herr; simpl in *; try discriminate.
  - injection Hitem as ->. injection Ha as ->. rewrite Herr. constructor.
  - specialize (IH attempts k Hitem Ha Herr).
    destruct (attemptError a'); [constructor|]; exact IH.
Qed.

(** C4. [executeRenaming] attempts the entries one at a time and in the
    order of the plan: the calls made to the host are those of the first
    entry, then those of the second, and so on, one attempt for each
    entry. An entry whose rename throws is appended to [failed] with the
    message thrown, and the following entries are attempted all the
    same. With three entries of which only the second is locked,
    [successful] holds entries 1 and 3, [failed] holds entry 2 and
    [totalFiles] is 3. *)
Theorem executeRenaming_continues_after_failure :
  (forall (World : Type) (host : Renamer.Host World)
          (entries : list Renamer.PreviewEntry)
          (progressCallback : option (Renamer.Callback World))
          (st : Renamer.State World),
     let '(result, st') :=
       Renamer.executeRenaming host entries progressCallback st in
     exists attempts : list Attempt,
       length attempts = length entries
       /\ Renamer.trace st'
          = Renamer.trace st
            ++ attemptsEvents (bool_decide (is_Some progressCallback))
                 (length entries) 0 entries attempts
       /\ (progressCallback = None ->
           Forall (fun a => exists answer, a = RenameAnswered answer) attempts)
       /\ Renamer.successful result = successes entries attempts
       /\ Renamer.failed result = failures entries attempts
       /\ Renamer.totalFiles result = length entries
       /\ (length (Renamer.successful result) + length (Renamer.failed result))%nat
          = length entries
       /\ (forall (k : nat) (item : Renamer.PreviewEntry) (message : string),
             entries !! k = Some item ->
             attempts !! k = Some (RenameAnswered (Thrown message)) ->
             failedOf item message ∈ Renamer.failed result))
  /\ (let result :=
        (Renamer.executeRenaming (Examples.folderHost [1%nat])
           Examples.threeEntries None (Examples.startIn Examples.threeFolder)).1 in
      Renamer.successful result
      = [renamedOf Examples.entry1; renamedOf Examples.entry3]
      /\ Renamer.failed result
         = [failedOf Examples.entry2 "File is locked or cannot be modified"]
      /\ Renamer.totalFiles result = 3%nat).
Proof.
  split.
  - intros World host entries progressCallback st.
    destruct (Renamer.executeRenaming host entries progressCallback st)
      as [result st'] eqn:Hrun.
    apply executeRenaming_spec in Hrun
      as (attempts & Hlen & Htrace & Hnone & Hok & Hko & Htotal & _).
    exists attempts. rewrite Hok, Hko.
    repeat split; auto.
    + apply successes_failures_length. exact Hlen.
    + intros k item message Hitem Ha.
      eapply failures_lookup; [exact Hitem|exact Ha|reflexivity].
  - vm_compute. auto.
Qed.

Lemma executeRenaming_continues_after_failure_witness :
  Examples.threeEntries !! 1%nat = Some Examples.entry2
  /\ failedOf Examples.entry2 "File is locked or cannot be modified"
     ∈ Renamer.failed
         (Renamer.executeRenaming (Examples.folderHost [1%nat])
            Examples.threeEntries None (Examples.startIn Examples.threeFolder)).1.
Proof.
  split; [reflexivity|].
  destruct executeRenaming_continues_after_failure as [Hgeneral _].
  specialize (Hgeneral Examples.Folder (Examples.folderHost [1%nat])
                Examples.threeEntries None (Examples.startIn Examples.threeFolder)).
  destruct (Renamer.executeRenaming (Examples.folderHost [1%nat])
              Examples.threeEntries None (Examples.startIn Examples.threeFolder))
    as [result st'] eqn:Hrun.
  destruct Hgeneral as (attempts & Hlen & Htrace & Hnone & _ & _ & _ & _ & Hfailed).
  apply (Hfailed 1%nat); [reflexivity|].
  assert (Renamer.trace st'
          = [Renamer.EvRenameFile 2%nat "img_1.png" (Returned true);
             Renamer.EvRenameFile 1%nat "img_2.jpg"
               (Thrown "File is locked or cannot be modified");
             Renamer.EvRenameFile 3%nat "img_3.jpg" (Returned true)]) as Hevents.
  { change st' with (result, st').2. rewrite <- Hrun. vm_compute. reflexivity. }
  rewrite Hevents in Htrace.
  destruct attempts as [|a1 [|a2 [|a3 [|a4 attempts]]]]; try discriminate.
  specialize (Hnone eq_refl).
  apply Forall_cons in Hnone as [[r1 ->] Hnone].
  apply Forall_cons in Hnone as [[r2 ->] Hnone].
  simpl in Htrace. injection Htrace as _ Hsecond _. rewrite <- Hsecond. reflexivity.
Defined.




(** ** The operation log *)

(** A renamer whose log holds one entry executes an empty plan: the log
    is empty afterwards, so [executeRenaming] itself clears the log
    (renamer.js:303) and the log is not append-only across runs. *)
Lemma executeRenaming_clears_log :
  Renamer.operationLog Examples.afterEarlierRun
    = [Renamer.mkLog 5 "rename" "old.txt" "doc_1.txt" "success" None]
  /\ Renamer.operationLog
       (Renamer.executeRenaming (Examples.folderHost []) [] None
          Examples.afterEarlierRun).2 = []
  /\ ~ (forall (entries : list Renamer.PreviewEntry)
               (progressCallback : option (Renamer.Callback Examples.Folder))
               (st : Renamer.State Examples.Folder),
          exists added : list Renamer.LogEntry,
            Renamer.operationLog
              (Renamer.executeRenaming (Examples.folderHost []) entries
                 progressCallback st).2
            = Renamer.operationLog st ++ added).
Proof.
  split; [reflexivity|]. split; [reflexivity|].
  intros Hclaim.
  destruct (Hclaim [] None Examples.afterEarlierRun) as [added Hadded].
  vm_compute in Hadded. discriminate.
Qed.

(** C9, as the code has it. [executeRenaming] first empties the
    operation log, then appends one entry for each entry attempted,
    whatever the outcome, in the order of the plan: afterwards the log
    holds the entries of that run and nothing older. During the run each
    iteration appends exactly one entry and removes none.
    [generatePreview] leaves the log as it is, and [clearLogs] empties it
    together with the collision resolutions. *)
Theorem operationLog_one_entry_per_attempt {World : Type}
    (host : Renamer.Host World) :
  (forall (entries : list Renamer.PreviewEntry)
          (progressCallback : option (Renamer.Callback World))
          (st : Renamer.State World),
     let log :=
       Renamer.operationLog
         (Renamer.executeRenaming host entries progressCallback st).2 in
     length log = length entries
     /\ map (fun e => (Renamer.log_originalName e, Renamer.log_newName e)) log
        = map (fun item => (Renamer.pe_originalName item, Renamer.pe_newName item))
            entries)
  /\ (forall (progressCallback : option (Renamer.Callback World)) (total i : nat)
             (item : Renamer.PreviewEntry) (results : Renamer.OperationResult)
             (st : Renamer.State World),
        exists entry : Renamer.LogEntry,
          Renamer.operationLog
            (Renamer.renameItem host progressCallback total i item results st).2
          = Renamer.operationLog st ++ [entry]
          /\ Renamer.log_originalName entry = Renamer.pe_originalName item
          /\ Renamer.log_newName entry = Renamer.pe_newName item)
  /\ (forall (files : list FileRecord) (pattern : string) (padding : nat)
             (options : Renamer.Options) (st : Renamer.State World),
        Renamer.operationLog
          (Renamer.generatePreview host files pattern padding options st).2
        = Renamer.operationLog st)
  /\ (forall st : Renamer.State World,
        Renamer.operationLog (Renamer.clearLogs st).2 = []
        /\ Renamer.collisionResolutions (Renamer.clearLogs st).2 = []).
Proof.
  split; [|split; [|split]].
  - intros entries progressCallback st log. subst log.
    destruct (Renamer.executeRenaming host entries progressCallback st)
      as [result st'] eqn:Hrun.
    apply executeRenaming_spec in Hrun
      as (attempts & Hlen & _ & _ & _ & _ & _ & Hlog & _).
    simpl.
    assert (length (Renamer.operationLog st') = length entries) as Hlength.
    { rewrite <- (length_map logged), Hlog, length_zip_with. lia. }
    split; [exact Hlength|].
    clear Hlength. revert attempts Hlen Hlog. generalize (Renamer.operationLog st').
    induction entries as [|item entries IH]; intros log [|a attempts] Hlen Hlog;
      simpl in *; try discriminate.
    + destruct log; [reflexivity|discriminate].
    + destruct log as [|e log]; [discriminate|]. simpl in Hlog.
      injection Hlog as _ Horiginal Hnew _ _ Hrest. simpl. f_equal.
      * congruence.
      * apply (IH log attempts); [lia|exact Hrest].
  - intros progressCallback total i item results st.
    destruct (Renamer.renameItem host progressCallback total i item results st)
      as [results' st'] eqn:Hrun.
    apply renameItem_spec in Hrun as (a & now & _ & _ & _ & _ & _ & _ & Hlog & _).
    simpl. eexists. split; [exact Hlog|]. split; reflexivity.
  - intros files pattern padding options st.
    destruct (Renamer.generatePreview host files pattern padding options st)
      as [result st'] eqn:Hrun.
    apply generatePreview_spec in Hrun as (Hlog & _). exact Hlog.
  - intros st. split; reflexivity.
Qed.

(** * Further properties *)

(** ** Planning: the calls made and the names chosen *)

Section PlanningDetails.
Import Renamer.
Context {World : Type} (host : Host World).

Lemma probes_app (pattern : string) (currentIndex : Z) (padding : nat)
    (ext : string) (a b : list (Outcome bool)) :
  forall offset : nat,
    probes pattern currentIndex padding ext offset (a ++ b)
    = probes pattern currentIndex padding ext offset a
      ++ probes pattern currentIndex padding ext (offset + length a) b.
Proof.
  induction a as [|x a IH]; intros offset; simpl.
  - rewrite Nat.add_0_r. reflexivity.
  - rewrite IH. replace (S offset + length a)%nat with (offset + S (length a))%nat
      by lia. reflexivity.
Qed.

Lemma probes_are_probes (pattern : string) (currentIndex : Z) (padding : nat)
    (ext : string) (answers : list (Outcome bool)) :
  forall offset : nat,
    forallb isExistenceProbe (probes pattern currentIndex padding ext offset answers)
    = true
    /\ length (probes pattern currentIndex padding ext offset answers)
       = length answers.
Proof.
  induction answers as [|x answers IH]; intros offset; simpl; [auto|].
  destruct (IH (S offset)) as [-> ->]. auto.
Qed.

(** One iteration of the planning loop, in full: the entry added, the
    record pushed to [collisionResolutions], and the calls made. *)
Lemma planFile_detail (files : list FileRecord) (pattern : string) (padding : nat)
    (resolve : bool) (i : nat) (file : FileRecord) (l : Loop)
    (st st' : State World) (r : PreviewResult + Loop) :
  planFile host files pattern padding resolve i file l st = (r, st') ->
  exists tr : list Event,
    trace st' = trace st ++ tr
    /\ forallb isExistenceProbe tr = true
    /\ (length tr <= 1001)%nat
    /\ (resolve = false -> tr = [] /\ world st' = world st)
    /\ match r with
       | inl _ => True
       | inr l' =>
           exists e : PreviewEntry,
             l_previewData l' = l_previewData l ++ [e]
             /\ l_collisionResolutions l'
                = l_collisionResolutions l
                  ++ expectedResolutions (l_currentIndex l) [e]
             /\ l_currentIndex l' = pe_actualIndex e + 1
             /\ Forall withinProbeBound (expectedResolutions (l_currentIndex l) [e])
             /\ (resolve = true ->
                 (pe_newName e ∉ map name files)
                 /\ last tr = Some (EvFileExists (pe_newName e) (Returned false)))
             /\ (resolve = false ->
                 pe_collisionResolved e = false
                 /\ pe_actualIndex e = l_currentIndex l)
       end.
Proof.
  unfold planFile, bind, ret. intros Hrun.
  destruct resolve.
  - destruct (checkForCollisions host _ files st) as [check st0] eqn:Hcheck.
    apply checkForCollisions_spec in Hcheck as (answer & w & _ & Hhas & ->).
    destruct (hasCollisions check) eqn:Hcollides.
    + destruct (resolveCollision host pattern (l_currentIndex l) padding
                  (extension file) files 1000 _) as [resolution st1] eqn:Hresolve.
      apply resolveLoop_spec in Hresolve as (answers & Htrace & _ & _ & Hr).
      simpl in Htrace.
      destruct (probes_are_probes pattern (l_currentIndex l) padding
                  (extension file) answers 0) as [Hprobes Hlen].
      exists ([EvFileExists
                 (generateNewName pattern (l_currentIndex l) padding (extension file))
                 answer]
              ++ probes pattern (l_currentIndex l) padding (extension file) 0 answers).
      destruct resolution as [newName newIndex used originalIndex
                             |used originalIndex error].
      * destruct Hr as ((before & final & -> & _ & Hfree) & -> & Hle & -> & -> & _).
        simpl in Hrun. simpl Nat.add in *.
        assert (trace st' = trace st1 /\ match r with inl _ => True | inr _ => True end)
          as [Hst _] by (case_bool_decide; injection Hrun as <- <-; auto).
        rewrite Hst, Htrace, <- app_assoc. split; [reflexivity|].
        split; [simpl; exact Hprobes|].
        split; [simpl; rewrite Hlen; lia|]. split; [discriminate|].
        case_bool_decide as Hused; injection Hrun as <- <-; [exact I|].
        eexists. split; [reflexivity|].
        cbn [expectedResolutions pe_collisionResolved pe_file pe_originalName
               pe_newName pe_actualIndex l_collisionResolutions l_currentIndex].
        rewrite Z.add_simpl_l, Nat2Z.id, app_nil_r. split; [reflexivity|].
        split; [reflexivity|]. split.
        { constructor; [|constructor]. unfold withinProbeBound. simpl.
          rewrite length_app in *. simpl in *. split; [reflexivity|lia]. }
        split; [|discriminate]. intros _.
        unfold colliding in Hfree. apply orb_false_elim in Hfree as [Hnames Hanswer].
        split; [apply bool_decide_eq_false in Hnames; exact Hnames|].
        rewrite probes_app. cbn [probes]. rewrite app_assoc, last_snoc.
        destruct final as [[|]|]; try discriminate.
        rewrite length_app. simpl. do 3 f_equal. lia.
      * injection Hrun as <- <-. rewrite Htrace, <- app_assoc.
        destruct Hr as (Hall & _).
        split; [reflexivity|]. split; [simpl; exact Hprobes|].
        split; [simpl; rewrite Hlen; lia|]. split; [discriminate|exact I].
    + exists [EvFileExists
                (generateNewName pattern (l_currentIndex l) padding (extension file))
                answer].
      simpl in Hrun.
      assert (trace st' = trace st ++ [EvFileExists
                (generateNewName pattern (l_currentIndex l) padding (extension file))
                answer]) as Hst by (case_bool_decide; injection Hrun as <- <-; auto).
      split; [exact Hst|]. split; [reflexivity|]. split; [simpl; lia|].
      split; [discriminate|].
      case_bool_decide as Hused; injection Hrun as <- <-; [exact I|].
      eexists. simpl. split; [reflexivity|]. split; [symmetry; apply app_nil_r|].
      split; [reflexivity|]. split; [constructor|]. split; [|discriminate].
      intros _. symmetry in Hhas. unfold colliding in Hhas.
      apply orb_false_elim in Hhas as [Hnames Hanswer].
      split; [apply bool_decide_eq_false in Hnames; exact Hnames|].
      destruct answer as [[|]|]; try discriminate. reflexivity.
  - exists []. simpl in Hrun. rewrite app_nil_r.
    case_bool_decide as Hused; injection Hrun as <- <-;
      (split; [reflexivity|]); (split; [reflexivity|]); (split; [simpl; lia|]);
      (split; [auto|]); [exact I|].
    eexists. simpl. split; [reflexivity|]. split; [symmetry; apply app_nil_r|].
    split; [reflexivity|]. split; [constructor|]. split; [discriminate|auto].
Qed.
End PlanningDetails.

Lemma planLoop_detail {World : Type} (host : Renamer.Host World)
    (files : list FileRecord) (pattern : string) (padding : nat) (resolve : bool)
    (rest : list FileRecord) :
  forall (i : nat) (l : Renamer.Loop) (st st' : Renamer.State World)
         (r : Renamer.PreviewResult + Renamer.Loop),
    Renamer.planLoop host files pattern padding resolve i rest l st = (r, st') ->
    exists tr : list Renamer.Event,
      Renamer.trace st' = Renamer.trace st ++ tr
      /\ forallb isExistenceProbe tr = true
      /\ (length tr <= 1001 * length rest)%nat
      /\ (resolve = false -> tr = [] /\ Renamer.world st' = Renamer.world st)
      /\ match r with
         | inl _ => True
         | inr l' =>
             exists added : list Renamer.PreviewEntry,
               length added = length rest
               /\ Renamer.l_previewData l' = Renamer.l_previewData l ++ added
               /\ Renamer.l_collisionResolutions l'
                  = Renamer.l_collisionResolutions l
                    ++ expectedResolutions (Renamer.l_currentIndex l) added
               /\ Forall withinProbeBound
                    (expectedResolutions (Renamer.l_currentIndex l) added)
               /\ (resolve = true ->
                   Forall (fun e =>
                             (Renamer.pe_newName e ∉ map name files)
                             /\ Renamer.EvFileExists (Renamer.pe_newName e)
                                  (Returned false) ∈ tr) added)
               /\ (resolve = false ->
                   Forall (fun e => Renamer.pe_collisionResolved e = false) added
                   /\ map Renamer.pe_actualIndex added
                      = map (fun k => Renamer.l_currentIndex l + Z.of_nat k)
                          (seq 0 (length added)))
         end.
Proof.
  induction rest as [|file rest IH]; intros i l st st' r Hrun.
  - injection Hrun as <- <-. exists []. rewrite app_nil_r.
    split; [reflexivity|]. split; [reflexivity|]. split; [simpl; lia|].
    split; [auto|]. exists []. simpl. rewrite !app_nil_r.
    repeat split; auto; constructor.
  - simpl in Hrun. unfold Renamer.bind in Hrun.
    destruct (Renamer.planFile host files pattern padding resolve i file l st)
      as [[failed|l1] st1] eqn:Hfile;
      apply planFile_detail in Hfile as (tr1 & Htr1 & Hp1 & Hlen1 & Hoff1 & Hr1).
    + injection Hrun as <- <-. exists tr1.
      split; [exact Htr1|]. split; [exact Hp1|]. split; [simpl; lia|].
      split; [exact Hoff1|exact I].
    + apply IH in Hrun as (tr2 & Htr2 & Hp2 & Hlen2 & Hoff2 & Hr2).
      exists (tr1 ++ tr2). rewrite Htr2, Htr1, <- app_assoc.
      split; [reflexivity|]. split; [rewrite forallb_app, Hp1, Hp2; reflexivity|].
      split; [rewrite length_app; simpl; lia|]. split.
      { intros Hoff. destruct (Hoff1 Hoff) as [-> Hw1].
        destruct (Hoff2 Hoff) as [-> Hw2]. split; [reflexivity|congruence]. }
      destruct r as [failed|l']; [exact I|].
      destruct Hr1 as (e & Hdata1 & Hres1 & Hnext1 & Hbound1 & Hfree1 & Hplain1).
      destruct Hr2 as (added & Hadded & Hdata2 & Hres2 & Hbound2 & Hfree2 & Hplain2).
      exists (e :: added). simpl.
      rewrite Hdata2, Hdata1, Hres2, Hres1, Hnext1, <- !app_assoc. simpl.
      rewrite app_nil_r.
      split; [lia|]. split; [reflexivity|]. split; [reflexivity|]. split.
      { simpl in Hbound1. rewrite app_nil_r in Hbound1. rewrite Hnext1 in Hbound2.
        apply Forall_app. split; assumption. }
      split.
      * intros Hon. destruct (Hfree1 Hon) as [Hnew Hlast].
        constructor.
        -- split; [exact Hnew|]. apply elem_of_app. left.
           apply last_Some_elem_of. exact Hlast.
        -- eapply Forall_impl; [exact (Hfree2 Hon)|]. simpl.
           intros e' [Hnew' Hin']. split; [exact Hnew'|].
           apply elem_of_app. right. exact Hin'.
      * intros Hoff. destruct (Hplain1 Hoff) as [Hres Hindex].
        destruct (Hplain2 Hoff) as [Hall Hindices].
        split; [constructor; assumption|].
        rewrite Hindex, Hindices, Hnext1, Hindex. simpl. f_equal; [lia|].
        rewrite <- (fmap_S_seq 0). rewrite <- list_fmap_compose.
        apply list_fmap_ext. intros k j _. simpl. lia.
Qed.


Lemma generatePreview_detail {World : Type} (host : Renamer.Host World)
    (files : list FileRecord) (pattern : string) (padding : nat)
    (options : Renamer.Options) (st st' : Renamer.State World)
    (result : Renamer.PreviewResult) :
  Renamer.generatePreview host files pattern padding options st = (result, st') ->
  let resolve := default true (Renamer.resolveCollisions options) in
  let start := default 1 (Renamer.startIndex options) in
  exists tr : list Renamer.Event,
    Renamer.trace st' = Renamer.trace st ++ tr
    /\ forallb isExistenceProbe tr = true
    /\ (length tr <= 1001 * length files)%nat
    /\ (Renamer.isValid (Renamer.validatePattern pattern) = false -> tr = [])
    /\ (resolve = false -> tr = [] /\ Renamer.world st' = Renamer.world st)
    /\ (Renamer.success result = true ->
        Renamer.pr_collisionResolutions result
        = Some (expectedResolutions start (Renamer.previewData result))
        /\ Renamer.collisionResolutions st'
           = expectedResolutions start (Renamer.previewData result)
        /\ Forall withinProbeBound
             (expectedResolutions start (Renamer.previewData result))
        /\ (resolve = true ->
            Forall (fun e =>
                      (Renamer.pe_newName e ∉ map name files)
                      /\ Renamer.EvFileExists (Renamer.pe_newName e)
                           (Returned false) ∈ tr) (Renamer.previewData result))
        /\ (resolve = false ->
            Forall (fun e => Renamer.pe_collisionResolved e = false)
              (Renamer.previewData result)
            /\ map Renamer.pe_actualIndex (Renamer.previewData result)
               = map (fun k => start + Z.of_nat k) (seq 0 (length files)))).
Proof.
  intros Hrun resolve start. unfold Renamer.generatePreview in Hrun.
  fold resolve start in Hrun.
  destruct (Renamer.isValid (Renamer.validatePattern pattern)) eqn:Hvalid;
    simpl in Hrun.
  - unfold Renamer.bind in Hrun.
    destruct (Renamer.planLoop host files pattern padding resolve 0 files _ st)
      as [r st1] eqn:Hloop.
    pose proof (planLoop_spec host files pattern padding start resolve files []
                  _ _ _ _ (PlanInvariant_init pattern padding start) Hloop)
      as Hshape.
    apply planLoop_detail in Hloop as (tr & Htr & Hp & Hlen & Hoff & Hr).
    destruct r as [failed|l]; injection Hrun as <- <-; exists tr; simpl.
    + split; [exact Htr|]. split; [exact Hp|]. split; [exact Hlen|].
      split; [discriminate|]. split; [exact Hoff|].
      intros Hsuccess. exfalso.
      destruct Hshape as (_ & _ & before & file & later & l1 & _ & _ & Hout).
      destruct Hout as [[_ ->]|(newName & _ & ->)]; discriminate.
    + destruct Hr as (added & Hadded & Hdata & Hres & Hbound & Hfree & Hplain).
      simpl in Hdata, Hres, Hbound. subst added.
      split; [exact Htr|]. split; [exact Hp|]. split; [exact Hlen|].
      split; [discriminate|]. split; [exact Hoff|].
      intros _. rewrite Hres. split; [reflexivity|]. split; [reflexivity|].
      split; [exact Hbound|]. split; [exact Hfree|]. intros Hoff'. destruct (Hplain Hoff') as [Hall Hidx].
      split; [exact Hall|]. rewrite Hidx, Hadded. reflexivity.
  - injection Hrun as <- <-. exists []. rewrite app_nil_r. simpl.
    split; [reflexivity|]. split; [reflexivity|]. split; [lia|].
    split; [reflexivity|]. split; [auto|discriminate].
Qed.

(** X1. With collision resolution on, every new name of a successful
    plan is free: no input file has that name, and the folder was asked
    about that very name during this planning and answered that it does
    not exist. *)
Theorem generatePreview_names_are_free {World : Type} (host : Renamer.Host World)
    (files : list FileRecord) (pattern : string) (padding : nat)
    (options : Renamer.Options) (st : Renamer.State World) :
  Renamer.resolveCollisions options <> Some false ->
  let run := Renamer.generatePreview host files pattern padding options st in
  Renamer.success run.1 = true ->
  exists tr : list Renamer.Event,
    Renamer.trace run.2 = Renamer.trace st ++ tr
    /\ forall e : Renamer.PreviewEntry,
         e ∈ Renamer.previewData run.1 ->
         (Renamer.pe_newName e ∉ map name files)
         /\ Renamer.EvFileExists (Renamer.pe_newName e) (Returned false) ∈ tr.
Proof.
  intros Hon run Hsuccess. subst run.
  destruct (Renamer.generatePreview host files pattern padding options st)
    as [result st'] eqn:Hrun.
  apply generatePreview_detail in Hrun
    as (tr & Htr & _ & _ & _ & _ & Hgood). simpl in *.
  destruct (Hgood Hsuccess) as (_ & _ & _ & Hfree & _).
  exists tr. split; [exact Htr|].
  intros e He. assert (default true (Renamer.resolveCollisions options) = true) as Hd.
  { destruct (Renamer.resolveCollisions options) as [[|]|]; simpl; congruence. }
  specialize (Hfree Hd). rewrite Forall_forall in Hfree. exact (Hfree e He).
Qed.

Lemma generatePreview_names_are_free_witness :
  let run :=
    Renamer.generatePreview (Examples.folderHost [])
      [Examples.a_jpg; Examples.file_001_jpg] "file_{number}" 3 Examples.defaults
      (Examples.startIn Examples.takenFolder) in
  Renamer.success run.1 = true
  /\ exists tr : list Renamer.Event,
       Renamer.trace run.2 = [] ++ tr
       /\ forall e : Renamer.PreviewEntry,
            e ∈ Renamer.previewData run.1 ->
            (Renamer.pe_newName e ∉ map name [Examples.a_jpg; Examples.file_001_jpg])
            /\ Renamer.EvFileExists (Renamer.pe_newName e) (Returned false) ∈ tr.
Proof.
  intros run.
  assert (Renamer.success run.1 = true) as Hsuccess by (vm_compute; reflexivity).
  split; [exact Hsuccess|].
  apply (generatePreview_names_are_free (Examples.folderHost [])
           [Examples.a_jpg; Examples.file_001_jpg] "file_{number}" 3
           Examples.defaults (Examples.startIn Examples.takenFolder));
    [discriminate|exact Hsuccess].
Defined.







Lemma validatePattern_errors (pattern : string) :
  Renamer.isValid (Renamer.validatePattern pattern) = true
  <-> Renamer.validationErrors (Renamer.validatePattern pattern) = [].
Proof.
  unfold Renamer.validatePattern.
  destruct (JsString.isEmpty pattern || JsString.isEmpty (JsString.trim pattern));
    simpl; [split; discriminate|].
  match goal with |- Nat.eqb (length ?l) 0 = true <-> _ => destruct l end;
    simpl; split; auto; discriminate.
Qed.

(** X5. The result of [generatePreview] reports success exactly when it
    carries no error message. A plan that is not successful carries no
    collision resolutions and leaves those of the renamer as they were,
    so [getCollisionResolutions] still returns the list of the last
    successful plan. *)
Theorem generatePreview_success_iff_no_error {World : Type}
    (host : Renamer.Host World) (files : list FileRecord) (pattern : string)
    (padding : nat) (options : Renamer.Options) (st : Renamer.State World) :
  let run := Renamer.generatePreview host files pattern padding options st in
  (Renamer.success run.1 = true <-> Renamer.errors run.1 = [])
  /\ (Renamer.success run.1 = false ->
      Renamer.pr_collisionResolutions run.1 = None
      /\ (Renamer.getCollisionResolutions run.2).1
         = (Renamer.getCollisionResolutions st).1).
Proof.
  intros run. subst run.
  destruct (Renamer.generatePreview host files pattern padding options st)
    as [result st'] eqn:Hrun.
  apply generatePreview_spec in Hrun as (_ & Hcases). simpl in *.
  destruct Hcases as [(Hinvalid & -> & ->)
                     |[(_ & Hfail & Hres & before & file & later & l1 & _ & _ & Hout)
                      |(_ & l & _ & -> & _)]]; simpl.
  - split; [|auto]. split; [discriminate|].
    intros Hnone. apply validatePattern_errors in Hnone. congruence.
  - destruct Hout as [[_ ->]|(newName & _ & ->)]; simpl;
      (split; [split; discriminate|auto]).
  - split; [tauto|discriminate].
Qed.

Lemma generatePreview_success_iff_no_error_witness :
  let st :=
    Renamer.mkState (Examples.mkFolder Examples.crowdedFolder 0) [] []
      [Renamer.mkResolution Examples.a_jpg "a.jpg" 1 "img_2.jpg" 2 1] in
  let run :=
    Renamer.generatePreview (Examples.folderHost []) [Examples.a_jpg]
      "file_{number}" 3 Examples.defaults st in
  Renamer.success run.1 = false
  /\ (Renamer.getCollisionResolutions run.2).1
     = [Renamer.mkResolution Examples.a_jpg "a.jpg" 1 "img_2.jpg" 2 1].
Proof.
  intros st run.
  assert (Renamer.success run.1 = false) as Hfailed by (vm_compute; reflexivity).
  split; [exact Hfailed|].
  destruct (generatePreview_success_iff_no_error (Examples.folderHost [])
              [Examples.a_jpg] "file_{number}" 3 Examples.defaults st)
    as (_ & Hkept).
  exact (proj2 (Hkept Hfailed)).
Defined.

(** ** Execution: notifications, calls and the log *)

Lemma attemptsEvents_projections (withCallback : bool) (total : nat)
    (items : list Renamer.PreviewEntry) :
  forall (i : nat) (attempts : list Attempt),
    length attempts = length items ->
    notifications (attemptsEvents withCallback total i items attempts)
    = (if withCallback then
         imap (fun k item =>
                 (Z.of_nat (i + k) + 1, Z.of_nat total,
                  Renamer.pe_originalName item, Renamer.pe_newName item)) items
       else notifications (attemptsEvents withCallback total i items attempts))
    /\ renameCalls (attemptsEvents withCallback total i items attempts)
       `sublist_of` map (fun item => (handle (Renamer.pe_file item),
                                      Renamer.pe_newName item)) items
    /\ (Forall (fun a => exists answer, a = RenameAnswered answer) attempts ->
        renameCalls (attemptsEvents withCallback total i items attempts)
        = map (fun item => (handle (Renamer.pe_file item),
                            Renamer.pe_newName item)) items).
Proof.
  induction items as [|item items IH]; intros i [|a attempts] Hlen;
    simpl in *; try discriminate.
  - destruct withCallback; repeat split; auto; constructor.
  - destruct (IH (S i) attempts ltac:(lia)) as (Hnotes & Hsub & Hall).
    unfold notifications, renameCalls in *.
    rewrite !omap_app. split; [|split].
    + destruct withCallback; [|reflexivity].
      rewrite Hnotes. rewrite Nat.add_0_r.
      destruct a as [message|answer]; simpl; f_equal;
        apply imap_ext; intros k x _; simpl; do 3 f_equal; lia.
    + destruct a as [message|answer]; simpl.
      * apply sublist_cons. exact Hsub.
      * destruct withCallback; simpl; apply sublist_skip; exact Hsub.
    + intros Hren. apply Forall_cons in Hren as [[answer ->] Hren].
      rewrite (Hall Hren). destruct withCallback; reflexivity.
Qed.


(** X7. The calls that [executeRenaming] makes to [renameFile] are
    made in the order of the plan, each with the handle and the new name
    of an entry, at most one for each entry; without a progress callback
    there is exactly one call for each entry. *)
Theorem executeRenaming_rename_calls {World : Type} (host : Renamer.Host World)
    (entries : list Renamer.PreviewEntry)
    (progressCallback : option (Renamer.Callback World))
    (st : Renamer.State World) :
  let run := Renamer.executeRenaming host entries progressCallback st in
  let planned :=
    map (fun item => (handle (Renamer.pe_file item), Renamer.pe_newName item))
      entries in
  exists tr : list Renamer.Event,
    Renamer.trace run.2 = Renamer.trace st ++ tr
    /\ renameCalls tr `sublist_of` planned
    /\ (progressCallback = None -> renameCalls tr = planned).
Proof.
  intros run planned. subst run planned.
  destruct (Renamer.executeRenaming host entries progressCallback st)
    as [result st'] eqn:Hrun.
  apply executeRenaming_spec in Hrun as (attempts & Hlen & Htrace & Hnone & _).
  simpl. eexists. split; [exact Htrace|].
  destruct (attemptsEvents_projections (bool_decide (is_Some progressCallback))
              (length entries) entries 0 attempts Hlen) as (_ & Hsub & Hall).
  split; [exact Hsub|]. intros Hcb. apply Hall, Hnone, Hcb.
Qed.

Lemma executeRenaming_rename_calls_witness :
  let run :=
    Renamer.executeRenaming (Examples.folderHost [1%nat]) Examples.threeEntries
      None (Examples.startIn Examples.threeFolder) in
  exists tr : list Renamer.Event,
    Renamer.trace run.2 = [] ++ tr
    /\ renameCalls tr
       = [(2%nat, "img_1.png"); (1%nat, "img_2.jpg"); (3%nat, "img_3.jpg")].
Proof.
  intros run.
  destruct (executeRenaming_rename_calls (Examples.folderHost [1%nat])
              Examples.threeEntries None (Examples.startIn Examples.threeFolder))
    as (tr & Htrace & _ & Hall).
  exists tr. split; [exact Htrace|]. exact (Hall eq_refl).
Defined.


(** ** The answers recorded in the trace are the answers of the host *)

Section TraceSoundness.
Import Renamer.
Context {World : Type} (host : Host World).
Context (progressCallback : option (Callback World)) (Inv : World -> Prop).
Context (HInv : Keeps host progressCallback Inv).

Lemma extends_refl (st : State World) : extends host progressCallback Inv st st.
Proof.
  intros Hw. split; [exact Hw|].
  exists []. rewrite app_nil_r. split; [reflexivity|constructor].
Qed.

Lemma extends_trans (st1 st2 st3 : State World) :
  extends host progressCallback Inv st1 st2 -> extends host progressCallback Inv st2 st3 -> extends host progressCallback Inv st1 st3.
Proof.
  intros H12 H23 Hw.
  destruct (H12 Hw) as (Hw2 & tr1 & H1 & J1).
  destruct (H23 Hw2) as (Hw3 & tr2 & H2 & J2).
  split; [exact Hw3|]. exists (tr1 ++ tr2).
  rewrite H2, H1, app_assoc. split; [reflexivity|]. apply Forall_app. auto.
Qed.

Lemma checkForCollisions_extends (newName : string) (files : list FileRecord)
    (st : State World) :
  extends host progressCallback Inv st (checkForCollisions host newName files st).2.
Proof.
  unfold checkForCollisions, bind, call_fileExists, ret. intros Hw.
  pose proof (keeps_fileExists _ _ _ HInv newName _ Hw) as Hkeep.
  destruct (fileExists host newName (world st)) as [answer w] eqn:Hcall. simpl.
  split; [exact Hkeep|].
  exists [EvFileExists newName answer]. split; [reflexivity|].
  constructor; [|constructor]. exists (world st). rewrite Hcall. auto.
Qed.

Lemma resolveLoop_extends (pattern : string) (currentIndex : Z) (padding : nat)
    (ext : string) (files : list FileRecord) (maxAttempts : nat) :
  forall (remaining attempts : nat) (st : State World),
    extends host progressCallback Inv st
      (resolveLoop host pattern currentIndex padding ext files maxAttempts
         remaining attempts st).2.
Proof.
  induction remaining as [|remaining IH]; intros attempts st; simpl.
  - apply extends_refl.
  - unfold bind.
    pose proof (checkForCollisions_extends
                  (generateNewName pattern (currentIndex + Z.of_nat attempts + 1)
                     padding ext) files st) as Hcheck.
    destruct (checkForCollisions host _ files st) as [check st1]. simpl in Hcheck.
    destruct (hasCollisions check); simpl; [|exact Hcheck].
    eapply extends_trans; [exact Hcheck|apply IH].
Qed.

Lemma planFile_extends (files : list FileRecord) (pattern : string) (padding : nat)
    (resolve : bool) (i : nat) (file : FileRecord) (l : Loop) (st : State World) :
  extends host progressCallback Inv st (planFile host files pattern padding resolve i file l st).2.
Proof.
  unfold planFile, bind, ret. destruct resolve.
  - pose proof (checkForCollisions_extends
                  (generateNewName pattern (l_currentIndex l) padding
                     (extension file)) files st) as Hcheck.
    destruct (checkForCollisions host _ files st) as [check st0]. simpl in Hcheck.
    destruct (hasCollisions check).
    + pose proof (resolveLoop_extends pattern (l_currentIndex l) padding
                    (extension file) files 1000 1000 0 st0) as Hresolve.
      unfold resolveCollision.
      destruct (resolveLoop host pattern (l_currentIndex l) padding
                  (extension file) files 1000 1000 0 st0) as [resolution st1].
      simpl in Hresolve.
      assert (extends host progressCallback Inv st st1) as Hboth
        by (eapply extends_trans; eassumption).
      destruct resolution; simpl; [case_bool_decide|]; exact Hboth.
    + simpl. case_bool_decide; exact Hcheck.
  - simpl. case_bool_decide; apply extends_refl.
Qed.

Lemma planLoop_extends (files : list FileRecord) (pattern : string) (padding : nat)
    (resolve : bool) (rest : list FileRecord) :
  forall (i : nat) (l : Loop) (st : State World),
    extends host progressCallback Inv st (planLoop host files pattern padding resolve i rest l st).2.
Proof.
  induction rest as [|file rest IH]; intros i l st; simpl.
  - apply extends_refl.
  - unfold bind.
    pose proof (planFile_extends files pattern padding resolve i file l st) as Hfile.
    destruct (planFile host files pattern padding resolve i file l st)
      as [[failed|l1] st1]; simpl in *; [exact Hfile|].
    eapply extends_trans; [exact Hfile|apply IH].
Qed.

Lemma generatePreview_extends (files : list FileRecord) (pattern : string)
    (padding : nat) (options : Options) (st : State World) :
  extends host progressCallback Inv st (generatePreview host files pattern padding options st).2.
Proof.
  unfold generatePreview.
  destruct (isValid (validatePattern pattern)); simpl; [|apply extends_refl].
  unfold bind.
  pose proof (planLoop_extends files pattern padding
                (default true (resolveCollisions options)) files 0
                (mkLoop [] ∅ [] (default 1 (startIndex options))) st) as Hloop.
  destruct (planLoop host files pattern padding _ 0 files _ st) as [[failed|l] st1];
    simpl in *; [exact Hloop|].
  intros Hw. destruct (Hloop Hw) as (Hw1 & tr & Htrace & Hjust).
  split; [exact Hw1|]. exists tr. split; assumption.
Qed.



End TraceSoundness.


(** ** The file system manager *)

Section ManagerFacts.
Import FileSystemManager.
Context {World : Type} (browser : Browser World).

Lemma renameError_message (error : DomError) : isRenameMessage (renameError error).
Proof.
  unfold renameError, isRenameMessage.
  destruct (String.eqb (errorName error) "NotAllowedError"); [eauto|].
  destruct (String.eqb (errorName error) "NotFoundError"); [auto|].
  destruct (String.eqb (errorName error) "NoModificationAllowedError"); eauto.
Qed.

Lemma renameFile_spec (fileHandle : Handle) (newName : string) (w : World) :
  match checkNewName newName with
  | Some message =>
      renameFile browser fileHandle newName w
      = (Thrown ("Failed to rename file: " +:+ message), w)
  | None =>
      renameFile browser fileHandle newName w
      = (match (move browser fileHandle newName w).1 with
         | None => Returned true
         | Some error => Thrown (renameError error)
         end, (move browser fileHandle newName w).2)
  end.
Proof.
  unfold renameFile. destruct (checkNewName newName) as [message|]; [reflexivity|].
  destruct (move browser fileHandle newName w) as [[error|] w']; reflexivity.
Qed.


Lemma fileExists_spec (fileName : string) (m : Manager) (w : World) :
  exists found : bool,
    (fileExists browser fileName m w).1 = Returned found
    /\ (found = false <->
        directoryHandle m = None
        \/ exists d error,
             directoryHandle m = Some d
             /\ (getFileHandle browser d fileName w).1 = Some error
             /\ errorName error = "NotFoundError").
Proof.
  unfold fileExists. destruct (directoryHandle m) as [d|].
  - destruct (getFileHandle browser d fileName w) as [[error|] w'] eqn:Hcall; simpl.
    + destruct (String.eqb_spec (errorName error) "NotFoundError") as [Hname|Hname];
        simpl; eexists; (split; [reflexivity|]).
      * split; [|reflexivity]. intros _. right. exists d, error.
        rewrite Hcall. auto.
      * split; [discriminate|].
        intros [Hnone|(d' & error' & [= <-] & Herror & Hname')]; [discriminate|].
        rewrite Hcall in Herror. simpl in Herror. congruence.
    + exists true. split; [reflexivity|]. split; [discriminate|].
      intros [Hnone|(d' & error' & [= <-] & Herror & _)]; [discriminate|].
      rewrite Hcall in Herror. discriminate.
  - exists false. split; [reflexivity|]. split; auto.
Qed.

End ManagerFacts.

(** X9. [FileSystemManager.renameFile] never returns false: it returns
    true or throws, and what it throws is one of its four messages. A
    name that fails its own checks is refused before the browser is
    asked, with the message of the check after
    [Failed to rename file: ]. *)
Theorem renameFile_true_or_throws {World : Type}
    (browser : FileSystemManager.Browser World) (fileHandle : Handle)
    (newName : string) (w : World) :
  let run := FileSystemManager.renameFile browser fileHandle newName w in
  run.1 <> Returned false
  /\ (forall message, run.1 = Thrown message -> isRenameMessage message)
  /\ (forall message,
        FileSystemManager.checkNewName newName = Some message ->
        run = (Thrown ("Failed to rename file: " +:+ message), w))
  /\ (run.1 = Returned true ->
      FileSystemManager.checkNewName newName = None
      /\ (FileSystemManager.move browser fileHandle newName w).1 = None).
Proof.
  intros run. subst run.
  pose proof (renameFile_spec browser fileHandle newName w) as Hspec.
  destruct (FileSystemManager.checkNewName newName) as [message|].
  - rewrite Hspec. simpl. split; [discriminate|].
    split; [intros ? [= <-]; right; right; right; eauto|].
    split; [intros ? [= <-]; reflexivity|discriminate].
  - rewrite Hspec. simpl.
    destruct (FileSystemManager.move browser fileHandle newName w).1 as [error|].
    + split; [discriminate|].
      split; [intros ? [= <-]; apply renameError_message|].
      split; discriminate.
    + split; [discriminate|]. split; [discriminate|]. split; [discriminate|auto].
Qed.

Lemma renameFile_true_or_throws_witness :
  FileSystemManager.renameFile ManagerExamples.diskBrowser 1%nat "a:b.jpg"
    ManagerExamples.photos
  = (Thrown "Failed to rename file: File name contains invalid characters",
     ManagerExamples.photos).
Proof.
  apply (renameFile_true_or_throws ManagerExamples.diskBrowser 1%nat "a:b.jpg"
           ManagerExamples.photos).
  reflexivity.
Defined.

(** X10. [FileSystemManager.fileExists] never throws. It answers false
    in two cases only: no directory is selected, and then the browser is
    not asked; or the browser rejects the lookup with [NotFoundError].
    Any other rejection counts as an existing file. *)
Theorem fileExists_never_throws {World : Type}
    (browser : FileSystemManager.Browser World) (fileName : string)
    (m : FileSystemManager.Manager) (w : World) :
  let run := FileSystemManager.fileExists browser fileName m w in
  exists found : bool,
    run.1 = Returned found
    /\ (found = false <->
        FileSystemManager.directoryHandle m = None
        \/ exists d error,
             FileSystemManager.directoryHandle m = Some d
             /\ (FileSystemManager.getFileHandle browser d fileName w).1 = Some error
             /\ FileSystemManager.errorName error = "NotFoundError")
    /\ (FileSystemManager.directoryHandle m = None -> run.2 = w)
    /\ (FileSystemManager.fileExists browser fileName
          (FileSystemManager.clear m) w = (Returned false, w)).
Proof.
  intros run. subst run.
  destruct (fileExists_spec browser fileName m w) as (found & Hrun & Hfound).
  exists found. split; [exact Hrun|]. split; [exact Hfound|].
  split; [|reflexivity].
  intros Hnone. unfold FileSystemManager.fileExists. rewrite Hnone. reflexivity.
Qed.

Lemma fileExists_never_throws_witness :
  (FileSystemManager.fileExists ManagerExamples.diskBrowser "a.jpg"
     ManagerExamples.unselected ManagerExamples.photos).2
  = ManagerExamples.photos.
Proof.
  destruct (fileExists_never_throws ManagerExamples.diskBrowser "a.jpg"
              ManagerExamples.unselected ManagerExamples.photos)
    as (found & _ & _ & Hsame & _).
  apply Hsame. reflexivity.
Defined.






(** ** The executor and its host *)







Section ManagerAsHost.
Import FileSystemManager.
Context {World : Type} (browser : Browser World) (now : World -> Z * World).

Lemma asHost_renameFile (fileHandle : Handle) (newName : string)
    (mw : Manager * World) :
  Renamer.renameFile (asHost browser now) fileHandle newName mw
  = ((renameFile browser fileHandle newName mw.2).1,
     (mw.1, (renameFile browser fileHandle newName mw.2).2)).
Proof. simpl. destruct (renameFile browser fileHandle newName mw.2). reflexivity. Qed.

Lemma asHost_fileExists (fileName : string) (mw : Manager * World) :
  Renamer.fileExists (asHost browser now) fileName mw
  = ((fileExists browser fileName mw.1 mw.2).1,
     (mw.1, (fileExists browser fileName mw.1 mw.2).2)).
Proof. simpl. destruct (fileExists browser fileName mw.1 mw.2). reflexivity. Qed.

Lemma asHost_dateNow (mw : Manager * World) :
  Renamer.dateNow (asHost browser now) mw = ((now mw.2).1, (mw.1, (now mw.2).2)).
Proof. simpl. destruct (now mw.2). reflexivity. Qed.

(** Neither the planner nor the executor changes the fields of the
    manager. *)
Lemma asHost_keeps_manager (m : Manager) :
  Keeps (asHost browser now) None (fun mw => mw.1 = m).
Proof.
  constructor.
  - intros fileName mw Hm. rewrite asHost_fileExists. exact Hm.
  - intros fileHandle newName mw Hm. rewrite asHost_renameFile. exact Hm.
  - intros mw Hm. rewrite asHost_dateNow. exact Hm.
  - discriminate.
Qed.
End ManagerAsHost.





(** X15. When the planner works on a [FileSystemManager], no existence
    check ever fails: every call recorded was answered true or false, so
    the planner never has to assume a collision because a check threw.
    When no directory is selected every answer is false, so that only
    the names of the input files can collide. The directory handle and
    the file list of the manager are left as they were. *)
Theorem generatePreview_with_manager {World : Type}
    (browser : FileSystemManager.Browser World) (now : World -> Z * World)
    (files : list FileRecord) (pattern : string) (padding : nat)
    (options : Renamer.Options)
    (st : Renamer.State (FileSystemManager.Manager * World)) :
  let run :=
    Renamer.generatePreview (FileSystemManager.asHost browser now) files pattern
      padding options st in
  (Renamer.world run.2).1 = (Renamer.world st).1
  /\ exists tr : list Renamer.Event,
       Renamer.trace run.2 = Renamer.trace st ++ tr
       /\ Forall (fun ev =>
                    exists fileName found,
                      ev = Renamer.EvFileExists fileName (Returned found)
                      /\ (FileSystemManager.directoryHandle (Renamer.world st).1 = None ->
                          found = false)) tr.
Proof.
  intros run. subst run.
  destruct (generatePreview_extends (FileSystemManager.asHost browser now) None
              (fun mw => mw.1 = (Renamer.world st).1)
              (asHost_keeps_manager browser now _) files pattern padding options
              st eq_refl)
    as (Hm & tr & Htrace & Hjust).
  split; [exact Hm|]. exists tr. split; [exact Htrace|].
  destruct (Renamer.generatePreview (FileSystemManager.asHost browser now) files
              pattern padding options st) as [result st'] eqn:Hrun.
  apply generatePreview_detail in Hrun as (tr' & Htrace' & Hprobes & _).
  simpl in Htrace. rewrite Htrace' in Htrace. apply app_inv_head in Htrace.
  subst tr'. clear Htrace' Hm.
  induction Hjust as [|ev tr Hev Hjust IH]; [constructor|].
  simpl in Hprobes. apply andb_prop in Hprobes as [Hprobe Hprobes].
  constructor; [|exact (IH Hprobes)].
  destruct ev as [fileName answer| |]; try discriminate.
  destruct Hev as (mw & Hm & Hcall). rewrite asHost_fileExists in Hcall.
  simpl in Hcall.
  destruct (fileExists_spec browser fileName mw.1 mw.2) as (found & Hfound & Hiff).
  exists fileName, found. split; [congruence|].
  intros Hnone. apply Hiff. left. rewrite Hm. exact Hnone.
Qed.

Lemma generatePreview_with_manager_witness :
  exists tr : list Renamer.Event,
    Renamer.trace
      (Renamer.generatePreview
         (FileSystemManager.asHost ManagerExamples.diskBrowser PlanExamples.noClock)
         [Examples.a_jpg; Examples.b_png] "a.{number}" 0 Examples.defaults
         (PlanExamples.onPhotos ManagerExamples.unselected)).2
    = [] ++ tr
    /\ Forall (fun ev =>
                 exists fileName found,
                   ev = Renamer.EvFileExists fileName (Returned found)
                   /\ found = false) tr.
Proof.
  destruct (generatePreview_with_manager ManagerExamples.diskBrowser
              PlanExamples.noClock [Examples.a_jpg; Examples.b_png] "a.{number}" 0
              Examples.defaults (PlanExamples.onPhotos ManagerExamples.unselected))
    as (_ & tr & Htrace & Hall).
  exists tr. split; [exact Htrace|].
  eapply Forall_impl; [exact Hall|].
  intros ev (fileName & found & Hev & Hfound).
  exists fileName, found. split; [exact Hev|]. apply Hfound. reflexivity.
Defined.

(** ** Characters of trimmed, padded and generated strings *)

Section CharacterFacts.
Import JsString.

Lemma anyChar_app (p : ascii -> bool) (a b : string) :
  anyChar p (a +:+ b) = anyChar p a || anyChar p b.
Proof.
  induction a as [|c a IH]; [reflexivity|].
  change (String c a +:+ b) with (String c (a +:+ b)). simpl.
  rewrite IH, orb_assoc. reflexivity.
Qed.

Lemma anyChar_substringFrom (p : ascii -> bool) (n : nat) (s : string) :
  anyChar p (substringFrom n s) = true -> anyChar p s = true.
Proof.
  revert s. induction n as [|n IH]; intros s H; [exact H|].
  destruct s as [|c s]; [discriminate|]. simpl in *.
  rewrite (IH _ H). apply orb_true_r.
Qed.

Lemma anyChar_replace (p : ascii -> bool) (needle r s : string) :
  anyChar p (replace needle r s) = true ->
  anyChar p s = true \/ anyChar p r = true.
Proof.
  induction s as [|c s IH]; cbn [replace].
  - destruct (startsWith EmptyString needle); [|discriminate].
    rewrite anyChar_app, orb_true_iff. intros [H|H]; [auto|].
    left. exact (anyChar_substringFrom p _ EmptyString H).
  - destruct (startsWith (String c s) needle) eqn:Hstart.
    + rewrite anyChar_app, orb_true_iff. intros [H|H]; [auto|].
      left. exact (anyChar_substringFrom p _ (String c s) H).
    + simpl. rewrite orb_true_iff. intros [H|H].
      * left. rewrite H. reflexivity.
      * destruct (IH H) as [Hs|Hr]; [|auto]. left. rewrite Hs. apply orb_true_r.
Qed.

Lemma anyChar_replace_both (p : ascii -> bool) (needle r s : string) :
  anyChar p s = true -> anyChar p r = true ->
  anyChar p (replace needle r s) = true.
Proof.
  intros Hs Hr. induction s as [|c s IH]; [discriminate|].
  cbn [replace]. destruct (startsWith (String c s) needle).
  - rewrite anyChar_app, Hr. reflexivity.
  - simpl in *. destruct (p c); [reflexivity|]. apply IH. exact Hs.
Qed.

Lemma anyChar_false_impl (p q : ascii -> bool) (s : string) :
  (forall c, q c = true -> p c = true) ->
  anyChar p s = false -> anyChar q s = false.
Proof.
  intros Himpl. induction s as [|c s IH]; [reflexivity|]. simpl.
  rewrite !orb_false_iff. intros [Hc Hs]. split; [|auto].
  destruct (q c) eqn:Hq; [|reflexivity]. rewrite (Himpl c Hq) in Hc. discriminate.
Qed.

(** White space only. *)
Lemma trimStart_split (s : string) :
  exists blank, s = blank +:+ trimStart s /\ anyChar isVisible blank = false.
Proof.
  induction s as [|c s (blank & Hs & Hblank)].
  - exists EmptyString. auto.
  - simpl. destruct (isWhiteSpace c) eqn:Hc.
    + exists (String c blank).
      change (String c blank +:+ trimStart s) with (String c (blank +:+ trimStart s)).
      split; [congruence|]. simpl. unfold isVisible at 1.
      rewrite Hc. exact Hblank.
    + exists EmptyString. auto.
Qed.

Lemma trimEnd_split (s : string) :
  exists blank, s = trimEnd s +:+ blank /\ anyChar isVisible blank = false.
Proof.
  induction s as [|c s (blank & Hs & Hblank)].
  - exists EmptyString. auto.
  - simpl. destruct (trimEnd s) as [|d t] eqn:Ht.
    + change (EmptyString +:+ blank) with blank in Hs.
      destruct (isWhiteSpace c) eqn:Hc.
      * exists (String c blank).
        change (EmptyString +:+ String c blank) with (String c blank).
        split; [congruence|]. simpl. unfold isVisible at 1.
        rewrite Hc. exact Hblank.
      * exists blank.
        change (String c EmptyString +:+ blank) with (String c blank).
        split; [congruence|exact Hblank].
    + exists blank.
      change (String c (String d t) +:+ blank)
        with (String c (String d t +:+ blank)).
      split; [congruence|exact Hblank].
Qed.

Lemma trim_split (s : string) :
  exists before after,
    s = before +:+ trim s +:+ after
    /\ anyChar isVisible before = false
    /\ anyChar isVisible after = false.
Proof.
  destruct (trimStart_split s) as (before & Hs & Hbefore).
  destruct (trimEnd_split (trimStart s)) as (after & Ht & Hafter).
  exists before, after. unfold trim. rewrite <- Ht. auto.
Qed.

Lemma anyChar_blank (p : ascii -> bool) (blank : string) :
  (forall c, isWhiteSpace c = true -> p c = false) ->
  anyChar isVisible blank = false -> anyChar p blank = false.
Proof.
  intros Hp. apply anyChar_false_impl. intros c Hc. unfold isVisible.
  destruct (isWhiteSpace c) eqn:Hw; [|reflexivity].
  rewrite (Hp c Hw) in Hc. discriminate.
Qed.

Lemma anyChar_trim (p : ascii -> bool) (s : string) :
  (forall c, isWhiteSpace c = true -> p c = false) ->
  anyChar p (trim s) = anyChar p s.
Proof.
  intros Hp. destruct (trim_split s) as (before & after & Hs & Hbefore & Hafter).
  rewrite Hs at 2. rewrite !anyChar_app.
  rewrite (anyChar_blank p before Hp Hbefore), (anyChar_blank p after Hp Hafter).
  rewrite orb_false_r. reflexivity.
Qed.

Lemma trimStart_visible (s : string) (c : ascii) (t : string) :
  trimStart s = String c t -> isWhiteSpace c = false.
Proof.
  induction s as [|d s IH]; simpl; [discriminate|].
  destruct (isWhiteSpace d) eqn:Hd; [exact IH|]. intros [= <- <-]. exact Hd.
Qed.

Lemma trimEnd_head (c : ascii) (s : string) :
  isWhiteSpace c = false -> exists t, trimEnd (String c s) = String c t.
Proof.
  intros Hc. simpl. destruct (trimEnd s); rewrite ?Hc; eauto.
Qed.

(** A string has a trimmed form that is not empty exactly when it has a
    character that is not white space. *)
Lemma trim_not_empty (s : string) :
  isEmpty (trim s) = false <-> anyChar isVisible s = true.
Proof.
  rewrite <- (anyChar_trim isVisible s)
    by (intros c Hc; unfold isVisible; rewrite Hc; reflexivity).
  unfold trim. destruct (trimStart s) as [|c t] eqn:Hs; [simpl; split; discriminate|].
  pose proof (trimStart_visible s c t Hs) as Hc.
  destruct (trimEnd_head c t Hc) as (t' & ->). simpl. unfold isVisible at 1.
  rewrite Hc. simpl. split; reflexivity.
Qed.

Lemma anyChar_repeat (p : ascii -> bool) (c : ascii) (n : nat) :
  p c = false -> anyChar p (repeat c n) = false.
Proof. intros Hc. induction n as [|n IH]; simpl; rewrite ?Hc; auto. Qed.

Lemma string_of_uint_digits (d : Decimal.uint) :
  anyChar (fun c => negb (isDigitOrMinus c)) (NilEmpty.string_of_uint d) = false.
Proof. induction d; simpl; auto. Qed.

(** [String(n)] is made of digits and a minus sign, and is not empty. *)
Lemma ofNumber_digits (n : Z) :
  anyChar (fun c => negb (isDigitOrMinus c)) (ofNumber n) = false
  /\ exists c t, ofNumber n = String c t /\ isDigitOrMinus c = true.
Proof.
  unfold ofNumber, NilZero.string_of_int, NilZero.string_of_uint.
  destruct (Z.to_int n) as [d|d].
  - destruct d; simpl; (split; [try reflexivity; apply string_of_uint_digits|]);
      eexists _, _; (split; [reflexivity|reflexivity]).
  - simpl. split; [|eexists _, _; split; reflexivity].
    destruct d; simpl; try reflexivity; apply string_of_uint_digits.
Qed.

Lemma padStart_digits (n : Z) (padding : nat) :
  anyChar (fun c => negb (isDigitOrMinus c)) (padStart (ofNumber n) padding "0") = false
  /\ anyChar isDigitOrMinus (padStart (ofNumber n) padding "0") = true.
Proof.
  unfold padStart. rewrite !anyChar_app.
  destruct (ofNumber_digits n) as (Hdigits & c & t & Hn & Hc).
  rewrite Hdigits, anyChar_repeat by reflexivity. split; [reflexivity|].
  rewrite Hn. simpl. rewrite Hc. apply orb_true_r.
Qed.

Lemma digit_visible (c : ascii) : isDigitOrMinus c = true -> isVisible c = true.
Proof.
  destruct c as [[] [] [] [] [] [] [] []]; try discriminate; intros _; reflexivity.
Qed.

Lemma digit_not_forbidden (c : ascii) :
  FileSystemManager.isForbiddenChar c = true -> negb (isDigitOrMinus c) = true.
Proof.
  destruct c as [[] [] [] [] [] [] [] []]; try discriminate; intros _; reflexivity.
Qed.

Lemma blank_not_forbidden (c : ascii) :
  isWhiteSpace c = true -> FileSystemManager.isForbiddenChar c = false.
Proof.
  destruct c as [[] [] [] [] [] [] [] []]; try discriminate; intros _; reflexivity.
Qed.

Lemma forbidden_invalid (c : ascii) :
  FileSystemManager.isForbiddenChar c = true -> Renamer.isInvalidChar c = true.
Proof.
  unfold FileSystemManager.isForbiddenChar, Renamer.isInvalidChar.
  intros ->. apply orb_true_r.
Qed.

Lemma anyChar_true_impl (p q : ascii -> bool) (s : string) :
  (forall c, p c = true -> q c = true) ->
  anyChar p s = true -> anyChar q s = true.
Proof.
  intros Himpl H. destruct (anyChar q s) eqn:Hq; [reflexivity|].
  rewrite (anyChar_false_impl q p s Himpl Hq) in H. discriminate.
Qed.
End CharacterFacts.

(** What a pattern accepted by [validatePattern] satisfies. *)
Lemma validatePattern_valid (pattern : string) :
  Renamer.isValid (Renamer.validatePattern pattern) = true ->
  JsString.isEmpty (JsString.trim pattern) = false
  /\ JsString.countMatches Renamer.placeholder (JsString.trim pattern) = 1%nat
  /\ JsString.anyChar Renamer.isInvalidChar (JsString.trim pattern) = false
  /\ (String.length (JsString.trim pattern) <= 200)%nat
  /\ Renamer.isReservedName
       (JsString.trim (JsString.replace Renamer.placeholder ""
                         (JsString.trim pattern))) = false
  /\ JsString.startsWith (JsString.trim pattern) "." = false
  /\ JsString.endsWithChar (JsString.trim pattern) "."%char = false.
Proof.
  unfold Renamer.validatePattern.
  destruct (JsString.isEmpty pattern || JsString.isEmpty (JsString.trim pattern))
    eqn:Hempty; [discriminate|].
  apply orb_false_iff in Hempty as [_ Hempty]. cbv zeta.
  destruct (JsString.countMatches Renamer.placeholder (JsString.trim pattern))
    as [|[|n]] eqn:Hcount;
    destruct (JsString.anyChar Renamer.isInvalidChar (JsString.trim pattern));
    destruct (Nat.ltb 200 (String.length (JsString.trim pattern))) eqn:Hlength;
    destruct (Renamer.isReservedName _);
    destruct (JsString.startsWith (JsString.trim pattern) ".");
    destruct (JsString.endsWithChar (JsString.trim pattern) "."%char);
    intros Hvalid; try discriminate Hvalid.
  apply Nat.ltb_ge in Hlength. auto 10.
Qed.

(** X16. A name generated from a pattern that [validatePattern] accepts
    passes the checks that [FileSystemManager.renameFile] makes before it
    asks the browser, whatever the index and the padding, provided that
    the extension of the file has none of the nine punctuation characters
    and the name is not longer than 255 characters: the outcome of the
    rename is then that of the browser's [move]. *)
Theorem valid_pattern_names_pass_rename_checks (pattern : string) (index : Z)
    (padding : nat) (ext : string) :
  Renamer.isValid (Renamer.validatePattern pattern) = true ->
  JsString.anyChar FileSystemManager.isForbiddenChar ext = false ->
  (String.length (Renamer.generateNewName pattern index padding ext) <= 255)%nat ->
  FileSystemManager.checkNewName (Renamer.generateNewName pattern index padding ext)
  = None
  /\ forall (World : Type) (browser : FileSystemManager.Browser World)
            (fileHandle : Handle) (w : World),
       let newName := Renamer.generateNewName pattern index padding ext in
       FileSystemManager.renameFile browser fileHandle newName w
       = (match (FileSystemManager.move browser fileHandle newName w).1 with
          | None => Returned true
          | Some error => Thrown (FileSystemManager.renameError error)
          end, (FileSystemManager.move browser fileHandle newName w).2).
Proof.
  intros Hvalid Hext Hlength.
  apply validatePattern_valid in Hvalid as (Hempty & _ & Hchars & _).
  assert (FileSystemManager.checkNewName
            (Renamer.generateNewName pattern index padding ext) = None) as Hcheck.
  { destruct (padStart_digits index padding) as (Hdigits & Hdigit).
    set (number := JsString.padStart (JsString.ofNumber index) padding "0") in *.
    assert (JsString.anyChar FileSystemManager.isForbiddenChar
              (JsString.replace Renamer.placeholder number pattern) = false)
      as Hclean.
    { destruct (JsString.anyChar FileSystemManager.isForbiddenChar
                  (JsString.replace Renamer.placeholder number pattern)) eqn:Hany;
        [|reflexivity].
      apply anyChar_replace in Hany as [Hany|Hany].
      - rewrite <- (anyChar_trim _ pattern blank_not_forbidden) in Hany.
        apply (anyChar_true_impl _ _ _ forbidden_invalid) in Hany. congruence.
      - apply (anyChar_true_impl _ _ _ digit_not_forbidden) in Hany. congruence. }
    assert (JsString.anyChar isVisible
              (JsString.replace Renamer.placeholder number pattern) = true)
      as Hvisible.
    { apply anyChar_replace_both.
      - apply trim_not_empty. exact Hempty.
      - exact (anyChar_true_impl _ _ _ digit_visible Hdigit). }
    unfold FileSystemManager.checkNewName, Renamer.generateNewName in *.
    fold number in Hlength |- *.
    set (newName := if negb (JsString.isEmpty ext)
                       && negb (JsString.isEmpty (JsString.trim ext))
                    then JsString.replace Renamer.placeholder number pattern +:+ ext
                    else JsString.replace Renamer.placeholder number pattern) in *.
    assert (JsString.anyChar FileSystemManager.isForbiddenChar newName = false
            /\ JsString.anyChar isVisible newName = true) as [Hclean' Hvisible'].
    { subst newName.
      destruct (negb (JsString.isEmpty ext)
                && negb (JsString.isEmpty (JsString.trim ext)));
        rewrite ?anyChar_app, ?Hclean, ?Hvisible, ?Hext; auto. }
    apply trim_not_empty in Hvisible'. rewrite Hvisible', Hclean'.
    assert (JsString.isEmpty newName = false) as ->.
    { destruct newName; [discriminate Hvisible'|reflexivity]. }
    simpl. destruct (Nat.ltb_spec 255 (String.length newName)); [lia|reflexivity]. }
  split; [exact Hcheck|].
  intros World browser fileHandle w newName.
  pose proof (renameFile_spec browser fileHandle newName w) as Hspec.
  subst newName. rewrite Hcheck in Hspec. exact Hspec.
Qed.

Lemma valid_pattern_names_pass_rename_checks_witness :
  FileSystemManager.checkNewName (Renamer.generateNewName " img {number} " 7 3 ".jpg")
  = None.
Proof.
  apply (valid_pattern_names_pass_rename_checks " img {number} " 7 3 ".jpg");
    [reflexivity|reflexivity|vm_compute; lia].
Defined.

(** ** White space around a pattern *)

Section BlankFacts.
Import JsString.

(** A needle that is not empty and has no white space. *)
Variable needle : string.
Hypothesis needle_visible : anyChar isWhiteSpace needle = false.
Hypothesis needle_not_empty : needle <> EmptyString.

Lemma startsWith_blank_suffix (after : string) :
  anyChar isVisible after = false ->
  forall p s : string,
    anyChar isWhiteSpace p = false ->
    startsWith (s +:+ after) p = startsWith s p.
Proof.
  intros Hafter. induction p as [|a p IH]; intros s Hp; [reflexivity|].
  simpl in Hp. apply orb_false_iff in Hp as [Ha Hp].
  destruct s as [|c s].
  - change (EmptyString +:+ after) with after. simpl.
    destruct after as [|w after]; [reflexivity|].
    simpl in Hafter. apply orb_false_iff in Hafter as [Hw _].
    unfold isVisible in Hw. apply negb_false_iff in Hw.
    destruct (Ascii.eqb_spec a w) as [->|]; [congruence|reflexivity].
  - change (String c s +:+ after) with (String c (s +:+ after)). simpl.
    rewrite (IH s Hp). reflexivity.
Qed.

Lemma startsWith_blank_head (w : ascii) (s : string) :
  isWhiteSpace w = true -> startsWith (String w s) needle = false.
Proof.
  intros Hw. destruct needle as [|a p]; [congruence|].
  simpl in needle_visible. apply orb_false_iff in needle_visible as [Ha _].
  simpl. destruct (Ascii.eqb_spec a w) as [->|]; [congruence|reflexivity].
Qed.

Lemma startsWith_empty : startsWith EmptyString needle = false.
Proof. destruct needle; [congruence|reflexivity]. Qed.

Lemma countMatchesFrom_blank (blank : string) :
  anyChar isVisible blank = false ->
  forall k, countMatchesFrom needle k blank = 0%nat.
Proof.
  induction blank as [|w blank IH]; intros Hblank k; [reflexivity|].
  simpl in Hblank. apply orb_false_iff in Hblank as [Hw Hblank].
  unfold isVisible in Hw. apply negb_false_iff in Hw.
  cbn [countMatchesFrom]. destruct k as [|k]; [|exact (IH Hblank k)].
  rewrite (startsWith_blank_head w blank Hw). exact (IH Hblank 0%nat).
Qed.

Lemma countMatchesFrom_blank_suffix (after : string) :
  anyChar isVisible after = false ->
  forall (s : string) (k : nat),
    countMatchesFrom needle k (s +:+ after) = countMatchesFrom needle k s.
Proof.
  intros Hafter. induction s as [|c s IH]; intros k.
  - change (EmptyString +:+ after) with after.
    rewrite (countMatchesFrom_blank after Hafter). destruct k; reflexivity.
  - change (String c s +:+ after) with (String c (s +:+ after)).
    cbn [countMatchesFrom]. destruct k as [|k]; [|apply IH].
    change (String c (s +:+ after)) with (String c s +:+ after).
    rewrite (startsWith_blank_suffix after Hafter needle (String c s) needle_visible).
    rewrite !IH. reflexivity.
Qed.

Lemma countMatches_blank_prefix (before s : string) :
  anyChar isVisible before = false ->
  countMatches needle (before +:+ s) = countMatches needle s.
Proof.
  unfold countMatches. induction before as [|w before IH]; intros Hbefore;
    [reflexivity|].
  simpl in Hbefore. apply orb_false_iff in Hbefore as [Hw Hbefore].
  unfold isVisible in Hw. apply negb_false_iff in Hw.
  change (String w before +:+ s) with (String w (before +:+ s)).
  cbn [countMatchesFrom]. rewrite (startsWith_blank_head w _ Hw). exact (IH Hbefore).
Qed.

(** White space around a string has no occurrence of the needle. *)
Lemma countMatches_trim (s : string) :
  countMatches needle (trim s) = countMatches needle s.
Proof.
  destruct (trim_split s) as (before & after & Hs & Hbefore & Hafter).
  rewrite Hs at 2. rewrite (countMatches_blank_prefix before _ Hbefore).
  unfold countMatches. rewrite (countMatchesFrom_blank_suffix after Hafter).
  reflexivity.
Qed.

Lemma substringFrom_app (p s after : string) :
  startsWith s p = true ->
  substringFrom (String.length p) (s +:+ after)
  = substringFrom (String.length p) s +:+ after.
Proof.
  revert s. induction p as [|a p IH]; intros s Hs; [reflexivity|].
  destruct s as [|c s]; [discriminate|]. simpl in Hs.
  destruct (Ascii.eqb a c); [|discriminate].
  change (String c s +:+ after) with (String c (s +:+ after)). simpl.
  exact (IH s Hs).
Qed.

Lemma replace_blank_suffix (r after : string) :
  anyChar isVisible after = false ->
  forall s : string,
    replace needle r (s +:+ after) = replace needle r s +:+ after.
Proof.
  intros Hafter. induction s as [|c s IH].
  - change (EmptyString +:+ after) with after. cbn [replace].
    rewrite startsWith_empty. change (EmptyString +:+ after) with after.
    clear -Hafter needle_visible needle_not_empty.
    induction after as [|w after IH]; cbn [replace].
    + rewrite startsWith_empty. reflexivity.
    + simpl in Hafter. apply orb_false_iff in Hafter as [Hw Hafter].
      unfold isVisible in Hw. apply negb_false_iff in Hw.
      rewrite (startsWith_blank_head w after Hw), (IH Hafter). reflexivity.
  - change (String c s +:+ after) with (String c (s +:+ after)). cbn [replace].
    change (String c (s +:+ after)) with (String c s +:+ after).
    rewrite (startsWith_blank_suffix after Hafter needle (String c s) needle_visible).
    destruct (startsWith (String c s) needle) eqn:Hstart.
    + rewrite (substringFrom_app needle (String c s) after Hstart).
      rewrite append_assoc. reflexivity.
    + rewrite IH. reflexivity.
Qed.

Lemma replace_blank_prefix (r before s : string) :
  anyChar isVisible before = false ->
  replace needle r (before +:+ s) = before +:+ replace needle r s.
Proof.
  induction before as [|w before IH]; intros Hbefore; [reflexivity|].
  simpl in Hbefore. apply orb_false_iff in Hbefore as [Hw Hbefore].
  unfold isVisible in Hw. apply negb_false_iff in Hw.
  change (String w before +:+ s) with (String w (before +:+ s)).
  cbn [replace]. rewrite (startsWith_blank_head w _ Hw), (IH Hbefore).
  reflexivity.
Qed.
End BlankFacts.

Section TrimFacts.
Import JsString.

Lemma trimEnd_cons (c : ascii) (s : string) :
  trimEnd (String c s)
  = if isEmpty (trimEnd s) && isWhiteSpace c then EmptyString
    else String c (trimEnd s).
Proof. simpl. destruct (trimEnd s); [destruct (isWhiteSpace c)|]; reflexivity. Qed.

Lemma trimEnd_idempotent (s : string) : trimEnd (trimEnd s) = trimEnd s.
Proof.
  induction s as [|c s IH]; [reflexivity|]. rewrite trimEnd_cons.
  destruct (isEmpty (trimEnd s) && isWhiteSpace c) eqn:Hcase; [reflexivity|].
  rewrite trimEnd_cons, IH, Hcase. reflexivity.
Qed.

Lemma trim_idempotent (s : string) : trim (trim s) = trim s.
Proof.
  unfold trim. destruct (trimStart s) as [|c t] eqn:Hs; [reflexivity|].
  pose proof (trimStart_visible s c t Hs) as Hc.
  destruct (trimEnd_head c t Hc) as (t' & Ht). rewrite Ht.
  cbn [trimStart]. rewrite Hc, <- Ht. apply trimEnd_idempotent.
Qed.
End TrimFacts.

Lemma placeholder_visible :
  JsString.anyChar JsString.isWhiteSpace Renamer.placeholder = false.
Proof. reflexivity. Qed.

Lemma placeholder_not_empty : Renamer.placeholder <> EmptyString.
Proof. discriminate. Qed.

(** X17. [validatePattern] judges the trimmed pattern: a pattern and its
    trimmed form get the same result. [generateNewName] works on the
    pattern as given: the white space before and after the trimmed
    pattern stays in every generated name, before and after the name
    generated from the trimmed pattern, and before the extension. *)
Theorem validatePattern_trims_generateNewName_does_not (pattern : string) :
  Renamer.validatePattern (JsString.trim pattern) = Renamer.validatePattern pattern
  /\ exists before after : string,
       pattern = before +:+ JsString.trim pattern +:+ after
       /\ JsString.anyChar isVisible before = false
       /\ JsString.anyChar isVisible after = false
       /\ forall (index : Z) (padding : nat) (ext : string),
            Renamer.generateNewName pattern index padding ext
            = before
              +:+ Renamer.generateNewName (JsString.trim pattern) index padding ""
              +:+ after
              +:+ (if negb (JsString.isEmpty ext)
                      && negb (JsString.isEmpty (JsString.trim ext))
                   then ext else "").
Proof.
  split.
  - unfold Renamer.validatePattern. rewrite trim_idempotent.
    destruct (JsString.trim pattern) as [|c t] eqn:Htrim.
    + cbn [JsString.isEmpty]. rewrite !orb_true_r. reflexivity.
    + destruct pattern as [|d pattern]; [discriminate Htrim|].
      cbn [JsString.isEmpty orb]. reflexivity.
  - destruct (trim_split pattern) as (before & after & Hpattern & Hbefore & Hafter).
    exists before, after. split; [exact Hpattern|]. split; [exact Hbefore|].
    split; [exact Hafter|]. intros index padding ext.
    unfold Renamer.generateNewName at 1 2. cbn [JsString.isEmpty negb andb].
    set (number := JsString.padStart (JsString.ofNumber index) padding "0").
    assert (JsString.replace Renamer.placeholder number pattern
            = before +:+ JsString.replace Renamer.placeholder number
                           (JsString.trim pattern) +:+ after) as ->.
    { rewrite Hpattern at 1.
      rewrite (replace_blank_prefix _ placeholder_visible placeholder_not_empty
                 number before _ Hbefore).
      rewrite (replace_blank_suffix _ placeholder_visible placeholder_not_empty
                 number after Hafter). reflexivity. }
    destruct (negb (JsString.isEmpty ext)
              && negb (JsString.isEmpty (JsString.trim ext))).
    + rewrite !append_assoc. reflexivity.
    + rewrite append_nil_r. reflexivity.
Qed.

(** X18. The validation of the pattern field and the validator of the
    renamer: a pattern that the field accepts can only be rejected by
    [validatePattern] for its length, for a reserved name or for a dot at
    either end; and a pattern that [validatePattern] accepts is accepted
    by the field unless the white space around it has a control
    character (a tab or a line break), which the field tests and
    [validatePattern] trims away. *)
Theorem validatePatternSilentObject_and_validatePattern (pattern : string) :
  (Renamer.isValid (UIManager.validatePatternSilentObject pattern) = true ->
   Forall (fun e =>
             e ∈ [ "Pattern is too long (maximum 200 characters)";
                   "Pattern cannot use reserved Windows names";
                   "Pattern cannot start or end with a dot" ])
     (Renamer.validationErrors (Renamer.validatePattern pattern)))
  /\ (Renamer.isValid (Renamer.validatePattern pattern) = true ->
      Renamer.isValid (UIManager.validatePatternSilentObject pattern)
      = negb (JsString.anyChar Renamer.isInvalidChar pattern)).
Proof.
  pose proof (countMatches_trim _ placeholder_visible placeholder_not_empty pattern)
    as Hcount.
  split.
  - unfold UIManager.validatePatternSilentObject, Renamer.validatePattern.
    destruct (JsString.isEmpty pattern || JsString.isEmpty (JsString.trim pattern));
      [discriminate|].
    cbv zeta. rewrite Hcount.
    destruct (Nat.eqb_spec (JsString.countMatches Renamer.placeholder pattern) 1)
      as [->|]; [|discriminate].
    destruct (JsString.anyChar Renamer.isInvalidChar pattern) eqn:Hchars;
      [discriminate|].
    intros _.
    assert (JsString.anyChar Renamer.isInvalidChar (JsString.trim pattern) = false)
      as ->.
    { destruct (trim_split pattern) as (before & after & Hpattern & _).
      rewrite Hpattern, !anyChar_app in Hchars.
      apply orb_false_iff in Hchars as [_ Hchars].
      apply orb_false_iff in Hchars as [Hchars _]. exact Hchars. }
    destruct (Nat.ltb 200 (String.length (JsString.trim pattern)));
      destruct (Renamer.isReservedName _);
      destruct (JsString.startsWith (JsString.trim pattern) "."
                || JsString.endsWithChar (JsString.trim pattern) "."%char);
      simpl; repeat constructor; set_solver.
  - intros Hvalid.
    apply validatePattern_valid in Hvalid as (Hempty & Hone & _).
    unfold UIManager.validatePatternSilentObject.
    rewrite Hempty, orb_false_r.
    destruct pattern as [|c pattern]; [discriminate Hempty|].
    cbn [JsString.isEmpty]. cbv zeta. rewrite <- Hcount, Hone.
    destruct (JsString.anyChar Renamer.isInvalidChar (String c pattern));
      reflexivity.
Qed.

Lemma validatePatternSilentObject_and_validatePattern_witness :
  Renamer.isValid (UIManager.validatePatternSilentObject "img_{number} ") = true
  /\ Renamer.isValid
       (UIManager.validatePatternSilentObject
          ("img_{number}" +:+ String (Ascii.ascii_of_nat 9) "")) = false.
Proof.
  split.
  - apply (proj2 (validatePatternSilentObject_and_validatePattern "img_{number} ")).
    reflexivity.
  - apply (proj2 (validatePatternSilentObject_and_validatePattern
                    ("img_{number}" +:+ String (Ascii.ascii_of_nat 9) ""))).
    reflexivity.
Defined.

(** ** Statistics *)

Section StatisticsFacts.
Import FileStatistics.

Lemma FirstGreatest_single (key : FileRecord -> Z) (f : FileRecord) :
  FirstGreatest key [f] f.
Proof.
  exists 0%nat. split; [reflexivity|]. split; [intros j g Hj; lia|].
  intros g Hg. apply list_elem_of_singleton in Hg as ->. lia.
Qed.

Lemma FirstGreatest_snoc (key : FileRecord -> Z) (files : list FileRecord)
    (best f : FileRecord) :
  FirstGreatest key files best ->
  FirstGreatest key (files ++ [f]) (if key best <? key f then f else best).
Proof.
  intros (k & Hk & Hbefore & Hall).
  destruct (Z.ltb_spec (key best) (key f)) as [Hlt|Hge].
  - exists (length files). split; [apply list_lookup_middle; reflexivity|].
    split.
    + intros j g Hj Hg. rewrite lookup_app_l in Hg by exact Hj.
      apply list_elem_of_lookup_2 in Hg. specialize (Hall g Hg). lia.
    + intros g Hg. apply elem_of_app in Hg as [Hg|Hg].
      * specialize (Hall g Hg). lia.
      * apply list_elem_of_singleton in Hg as ->. lia.
  - exists k. pose proof (lookup_lt_Some _ _ _ Hk) as Hlen.
    split; [rewrite lookup_app_l by exact Hlen; exact Hk|]. split.
    + intros j g Hj Hg. rewrite lookup_app_l in Hg by lia. eauto.
    + intros g Hg. apply elem_of_app in Hg as [Hg|Hg]; [auto|].
      apply list_elem_of_singleton in Hg as ->. exact Hge.
Qed.

Lemma inCategory_snoc (category : string) (files : list FileRecord)
    (f : FileRecord) :
  inCategory category (files ++ [f])
  = (inCategory category files
     + if String.eqb (getSizeCategory (sizeOf f)) category then 1 else 0)%nat.
Proof.
  unfold inCategory. rewrite List.filter_app, length_app. simpl.
  destruct (String.eqb _ category); reflexivity.
Qed.

Lemma getSizeCategory_known (bytes : Z) : getSizeCategory bytes ∈ sizeCategories.
Proof.
  unfold getSizeCategory, sizeCategories.
  repeat (match goal with |- context [?a <? ?b] => destruct (a <? b) end;
          [set_solver|]).
  set_solver.
Qed.

(** What the loop of [getFileStats] has computed once it has visited the
    files [seen], the first of which is [first]. *)
Record StatsInvariant (seen : list FileRecord) (acc : Running) : Prop := mkStatsInv {
  si_total : r_totalSize acc = foldr Z.add 0 (map sizeOf seen);
  si_largest : FirstGreatest sizeOf seen (r_largestFile acc);
  si_smallest : FirstGreatest (fun f => - sizeOf f) seen (r_smallestFile acc);
  si_newest : FirstGreatest timeOf seen (r_newestFile acc);
  si_oldest :
    Forall (fun f => timeOf f <> 0) seen ->
    FirstGreatest (fun f => - timeOf f) seen (r_oldestFile acc);
  si_oldest_seen : r_oldestFile acc ∈ seen;
  si_breakdown :
    forall category : string,
      r_sizeBreakdown acc !! category
      = if bool_decide (category ∈ sizeCategories)
        then Some (inCategory category seen) else None
}.

Lemma foldr_add_snoc (l : list Z) (z : Z) :
  foldr Z.add 0 (l ++ [z]) = foldr Z.add 0 l + z.
Proof. induction l as [|a l IH]; simpl; lia. Qed.

Lemma StatsInvariant_step (seen : list FileRecord) (acc : Running)
    (file : FileRecord) :
  StatsInvariant seen acc -> StatsInvariant (seen ++ [file]) (visit acc file).
Proof.
  intros [Htotal Hlargest Hsmallest Hnewest Holdest Hseen Hbreakdown].
  unfold visit. constructor; cbn [r_totalSize r_largestFile r_smallestFile
                                   r_oldestFile r_newestFile r_sizeBreakdown].
  - rewrite map_app. cbn [map]. rewrite foldr_add_snoc, Htotal. reflexivity.
  - exact (FirstGreatest_snoc sizeOf seen _ file Hlargest).
  - pose proof (FirstGreatest_snoc (fun f => - sizeOf f) seen _ file Hsmallest)
      as Hstep.
    cbv beta in Hstep.
    replace (- sizeOf (r_smallestFile acc) <? - sizeOf file)
      with (sizeOf file <? sizeOf (r_smallestFile acc)) in Hstep; [exact Hstep|].
    destruct (Z.ltb_spec (sizeOf file) (sizeOf (r_smallestFile acc)));
      destruct (Z.ltb_spec (- sizeOf (r_smallestFile acc)) (- sizeOf file));
      try reflexivity; lia.
  - exact (FirstGreatest_snoc timeOf seen _ file Hnewest).
  - intros Hnonzero. apply Forall_app in Hnonzero as [Hnonzero _].
    pose proof (FirstGreatest_snoc (fun f => - timeOf f) seen _ file
                  (Holdest Hnonzero)) as Hstep.
    cbv beta in Hstep.
    assert (timeOf (r_oldestFile acc) <> 0) as Hold.
    { rewrite Forall_forall in Hnonzero. apply Hnonzero, Hseen. }
    replace (- timeOf (r_oldestFile acc) <? - timeOf file)
      with ((timeOf file <? timeOf (r_oldestFile acc))
            || (timeOf (r_oldestFile acc) =? 0)) in Hstep; [exact Hstep|].
    destruct (Z.eqb_spec (timeOf (r_oldestFile acc)) 0); [contradiction|].
    rewrite orb_false_r.
    destruct (Z.ltb_spec (timeOf file) (timeOf (r_oldestFile acc)));
      destruct (Z.ltb_spec (- timeOf (r_oldestFile acc)) (- timeOf file));
      try reflexivity; lia.
  - destruct ((timeOf file <? timeOf (r_oldestFile acc))
              || (timeOf (r_oldestFile acc) =? 0)); set_solver.
  - intros category. rewrite inCategory_snoc.
    destruct (String.eqb_spec (getSizeCategory (sizeOf file)) category) as [<-|Hne].
    + rewrite lookup_alter_eq, Hbreakdown.
      rewrite bool_decide_eq_true_2 by apply getSizeCategory_known.
      simpl. f_equal. lia.
    + rewrite lookup_alter_ne by exact Hne. rewrite Hbreakdown.
      case_bool_decide; [f_equal; lia|reflexivity].
Qed.

Lemma StatsInvariant_fold (rest : list FileRecord) :
  forall (seen : list FileRecord) (acc : Running),
    StatsInvariant seen acc ->
    StatsInvariant (seen ++ rest) (fold_left visit rest acc).
Proof.
  induction rest as [|file rest IH]; intros seen acc Hinv; simpl.
  - rewrite app_nil_r. exact Hinv.
  - replace (seen ++ file :: rest) with ((seen ++ [file]) ++ rest)
      by (rewrite <- app_assoc; reflexivity).
    apply IH, StatsInvariant_step, Hinv.
Qed.

Lemma StatsInvariant_first (first : FileRecord) (breakdown : gmap string nat) :
  (forall category : string,
     breakdown !! category
     = if bool_decide (category ∈ sizeCategories) then Some 0%nat else None) ->
  StatsInvariant [first]
    (visit (mkRunning 0 first first first first breakdown) first).
Proof.
  intros Hbreakdown. unfold visit.
  cbn [r_totalSize r_largestFile r_smallestFile r_oldestFile r_newestFile
       r_sizeBreakdown].
  rewrite !Z.ltb_irrefl.
  assert ((if false || (timeOf first =? 0) then first else first) = first) as ->
    by (destruct (timeOf first =? 0); reflexivity).
  constructor; cbn [r_totalSize r_largestFile r_smallestFile r_oldestFile
                    r_newestFile r_sizeBreakdown];
    try apply FirstGreatest_single.
  - simpl. lia.
  - intros _. apply FirstGreatest_single.
  - set_solver.
  - intros category. unfold inCategory. simpl.
    destruct (String.eqb_spec (getSizeCategory (sizeOf first)) category) as [<-|Hne].
    + rewrite lookup_alter_eq, Hbreakdown.
      rewrite bool_decide_eq_true_2 by apply getSizeCategory_known. reflexivity.
    + rewrite lookup_alter_ne by exact Hne. exact (Hbreakdown category).
Qed.

Lemma inCategory_total (files : list FileRecord) :
  (inCategory "Bytes" files + inCategory "KB" files + inCategory "MB" files
   + inCategory "GB" files + inCategory "TB" files)%nat = length files.
Proof.
  induction files as [|f files IH]; [reflexivity|].
  unfold inCategory in *. simpl.
  pose proof (getSizeCategory_known (sizeOf f)) as Hknown.
  unfold sizeCategories in Hknown. rewrite !elem_of_cons in Hknown.
  destruct Hknown as [->|[->|[->|[->|[->|Hnone]]]]]; simpl; try lia.
  apply elem_of_nil in Hnone. contradiction.
Qed.
End StatisticsFacts.

(** X19. For an array that is not empty, [getFileStats] reports the
    number of files and the sum of their sizes (a missing size counts as
    0); as largest and as smallest file the first file with the greatest
    and with the least size, as newest file the first one with the
    greatest time (creation time, else modification time, else 0), and,
    provided that no file has the time 0, as oldest file the first one
    with the least time; and in [sizeBreakdown] exactly the five
    categories, each with the number of files whose size falls in it, so
    that the five counts add up to the number of files. *)
Theorem getFileStats_summary (first : FileRecord) (rest : list FileRecord) :
  let files := first :: rest in
  let stats := FileStatistics.getFileStats files in
  FileStatistics.totalFiles stats = length files
  /\ FileStatistics.totalSize stats
     = foldr Z.add 0 (map FileStatistics.sizeOf files)
  /\ (exists f, FileStatistics.largestFile stats = Some f
                /\ FirstGreatest FileStatistics.sizeOf files f)
  /\ (exists f, FileStatistics.smallestFile stats = Some f
                /\ FirstGreatest (fun g => - FileStatistics.sizeOf g) files f)
  /\ (exists f, FileStatistics.newestFile stats = Some f
                /\ FirstGreatest FileStatistics.timeOf files f)
  /\ (exists f, FileStatistics.oldestFile stats = Some f
                /\ f ∈ files
                /\ (Forall (fun g => FileStatistics.timeOf g <> 0) files ->
                    FirstGreatest (fun g => - FileStatistics.timeOf g) files f))
  /\ (forall category : string,
        FileStatistics.sizeBreakdown stats !! category
        = if bool_decide (category ∈ sizeCategories)
          then Some (inCategory category files) else None)
  /\ (inCategory "Bytes" files + inCategory "KB" files + inCategory "MB" files
      + inCategory "GB" files + inCategory "TB" files)%nat = length files.
Proof.
  intros files stats. subst stats files.
  unfold FileStatistics.getFileStats. cbv zeta.
  cbn [fold_left].
  match goal with
  | |- context [fold_left FileStatistics.visit rest ?acc] =>
      assert (StatsInvariant (first :: rest)
                (fold_left FileStatistics.visit rest acc)) as Hinv;
      [|destruct Hinv as [Htotal Hlargest Hsmallest Hnewest Holdest Hseen
                          Hbreakdown];
        generalize dependent (fold_left FileStatistics.visit rest acc)]
  end.
  - apply (StatsInvariant_fold rest [first]). apply StatsInvariant_first.
    intros category. unfold sizeCategories.
    repeat (match goal with
            | |- context [<[?k := _]> _ !! category] =>
                destruct (decide (k = category)) as [<-|?];
                [rewrite lookup_insert_eq; reflexivity
                |rewrite lookup_insert_ne by assumption]
            end).
    rewrite lookup_empty, bool_decide_eq_false_2; [reflexivity|].
    rewrite !elem_of_cons, elem_of_nil. intros [?|[?|[?|[?|[?|[]]]]]]; congruence.
  - intros acc Htotal Hlargest Hsmallest Hnewest Holdest Hseen Hbreakdown.
    cbn [FileStatistics.totalFiles FileStatistics.totalSize
         FileStatistics.largestFile FileStatistics.smallestFile
         FileStatistics.newestFile FileStatistics.oldestFile
         FileStatistics.sizeBreakdown].
    split; [reflexivity|]. split; [exact Htotal|].
    split; [eauto|]. split; [eauto|]. split; [eauto|]. split; [eauto|].
    split; [exact Hbreakdown|]. apply inCategory_total.
Qed.

Lemma getFileStats_summary_witness :
  FirstGreatest (fun g => - FileStatistics.timeOf g)
    [Examples.b_png; Examples.a_jpg; Examples.file_001_jpg] Examples.a_jpg.
Proof.
  destruct (getFileStats_summary Examples.b_png
              [Examples.a_jpg; Examples.file_001_jpg])
    as (_ & _ & _ & _ & _ & (f & Hf & _ & Holdest) & _).
  injection Hf as <-. apply Holdest.
  repeat constructor; discriminate.
Defined.

(** ** The choice of the folder *)

(** X20. [selectFolder] never touches the file list of the manager, and
    it changes the directory handle only when the dialog yields a
    folder: after a folder was chosen the list still holds the files
    read from the folder before, and when the dialog is cancelled (the
    only case in which null is returned) or fails, the manager is as it
    was, so that [getFilesFromDirectory] without an argument still reads
    the folder selected before. *)
Theorem selectFolder_keeps_previous_state {World : Type} (isSupported : bool)
    (showDirectoryPicker : World -> (FileSystemManager.DomError + Handle) * World)
    (m : FileSystemManager.Manager) (w : World) :
  let run := FolderPicker.selectFolder isSupported showDirectoryPicker m w in
  FileSystemManager.files run.1.2 = FileSystemManager.files m
  /\ (forall chosen : Handle,
        run.1.1 = Returned (Some chosen) <->
        isSupported = true /\ (showDirectoryPicker w).1 = inr chosen)
  /\ (forall chosen : Handle,
        run.1.1 = Returned (Some chosen) ->
        FileSystemManager.directoryHandle run.1.2 = Some chosen)
  /\ (run.1.1 = Returned None <->
      isSupported = true
      /\ exists error,
           (showDirectoryPicker w).1 = inl error
           /\ FileSystemManager.errorName error = "AbortError")
  /\ ((forall chosen : Handle, run.1.1 <> Returned (Some chosen)) ->
      run.1.2 = m
      /\ forall browser : FileSystemManager.Browser World,
           FileSystemManager.getFilesFromDirectory browser None run.1.2 run.2
           = FileSystemManager.getFilesFromDirectory browser None m run.2).
Proof.
  intros run. subst run. unfold FolderPicker.selectFolder.
  destruct isSupported; simpl.
  2: { split; [reflexivity|]. split; [split; [discriminate|intros [? _]; discriminate]|].
       split; [discriminate|].
       split; [split; [discriminate|intros [? _]; discriminate]|]. auto. }
  destruct (showDirectoryPicker w) as [[error|chosen] w']; simpl.
  - assert (forall (A : Type) (x y : A),
              (if String.eqb (FileSystemManager.errorName error) "AbortError"
               then x else y)
              = if bool_decide (FileSystemManager.errorName error = "AbortError")
                then x else y) as Hif.
    { intros A x y.
      destruct (String.eqb_spec (FileSystemManager.errorName error) "AbortError");
        [rewrite bool_decide_eq_true_2|rewrite bool_decide_eq_false_2]; auto. }
    rewrite Hif. case_bool_decide as Habort; simpl.
    + split; [reflexivity|].
      split; [split; [discriminate|intros [_ ?]; discriminate]|].
      split; [discriminate|].
      split; [split; [eauto|reflexivity]|]. auto.
    + assert (exists message,
                (if String.eqb (FileSystemManager.errorName error) "NotAllowedError"
                 then (Thrown "Permission denied. Please allow access to the folder.",
                       m, w')
                 else if String.eqb (FileSystemManager.errorName error)
                           "NotFoundError"
                      then (Thrown "Folder not found or was deleted.", m, w')
                      else (Thrown ("Failed to select folder: "
                                      +:+ FileSystemManager.errorMessage error),
                            m, w'))
                = (@Thrown (option Handle) message, m, w')) as (message & ->).
      { destruct (String.eqb _ "NotAllowedError"); [eauto|].
        destruct (String.eqb _ "NotFoundError"); eauto. }
      simpl. split; [reflexivity|].
      split; [split; [discriminate|intros [_ ?]; discriminate]|].
      split; [discriminate|].
      split; [|auto].
      split; [discriminate|]. intros (_ & error' & [= <-] & Hname). contradiction.
  - split; [reflexivity|].
    split; [split; [intros [= <-]; auto|intros [_ [= <-]]; reflexivity]|].
    split; [intros ? [= <-]; reflexivity|].
    split; [split; [discriminate|intros (_ & error & ? & _); discriminate]|].
    intros Hnone. destruct (Hnone chosen eq_refl).
Qed.

Lemma selectFolder_keeps_previous_state_witness :
  (FolderPicker.selectFolder true PickerExamples.cancelled PickerExamples.loaded
     ManagerExamples.photos).1.2
  = PickerExamples.loaded.
Proof.
  apply (selectFolder_keeps_previous_state true PickerExamples.cancelled
           PickerExamples.loaded ManagerExamples.photos).
  discriminate.
Defined.

(** ** Groups *)

Section GroupFacts.
Import FileQueries.

Lemma membersOf_snoc (key : string) (seen : list FileRecord) (file : FileRecord) :
  membersOf key (seen ++ [file])
  = membersOf key seen ++ (if String.eqb (groupKey file) key then [file] else []).
Proof.
  unfold membersOf. rewrite List.filter_app. simpl.
  destruct (String.eqb (groupKey file) key); reflexivity.
Qed.

Lemma groupOf_plain (key : string) (seen : list FileRecord) :
  Forall plainKey seen -> key ∈ Sorter.objectPrototypeMembers ->
  groupOf key seen = None.
Proof.
  intros Hplain Hkey. unfold groupOf, membersOf.
  induction Hplain as [|f seen Hf Hplain IH]; [reflexivity|]. simpl.
  destruct (String.eqb_spec (groupKey f) key) as [Heq|Hne]; [|exact IH].
  unfold plainKey in Hf. congruence.
Qed.

(** The loop of [groupByExtension] once it has visited [seen]. *)
Lemma groupLoop_spec (files : list FileRecord) :
  forall (seen : list FileRecord) (groups : gmap string (list FileRecord)),
    (forall key, groups !! key = groupOf key seen) ->
    Forall plainKey seen ->
    (Forall plainKey files ->
     exists groups',
       groupLoop files groups = Returned groups'
       /\ forall key, groups' !! key = groupOf key (seen ++ files))
    /\ (Exists (fun f => ~ plainKey f) files ->
        groupLoop files groups = Thrown "groups[ext].push is not a function").
Proof.
  induction files as [|file files IH]; intros seen groups Hgroups Hseen.
  - split.
    + intros _. exists groups. rewrite app_nil_r. auto.
    + intros Hbad. inversion Hbad.
  - assert (forall groups1,
              plainKey file ->
              (forall key, groups1 !! key = groupOf key (seen ++ [file])) ->
              (Forall plainKey (file :: files) ->
               exists groups',
                 groupLoop files groups1 = Returned groups'
                 /\ forall key, groups' !! key = groupOf key (seen ++ file :: files))
              /\ (Exists (fun f => ~ plainKey f) (file :: files) ->
                  groupLoop files groups1
                  = Thrown "groups[ext].push is not a function")) as Hnext.
    { intros groups1 Hfile Hgroups1.
      destruct (IH (seen ++ [file]) groups1 Hgroups1) as [Hgood Hbad].
      { apply Forall_app. split; [exact Hseen|repeat constructor; exact Hfile]. }
      split.
      - intros Hall. apply Forall_cons in Hall as [_ Hall].
        destruct (Hgood Hall) as (groups' & Hrun & Hkeys).
        exists groups'. split; [exact Hrun|]. intros key.
        rewrite Hkeys, <- app_assoc. reflexivity.
      - intros Hsome. apply Exists_cons in Hsome as [Hsome|Hsome];
          [contradiction|auto]. }
    assert (forall members,
              membersOf (groupKey file) seen = members ->
              forall key,
                <[groupKey file := members ++ [file]]> groups !! key
                = groupOf key (seen ++ [file])) as Hinsert.
    { intros members Hmembers key. unfold groupOf. rewrite membersOf_snoc.
      destruct (String.eqb_spec (groupKey file) key) as [<-|Hne].
      - rewrite lookup_insert_eq, Hmembers.
        destruct members; reflexivity.
      - rewrite lookup_insert_ne by exact Hne. rewrite app_nil_r.
        exact (Hgroups key). }
    cbn [groupLoop]. cbv zeta.
    pose proof (Hgroups (groupKey file)) as Hlookup. unfold groupOf in Hlookup.
    destruct (membersOf (groupKey file) seen) as [|member members] eqn:Hmembers;
      rewrite Hlookup.
    + case_bool_decide as Hproto.
      * split; [|reflexivity].
        intros Hall. apply Forall_cons in Hall as [Hfile _]. contradiction.
      * apply Hnext; [exact Hproto|]. exact (Hinsert [] eq_refl).
    + assert (plainKey file) as Hfile.
      { intros Hproto.
        pose proof (groupOf_plain _ seen Hseen Hproto) as Hnone.
        unfold groupOf in Hnone. rewrite Hmembers in Hnone. discriminate. }
      apply Hnext; [exact Hfile|]. exact (Hinsert (member :: members) eq_refl).
Qed.

Lemma ingested_plainKey (file : FileRecord) :
  extension file = EmptyString
  \/ (exists rest, extension file = String "."%char rest) ->
  plainKey file.
Proof.
  unfold plainKey, groupKey.
  intros [->|(rest & ->)]; cbn [JsString.isEmpty].
  - unfold Sorter.objectPrototypeMembers. rewrite !elem_of_cons, elem_of_nil.
    intros H. repeat (destruct H as [H|H]; [discriminate H|]). exact H.
  - unfold Sorter.objectPrototypeMembers. rewrite !elem_of_cons, elem_of_nil.
    intros H. repeat (destruct H as [H|H]; [discriminate H|]). exact H.
Qed.
End GroupFacts.

(** X21. [groupByExtension] returns an object with one property for each
    key that occurs (the extension of a file, or [(no extension)] when it
    is empty), whose value lists the files of that key in the order of
    the array, so that every file is in exactly one group; this holds
    whenever no key is the name of a member of [Object.prototype], in
    particular when every extension is empty or begins with a dot. When
    some key is such a name (an extension [constructor], say),
    [groupByExtension] throws. *)
Theorem groupByExtension_partition (files : list FileRecord) :
  (Forall plainKey files ->
   exists groups,
     FileQueries.groupByExtension files = Returned groups
     /\ (forall key, groups !! key = groupOf key files)
     /\ (forall file, file ∈ files ->
         exists members,
           groups !! FileQueries.groupKey file = Some members /\ file ∈ members)
     /\ (forall key members file,
           groups !! key = Some members -> file ∈ members ->
           file ∈ files /\ FileQueries.groupKey file = key))
  /\ (Exists (fun f => ~ plainKey f) files ->
      FileQueries.groupByExtension files
      = Thrown "groups[ext].push is not a function")
  /\ (Forall (fun f => extension f = EmptyString
                       \/ exists rest, extension f = String "."%char rest) files ->
      Forall plainKey files).
Proof.
  unfold FileQueries.groupByExtension.
  destruct (groupLoop_spec files [] ∅) as [Hgood Hbad].
  { intros key. rewrite lookup_empty. reflexivity. }
  { constructor. }
  split; [|split; [exact Hbad|]].
  - intros Hall. destruct (Hgood Hall) as (groups & Hrun & Hkeys).
    cbn [app] in Hkeys.
    exists groups. split; [exact Hrun|]. split; [exact Hkeys|].
    assert (forall key file,
              file ∈ membersOf key files <->
              file ∈ files /\ FileQueries.groupKey file = key) as Hmember.
    { intros key file. unfold membersOf.
      rewrite !list_elem_of_In, List.filter_In.
      destruct (String.eqb_spec (FileQueries.groupKey file) key); split;
        intros [? ?]; auto; congruence. }
    split.
    + intros file Hfile. rewrite Hkeys. unfold groupOf.
      assert (file ∈ membersOf (FileQueries.groupKey file) files) as Hin
        by (apply Hmember; auto).
      destruct (membersOf (FileQueries.groupKey file) files) as [|member members];
        [inversion Hin|eauto].
    + intros key members file Hlookup Hfile. rewrite Hkeys in Hlookup.
      unfold groupOf in Hlookup. apply Hmember.
      destruct (membersOf key files); [discriminate|].
      injection Hlookup as <-. exact Hfile.
  - intros Hall. eapply Forall_impl; [exact Hall|].
    intros f Hf. apply ingested_plainKey, Hf.
Qed.

Lemma groupByExtension_partition_witness :
  exists groups,
    FileQueries.groupByExtension
      [Examples.a_jpg; Examples.b_png; Examples.file_001_jpg] = Returned groups
    /\ groups !! ".jpg" = Some [Examples.a_jpg; Examples.file_001_jpg].
Proof.
  destruct (groupByExtension_partition
              [Examples.a_jpg; Examples.b_png; Examples.file_001_jpg])
    as (Hgood & _ & Hingested).
  destruct Hgood as (groups & Hrun & Hkeys & _).
  - apply Hingested.
    repeat (apply Forall_cons; split; [right; eexists; reflexivity|]).
    apply Forall_nil. exact I.
  - exists groups. split; [exact Hrun|]. rewrite Hkeys. reflexivity.
Defined.
